(** * VisionAI: the EDA workflow engine and its retrieval pipeline

    A shallow embedding of

    - [src/utils.py]                              ([get_dataset]),
    - [src/pipeline/rag_pipeline.py]              (class [RAGPipeline]),
    - [src/agents/data_visualization_agent.py]    (class [EDAVisualizationAgent]),

    followed by the properties of the workflow that the design document
    states about them.

    Python code is effectful: it prints, writes files, calls a language
    model, mutates lists in place and raises exceptions.  The embedding
    threads an explicit [World] through a state-and-exception monad [M];
    everything that lives outside the repository (pandas, matplotlib,
    the language model, the vector store, LangGraph's node payloads) is
    an oracle collected in the record [Env]. *)

From stdpp Require Import base option list strings gmap.

(** ** Python strings *)

Module Py.

(** The double quote, which the prompts contain. *)
Definition dq : string := String (Ascii.ascii_of_nat 34) EmptyString.

(** The line feed. *)
Definition nl : string := String (Ascii.ascii_of_nat 10) EmptyString.

(** [str.isspace] on the 7-bit characters: TAB, LF, VT, FF, CR, the four
    separators FS GS RS US, and the space. *)
Definition isspace (c : Ascii.ascii) : bool :=
  let n := Ascii.nat_of_ascii c in
  (Nat.leb 9 n && Nat.leb n 13) || (Nat.leb 28 n && Nat.leb n 32).

Fixpoint lstrip (s : string) : string :=
  match s with
  | EmptyString => EmptyString
  | String c s' => if isspace c then lstrip s' else s
  end.

Fixpoint rstrip (s : string) : string :=
  match s with
  | EmptyString => EmptyString
  | String c s' =>
      match rstrip s' with
      | EmptyString => if isspace c then EmptyString else String c EmptyString
      | r => String c r
      end
  end.

(** [s.strip()] *)
Definition strip (s : string) : string := rstrip (lstrip s).

(** Every character of [s] is white space. *)
Fixpoint all_space (s : string) : bool :=
  match s with
  | EmptyString => true
  | String c s' => isspace c && all_space s'
  end.

(** [sub in s] *)
Fixpoint contains (sub s : string) : bool :=
  String.prefix sub s
  || match s with
     | EmptyString => false
     | String _ s' => contains sub s'
     end.

(** [sep.join(l)] *)
Fixpoint join (sep : string) (l : list string) : string :=
  match l with
  | [] => ""
  | [x] => x
  | x :: rest => x +:+ sep +:+ join sep rest
  end.

(** [s * n] *)
Fixpoint repeat (s : string) (n : nat) : string :=
  match n with
  | O => ""
  | S k => s +:+ repeat s k
  end.

(** [os.path.join(a, b)] for a relative [b] and an [a] that does not end
    in a separator, which is how the agent uses it. *)
Definition path_join (a b : string) : string := a +:+ "/" +:+ b.

(** *** Exceptions

    The classes the repository raises or catches by name.  A subclass that
    an [except] clause treats like its parent is represented by the
    parent; any class the code never names is [OtherError]. *)
Inductive exn_class : Type :=
  | ValueError | TypeError | KeyError | IndexError
  | FileNotFoundError | PermissionError
  | ConnectionError          (* requests.exceptions.ConnectionError *)
  | ConnectionRefusedError
  | GraphRecursionError      (* langgraph.errors *)
  | OtherError (name : string).

(** [CustomException(e, sys)] comes from [src/exception.py], which wraps
    the exception it is given. *)
Inductive exn : Type :=
  | Raised (cls : exn_class) (msg : string)
  | CustomException (cause : exn).

Global Instance exn_class_eq_dec : EqDecision exn_class.
Proof. solve_decision. Defined.

Global Instance exn_eq_dec : EqDecision exn.
Proof. solve_decision. Defined.

(** [isinstance(e, cls)] *)
Definition isinstance (e : exn) (c : exn_class) : bool :=
  match e with
  | Raised c' _ => bool_decide (c' = c)
  | CustomException _ => false
  end.

(** Every string that an exception carries, the wrapped ones included. *)
Fixpoint texts (e : exn) : list string :=
  match e with
  | Raised _ msg => [msg]
  | CustomException cause => texts cause
  end.

End Py.

Export Py.

(** ** Tabular data, as pandas hands it to the agent *)

Module Pandas.

(** The dtypes a frame column can have.  [read_csv] infers the first five
    from the text of a column. *)
Inductive dtype : Type :=
  | int64 | uint64 | float64 | bool_ | object_ | category | datetime64.

Global Instance dtype_eq_dec : EqDecision dtype.
Proof. solve_decision. Defined.

Record Column : Type := mkColumn {
  col_name : string;
  col_dtype : dtype;
  col_cells : list string;
}.

(** A frame: its columns in order, and the length of its index. *)
Record DataFrame : Type := mkFrame {
  df_columns : list Column;
  df_rows : nat;
}.

(** [df.shape] *)
Definition shape (df : DataFrame) : nat * nat :=
  (df_rows df, length (df_columns df)).

(** The dtype families [select_dtypes(include=...)] is asked for. *)
Inductive selector : Type := sel_number | sel_object | sel_category.

Definition selects (s : selector) (d : dtype) : bool :=
  match s, d with
  | sel_number, (int64 | uint64 | float64) => true
  | sel_object, object_ => true
  | sel_category, category => true
  | _, _ => false
  end.

(** [df.select_dtypes(include=sels).columns] *)
Definition select_dtypes (sels : list selector) (df : DataFrame) : list Column :=
  filter (λ c, existsb (λ s, selects s (col_dtype c)) sels = true) (df_columns df).

Definition column_names (df : DataFrame) : list string :=
  col_name <$> df_columns df.

End Pandas.

Export Pandas.

(** ** The run-time model: handles, the agent state, the world, the monad *)

Module Runtime.

(** A [Dict[str, str]]. *)
Abbreviation Dict := (gmap string string).

(** Python lists that are mutated in place live in a heap and are passed
    around by reference. *)
Abbreviation loc := nat.

(** A [langchain] document, as far as the agent looks at it. *)
Record Document : Type := mkDocument { page_content : string }.

(** What [db.as_retriever(search_kwargs={'k': 5})] returns. *)
Record Retriever : Type := mkRetriever {
  store_path : string;
  store_embedding : string;
  search_k : nat;
}.

(** The chat model handle held in [self.llm]. *)
Inductive LLM : Type :=
  | ChatGroq (model : string) (temperature : nat)
  | ChatOllama (model : string) (temperature : nat).

(** [AgentState].  At run time it is a plain [dict], so any key may be
    missing: every field is an option and [None] is the missing key.  The
    same type serves for the partial dictionaries that nodes return as
    updates.  [visualizations] is a reference to a list in the heap, since
    the plot steps append to it in place. *)
Record AgentState : Type := mkState {
  file_path : option string;
  target_column : option string;
  numerical_cols : option (list string);
  categorical_cols : option (list string);
  datetime_cols : option (list string);
  retriever : option Retriever;
  insights : option (list string);
  visualizations : option loc;
  current_plot_context : option Dict;
}.

(** The dictionary [{}]. *)
Definition empty_dict : AgentState :=
  mkState None None None None None None None None None.

(** What the code can change or observe outside its own variables. *)
Record World : Type := mkWorld {
  files : gset string;            (* regular files on disk *)
  dirs : gset string;             (* directories on disk *)
  heap : list (list Dict);        (* list objects, by reference *)
  stdout : list string;           (* one entry per [print] call *)
  llm_calls : list string;        (* prompts sent to the chat model *)
  index_builds : list string;     (* stores [Chroma.from_documents] was asked to build *)
  trace : list (string * AgentState);  (* graph nodes started, with their input *)
}.

Definition set_files (f : gset string → gset string) (w : World) : World :=
  mkWorld (f (files w)) (dirs w) (heap w) (stdout w) (llm_calls w) (index_builds w) (trace w).
Definition set_dirs (f : gset string → gset string) (w : World) : World :=
  mkWorld (files w) (f (dirs w)) (heap w) (stdout w) (llm_calls w) (index_builds w) (trace w).
Definition set_heap (f : list (list Dict) → list (list Dict)) (w : World) : World :=
  mkWorld (files w) (dirs w) (f (heap w)) (stdout w) (llm_calls w) (index_builds w) (trace w).
Definition set_stdout (f : list string → list string) (w : World) : World :=
  mkWorld (files w) (dirs w) (heap w) (f (stdout w)) (llm_calls w) (index_builds w) (trace w).
Definition set_llm_calls (f : list string → list string) (w : World) : World :=
  mkWorld (files w) (dirs w) (heap w) (stdout w) (f (llm_calls w)) (index_builds w) (trace w).
Definition set_index_builds (f : list string → list string) (w : World) : World :=
  mkWorld (files w) (dirs w) (heap w) (stdout w) (llm_calls w) (f (index_builds w)) (trace w).
Definition set_trace (f : list (string * AgentState) → list (string * AgentState))
    (w : World) : World :=
  mkWorld (files w) (dirs w) (heap w) (stdout w) (llm_calls w) (index_builds w) (f (trace w)).

(** The collaborators outside the repository.  A call that can raise
    returns the exception on the left; a call made only for its effect
    returns [None] when it succeeds. *)
Record Env : Type := mkEnv {
  (* pandas *)
  read_csv : string → exn + DataFrame;
  to_datetime : Column → option exn;
  memory_usage_kb : DataFrame → string;   (* f"{df.memory_usage(deep=True).sum() / 1024:.2f} KB" *)
  (* the built-in formatting of a list inside an f-string *)
  format_list : list string → string;
  (* requests *)
  requests_get : string → option exn;
  (* langchain: loader, splitter, vector store, retriever, chat model *)
  csv_loader : string → exn + list Document;
  split_documents : nat → nat → list Document → list Document;
  chroma_from_documents : list Document → string → string → option exn;
  chroma_open : string → string → option exn;
  retriever_invoke : Retriever → string → exn + list Document;
  llm_invoke : LLM → nat → string → exn + string;  (* the [nat] counts earlier calls *)
  (* matplotlib and seaborn *)
  draw_hist_box : DataFrame → string → option exn;
  draw_countplot : DataFrame → string → option exn;
  draw_heatmap : DataFrame → list string → option exn;
  makedirs : string → option exn;
  savefig : string → option exn;
}.

(** State and exceptions.  The world that comes back with an exception is
    the world at the moment it was raised: effects are not rolled back. *)
Definition M (A : Type) : Type := World → World * (exn + A).

Global Instance M_ret : MRet M := λ A a w, (w, inr a).

Global Instance M_bind : MBind M := λ A B k m w,
  match m w with
  | (w', inl e) => (w', inl e)
  | (w', inr a) => k a w'
  end.

Definition raise {A} (e : exn) : M A := λ w, (w, inl e).

(** [try: m  except Exception as e: h e] *)
Definition try_except {A} (m : M A) (h : exn → M A) : M A := λ w,
  match m w with
  | (w', inl e) => h e w'
  | (w', inr a) => (w', inr a)
  end.

(** The result of an oracle that can raise. *)
Definition lift {A} (r : exn + A) : M A := λ w, (w, r).

(** The result of an oracle called for its effect. *)
Definition check (r : option exn) : M unit :=
  match r with
  | Some e => raise e
  | None => mret tt
  end.

(** [d[key]] on a dictionary whose value for [key] is [v]. *)
Definition subscript {A} (key : string) (v : option A) : M A :=
  match v with
  | Some a => mret a
  | None => raise (Raised KeyError key)
  end.

Definition print (s : string) : M unit := λ w,
  (set_stdout (λ out, out ++ [s]) w, inr tt).

(** A new list object. *)
Definition alloc (xs : list Dict) : M loc := λ w,
  (set_heap (λ h, h ++ [xs]) w, inr (length (heap w))).

(** The elements of a list object.  A reference always points into the
    heap; for a stray one the empty list is read. *)
Definition deref (l : loc) : M (list Dict) := λ w,
  (w, inr (default [] (heap w !! l))).

(** [l.append(x)] *)
Definition list_append (l : loc) (x : Dict) : M unit := λ w,
  (set_heap (alter (λ xs, xs ++ [x]) l) w, inr tt).

(** [os.path.isfile(p)] *)
Definition os_path_isfile (p : string) : M bool := λ w,
  (w, inr (bool_decide (p ∈ files w))).

(** [os.path.exists(p)] *)
Definition os_path_exists (p : string) : M bool := λ w,
  (w, inr (bool_decide (p ∈ files w ∨ p ∈ dirs w))).

Definition add_dir (p : string) : M unit := λ w,
  (set_dirs (λ d, {[p]} ∪ d) w, inr tt).

Definition add_file (p : string) : M unit := λ w,
  (set_files (λ f, {[p]} ∪ f) w, inr tt).

(** [os.makedirs(p, exist_ok=True)] *)
Definition os_makedirs (env : Env) (p : string) : M unit :=
  check (makedirs env p);; add_dir p.

(** [fig.savefig(p)] *)
Definition fig_savefig (env : Env) (p : string) : M unit :=
  check (savefig env p);; add_file p.

(** [llm.invoke([SystemMessage(content=prompt)]).content] *)
Definition llm_content (env : Env) (llm : LLM) (prompt : string) : M string := λ w,
  (set_llm_calls (λ cs, cs ++ [prompt]) w,
   llm_invoke env llm (length (llm_calls w)) prompt).

End Runtime.

Export Runtime.

(** ** [src/utils.py] *)

Module utils.

(** [get_dataset(file_path)]: [pd.read_csv], any exception wrapped. *)
Definition get_dataset (env : Env) (file_path : string) : M DataFrame :=
  try_except (lift (read_csv env file_path))
             (λ e, raise (CustomException e)).

End utils.

Export utils.

(** ** [src/pipeline/rag_pipeline.py]

    Calls to [logging] are left out: they reach neither the caller nor the
    console. *)

Module rag_pipeline.

Record RAGPipeline : Type := mkRAGPipeline {
  data_source : string;
  chroma_db_path : string;
  embedding_model : string;
}.

(** [RAGPipeline.__init__]; a missing or empty [data_source] selects the
    knowledge base shipped with the code. *)
Definition RAGPipeline_init (data_source : option string)
    (chroma_db_path embedding_model : string) : RAGPipeline :=
  mkRAGPipeline
    (match data_source with
     | Some (String c s) => String c s
     | _ => path_join (path_join "src" "pipeline") "eda_knowledge_base.csv"
     end)
    chroma_db_path embedding_model.

(** [RAGPipeline()] *)
Definition RAGPipeline_default : RAGPipeline :=
  RAGPipeline_init None "chroma_db" "nomic-embed-text".

(** The remark [_build_vector_db] prints when the model is missing. *)
Definition model_not_found_msg (model : string) : string :=
  "The embedding model '" +:+ model +:+ "' was not found by the Ollama server." +:+ nl
  +:+ "Please pull the model by running the following command in your terminal:"
  +:+ nl +:+ nl
  +:+ "ollama pull " +:+ model +:+ nl.

Definition note_build (path : string) : M unit := λ w,
  (set_index_builds (λ b, b ++ [path]) w, inr tt).

(** [Chroma.from_documents(chunks, OllamaEmbeddings(model), persist_directory)]:
    the request is recorded, and a store that was built is on disk. *)
Definition Chroma_from_documents (env : Env) (chunks : list Document)
    (model path : string) : M unit :=
  note_build path;;
  check (chroma_from_documents env chunks model path);;
  add_dir path.

Definition _build_vector_db (env : Env) (self : RAGPipeline) : M unit :=
  documents ← lift (csv_loader env (data_source self));
  let chunks := split_documents env 500 50 documents in
  try_except
    (Chroma_from_documents env chunks (embedding_model self) (chroma_db_path self))
    (λ e,
       match e with
       | Raised ValueError msg =>
           (if contains "not found, try pulling it first" msg then
              print (nl +:+ repeat "=" 80);;
              print "🛑 Ollama Model Not Found";;
              print (repeat "-" 80);;
              print (model_not_found_msg (embedding_model self));;
              print (repeat "=" 80 +:+ nl)
            else mret tt);;
           raise (CustomException e)
       | _ => raise (CustomException e)
       end).

Definition get_retriever (env : Env) (self : RAGPipeline) : M Retriever :=
  found ← os_path_exists (chroma_db_path self);
  (if negb found then _build_vector_db env self else mret tt);;
  try_except
    (check (chroma_open env (embedding_model self) (chroma_db_path self));;
     mret (mkRetriever (chroma_db_path self) (embedding_model self) 5))
    (λ e, raise (CustomException e)).

End rag_pipeline.

Export rag_pipeline.

(** ** The graph library

    [langgraph] is not part of the repository.  What the agent relies on is
    modelled here: a graph is a set of named nodes, an entry point and
    directed edges; [invoke] writes the input into the state, then proceeds
    in rounds, running every active node on the current state and merging
    the dictionaries they return, key by key: [insights] and
    [visualizations] are declared with [operator.add] and are concatenated,
    every other key is overwritten.  A node receives the state's lists by
    reference. *)

Module langgraph.

Definition node_fn : Type := AgentState → M AgentState.

Record StateGraph : Type := mkGraph {
  nodes : list (string * node_fn);
  entry_point : option string;
  edges : list (string * string);
}.

Definition END : string := "__end__".

Definition new_graph : StateGraph := mkGraph [] None [].

Definition add_node (name : string) (f : node_fn) (g : StateGraph) : StateGraph :=
  mkGraph (nodes g ++ [(name, f)]) (entry_point g) (edges g).

Definition set_entry_point (name : string) (g : StateGraph) : StateGraph :=
  mkGraph (nodes g) (Some name) (edges g).

Definition add_edge (src dst : string) (g : StateGraph) : StateGraph :=
  mkGraph (nodes g) (entry_point g) (edges g ++ [(src, dst)]).

Fixpoint find_node (name : string) (ns : list (string * node_fn)) : option node_fn :=
  match ns with
  | [] => None
  | (n, f) :: rest => if bool_decide (n = name) then Some f else find_node name rest
  end.

Definition successors (g : StateGraph) (name : string) : list string :=
  snd <$> filter (λ e, e.1 = name) (edges g).

(** A key without a reducer keeps the last value written. *)
Definition last_value {A} (old new : option A) : option A :=
  match new with
  | Some v => Some v
  | None => old
  end.

(** [operator.add] on a key that holds a list value. *)
Definition add_values {A} (old new : option (list A)) : option (list A) :=
  match new with
  | Some v => Some (default [] old ++ v)
  | None => old
  end.

(** [operator.add] on a key that holds a list object: a new list. *)
Definition add_objects (old new : option loc) : M (option loc) :=
  match new with
  | Some l2 =>
      xs ← match old with Some l1 => deref l1 | None => mret [] end;
      ys ← deref l2;
      l ← alloc (xs ++ ys);
      mret (Some l)
  | None => mret old
  end.

(** The state after an update, given the list object [viz] that the
    reducer of [visualizations] produced. *)
Definition merge_values (st upd : AgentState) (viz : option loc) : AgentState :=
  mkState
    (last_value (file_path st) (file_path upd))
    (last_value (target_column st) (target_column upd))
    (last_value (numerical_cols st) (numerical_cols upd))
    (last_value (categorical_cols st) (categorical_cols upd))
    (last_value (datetime_cols st) (datetime_cols upd))
    (last_value (retriever st) (retriever upd))
    (add_values (insights st) (insights upd))
    viz
    (last_value (current_plot_context st) (current_plot_context upd)).

Definition apply_update (st upd : AgentState) : M AgentState :=
  viz ← add_objects (visualizations st) (visualizations upd);
  mret (merge_values st upd viz).

Fixpoint apply_updates (st : AgentState) (upds : list AgentState) : M AgentState :=
  match upds with
  | [] => mret st
  | u :: rest => st' ← apply_update st u; apply_updates st' rest
  end.

(** A node starts: the engine hands it the current state. *)
Definition enter (name : string) (st : AgentState) : M unit := λ w,
  (set_trace (λ t, t ++ [(name, st)]) w, inr tt).

Fixpoint run_nodes (g : StateGraph) (active : list string) (st : AgentState)
    : M (list AgentState) :=
  match active with
  | [] => mret []
  | name :: rest =>
      match find_node name (nodes g) with
      | None => raise (Raised ValueError ("Found edge ending at unknown node " +:+ name))
      | Some f =>
          enter name st;;
          u ← f st;
          us ← run_nodes g rest st;
          mret (u :: us)
      end
  end.

Definition next_active (g : StateGraph) (active : list string) : list string :=
  remove_dups (filter (λ n, n ≠ END) (active ≫= successors g)).

Fixpoint rounds (limit : nat) (g : StateGraph) (active : list string)
    (st : AgentState) : M AgentState :=
  match active with
  | [] => mret st
  | _ :: _ =>
      match limit with
      | O => raise (Raised GraphRecursionError "Recursion limit reached")
      | S k =>
          us ← run_nodes g active st;
          st' ← apply_updates st us;
          rounds k g (next_active g active) st'
      end
  end.

Definition recursion_limit : nat := 25.

(** [workflow.compile().invoke(input)] *)
Definition invoke (g : StateGraph) (input : AgentState) : M AgentState :=
  st ← apply_update empty_dict input;
  match entry_point g with
  | None => raise (Raised ValueError "Graph must have an entrypoint")
  | Some name => rounds recursion_limit g [name] st
  end.

End langgraph.

Export langgraph.

(** ** [src/agents/data_visualization_agent.py] *)

Module data_visualization_agent.

(** *** Dictionaries the nodes build *)

(** [{"insights": l}] *)
Definition dict_insights (l : list string) : AgentState :=
  mkState None None None None None None (Some l) None None.

(** [{"current_plot_context": c}] *)
Definition dict_context (c : Dict) : AgentState :=
  mkState None None None None None None None None (Some c).

(** [{"visualizations": l, "current_plot_context": c}] *)
Definition dict_caption (l : loc) (c : Dict) : AgentState :=
  mkState None None None None None None None (Some l) (Some c).

(** [{"numerical_cols": n, "categorical_cols": c, "datetime_cols": d}] *)
Definition dict_profile (n c d : list string) : AgentState :=
  mkState None None (Some n) (Some c) (Some d) None None None None.

(** [l[0]] *)
Definition first {A} (l : list A) : M A :=
  match l with
  | x :: _ => mret x
  | [] => raise (Raised IndexError "list index out of range")
  end.

(** [df[col]] *)
Definition getitem (df : DataFrame) (col : string) : M Column :=
  match List.find (λ c, bool_decide (col_name c = col)) (df_columns df) with
  | Some c => mret c
  | None => raise (Raised KeyError col)
  end.

(** *** [_check_ollama_connection] *)

Definition connection_error_msg (base_url : string) : string :=
  "Connection to Ollama server at '" +:+ base_url +:+ "' failed." +:+ nl
  +:+ "Please ensure the Ollama application is running on your machine." +:+ nl
  +:+ "You can start it by running the following command in your terminal:"
  +:+ nl +:+ nl
  +:+ "ollama serve" +:+ nl.

Definition default_base_url : string := "http://localhost:11434".

Definition _check_ollama_connection (env : Env) (base_url : string) : M unit :=
  print "🔎 Checking for Ollama server connection...";;
  try_except
    (check (requests_get env base_url);;
     print "✅ Ollama server is running.")
    (λ e,
       if isinstance e ConnectionError then
         print (nl +:+ repeat "=" 80);;
         print "🛑 Ollama Connection Error";;
         print (repeat "-" 80);;
         print (connection_error_msg base_url);;
         print (repeat "=" 80 +:+ nl);;
         raise (Raised ConnectionRefusedError "Ollama server not found.")
       else raise e).

(** *** [_get_contextual_insights] *)

Definition insights_query (env : Env) (num_cols cat_cols : list string) : string :=
  "What are some common data analysis and visualization techniques "
  +:+ "for a dataset with numerical columns like " +:+ format_list env num_cols +:+ " and "
  +:+ "categorical columns like " +:+ format_list env cat_cols +:+ "?".

Definition synthesis_prompt (context : string) : string :=
  let ind := "            " in
  nl +:+ ind +:+ "Based on the following data analysis techniques, provide a concise summary of 2-3 key suggestions for an analyst."
  +:+ nl +:+ ind +:+ "Focus on actionable advice."
  +:+ nl
  +:+ nl +:+ ind +:+ "Retrieved Techniques:"
  +:+ nl +:+ ind +:+ context
  +:+ nl
  +:+ nl +:+ ind +:+ "Summary:"
  +:+ nl +:+ ind.

Definition _get_contextual_insights (env : Env) (llm : LLM) (state : AgentState)
    : M AgentState :=
  print (nl +:+ "🤔 Querying RAG pipeline for contextual insights...");;
  match retriever state with
  | None => mret (dict_insights ["Retriever not available."])
  | Some retriever =>
      let num_cols := default [] (numerical_cols state) in
      let cat_cols := default [] (categorical_cols state) in
      let query := insights_query env num_cols cat_cols in
      try_except
        (retrieved_docs ← lift (retriever_invoke env retriever query);
         let context := join nl (page_content <$> retrieved_docs) in
         content ← llm_content env llm (synthesis_prompt context);
         let insights_summary := strip content in
         print "✅ RAG Insights Generated.";;
         mret (dict_insights [insights_summary]))
        (λ e, raise (CustomException e))
  end.

(** *** [_generate_caption] *)

Definition caption_prompt (plot_type details : string) : string :=
  let ind := "        " in
  nl +:+ ind +:+ "You are an expert data analyst providing insights for a presentation."
  +:+ nl +:+ ind +:+ "A " +:+ plot_type +:+ " has been generated for " +:+ details +:+ "."
  +:+ nl +:+ ind +:+ "Your task is to write a single, concise, and insightful caption for this plot."
  +:+ nl +:+ ind +:+ "The caption should explain the key takeaway or what the visualization reveals about the data."
  +:+ nl +:+ ind +:+ "Start your caption directly, without any preamble like "
                 +:+ dq +:+ "This plot shows..." +:+ dq +:+ "."
  +:+ nl
  +:+ nl +:+ ind +:+ "Example for a histogram of 'age':"
  +:+ nl +:+ ind +:+ dq
      +:+ "The age distribution is skewed towards a younger demographic, with a significant peak in the 20-30 year old range."
      +:+ dq
  +:+ nl
  +:+ nl +:+ ind +:+ "Example for a correlation heatmap:"
  +:+ nl +:+ ind +:+ dq
      +:+ "Price shows a strong positive correlation with sqft_living and grade, indicating these are key drivers of value, while yr_built has a weaker relationship."
      +:+ dq
  +:+ nl +:+ ind.

(** [{"plot_type": t, "details": d}] *)
Definition plot_context (plot_type details : string) : Dict :=
  {[ "plot_type" := plot_type; "details" := details ]}.

Definition _generate_caption (env : Env) (llm : LLM) (state : AgentState)
    : M AgentState :=
  let context := default ∅ (current_plot_context state) in
  if bool_decide (context = ∅) then mret empty_dict
  else
    let plot_type := default "chart" (context !! "plot_type") in
    let details := default "the dataset" (context !! "details") in
    let prompt := caption_prompt plot_type details in
    print ("🤖 Generating caption for: " +:+ plot_type +:+ " of " +:+ details +:+ "...");;
    content ← llm_content env llm prompt;
    let caption := strip content in
    let visualization_entry : Dict :=
      {[ "plot_type" := plot_type; "details" := details; "caption" := caption ]} in
    print (nl +:+ "💡 AI Caption: " +:+ caption +:+ nl +:+ repeat "-" 80);;
    entries ← alloc [visualization_entry];
    mret (dict_caption entries ∅).

(** [caption_state["visualizations"][0]["caption"]] *)
Definition caption_of (caption_state : AgentState) : M string :=
  entries ← subscript "visualizations" (visualizations caption_state);
  xs ← deref entries;
  entry ← first xs;
  subscript "caption" (entry !! "caption").

(** *** [_profile_data_for_plotting] *)

(** The [for] loop over the textual columns; [datetime_cols] is the list
    built so far. *)
Fixpoint datetime_loop (env : Env) (df : DataFrame) (cols datetime_cols : list string)
    : M (list string) :=
  match cols with
  | [] => mret datetime_cols
  | col :: rest =>
      datetime_cols' ←
        try_except
          (series ← getitem df col;
           check (to_datetime env series);;
           mret (datetime_cols ++ [col]))
          (λ e,
             if isinstance e ValueError || isinstance e TypeError
             then mret datetime_cols
             else raise e);
      datetime_loop env df rest datetime_cols'
  end.

Definition _profile_data_for_plotting (env : Env) (state : AgentState)
    : M AgentState :=
  path ← subscript "file_path" (file_path state);
  df ← get_dataset env path;
  datetime_cols ← datetime_loop env df (col_name <$> select_dtypes [sel_object] df) [];
  let numerical_cols := col_name <$> select_dtypes [sel_number] df in
  let categorical_cols :=
    filter (λ col, col ∉ datetime_cols)
           (col_name <$> select_dtypes [sel_object; sel_category] df) in
  mret (dict_profile numerical_cols categorical_cols datetime_cols).

(** *** The plot steps *)

Definition plots_dir : string := path_join "static" "plots".

(** [{"title": t, "path": p, "description": d}] *)
Definition visualization (title path description : string) : Dict :=
  {[ "title" := title; "path" := path; "description" := description ]}.

(** The body of the [for] loop of [_plot_univariate_numerical]. *)
Definition plot_numerical_column (env : Env) (llm : LLM) (state : AgentState)
    (df : DataFrame) (col : string) : M unit :=
  check (draw_hist_box env df col);;
  os_makedirs env plots_dir;;
  let filename := "hist_box_" +:+ col +:+ ".png" in
  let filepath := path_join plots_dir filename in
  fig_savefig env filepath;;
  caption_state ←
    _generate_caption env llm
      (dict_context (plot_context "Histogram and Box Plot"
                                  ("the numerical column '" +:+ col +:+ "'")));
  caption ← caption_of caption_state;
  target ← subscript "visualizations" (visualizations state);
  list_append target (visualization ("Distribution of " +:+ col) filename caption).

Fixpoint for_each {A} (body : A → M unit) (l : list A) : M unit :=
  match l with
  | [] => mret tt
  | x :: rest => body x;; for_each body rest
  end.

Definition _plot_univariate_numerical (env : Env) (llm : LLM) (state : AgentState)
    : M AgentState :=
  path ← subscript "file_path" (file_path state);
  df ← get_dataset env path;
  cols ← subscript "numerical_cols" (numerical_cols state);
  match cols with
  | [] => mret (dict_context ∅)
  | _ :: _ =>
      for_each (plot_numerical_column env llm state df) cols;;
      mret empty_dict
  end.

(** The body of the [for] loop of [_plot_univariate_categorical]. *)
Definition plot_categorical_column (env : Env) (llm : LLM) (state : AgentState)
    (df : DataFrame) (col : string) : M unit :=
  check (draw_countplot env df col);;
  let filename := "countplot_" +:+ col +:+ ".png" in
  let filepath := path_join plots_dir filename in
  fig_savefig env filepath;;
  caption_state ←
    _generate_caption env llm
      (dict_context (plot_context "Bar Chart"
                                  ("the categorical column '" +:+ col +:+ "'")));
  caption ← caption_of caption_state;
  target ← subscript "visualizations" (visualizations state);
  list_append target (visualization ("Frequency of " +:+ col) filename caption).

Definition _plot_univariate_categorical (env : Env) (llm : LLM) (state : AgentState)
    : M AgentState :=
  path ← subscript "file_path" (file_path state);
  df ← get_dataset env path;
  cols ← subscript "categorical_cols" (categorical_cols state);
  match cols with
  | [] => mret empty_dict
  | _ :: _ =>
      os_makedirs env plots_dir;;
      for_each (plot_categorical_column env llm state df) cols;;
      mret empty_dict
  end.

Definition _plot_correlation_heatmap (env : Env) (llm : LLM) (state : AgentState)
    : M AgentState :=
  path ← subscript "file_path" (file_path state);
  df ← get_dataset env path;
  cols ← subscript "numerical_cols" (numerical_cols state);
  if bool_decide (length cols < 2) then mret empty_dict
  else
    check (draw_heatmap env df cols);;
    os_makedirs env plots_dir;;
    let filename := "correlation_heatmap.png" in
    let filepath := path_join plots_dir filename in
    fig_savefig env filepath;;
    caption_state ←
      _generate_caption env llm
        (dict_context (plot_context "Correlation Heatmap" "all numerical features"));
    caption ← caption_of caption_state;
    target ← subscript "visualizations" (visualizations state);
    list_append target (visualization "Correlation Heatmap" filename caption);;
    mret empty_dict.

(** *** [_build_graph] *)

Definition _build_graph (env : Env) (llm : LLM) : StateGraph :=
  let workflow := new_graph in
  let workflow := add_node "profile_data" (_profile_data_for_plotting env) workflow in
  let workflow := add_node "get_contextual_insights" (_get_contextual_insights env llm) workflow in
  let workflow := add_node "plot_univariate_numerical" (_plot_univariate_numerical env llm) workflow in
  let workflow := add_node "plot_univariate_categorical" (_plot_univariate_categorical env llm) workflow in
  let workflow := add_node "plot_correlation_heatmap" (_plot_correlation_heatmap env llm) workflow in
  let workflow := add_node "generate_caption_for_heatmap" (_generate_caption env llm) workflow in
  let workflow := set_entry_point "profile_data" workflow in
  let workflow := add_edge "profile_data" "get_contextual_insights" workflow in
  let workflow := add_edge "get_contextual_insights" "plot_univariate_numerical" workflow in
  let workflow := add_edge "plot_univariate_numerical" "plot_univariate_categorical" workflow in
  let workflow := add_edge "plot_univariate_categorical" "plot_correlation_heatmap" workflow in
  let workflow := add_edge "plot_correlation_heatmap" "generate_caption_for_heatmap" workflow in
  let workflow := add_edge "generate_caption_for_heatmap" END workflow in
  workflow.

(** *** The agent *)

Record EDAVisualizationAgent : Type := mkAgent {
  llm : LLM;
  graph : StateGraph;
}.

(** [EDAVisualizationAgent.__init__] *)
Definition EDAVisualizationAgent_init (env : Env) (llm : option LLM)
    : M EDAVisualizationAgent :=
  match llm with
  | None => raise (Raised ValueError "An LLM instance must be provided.")
  | Some llm =>
      _check_ollama_connection env default_base_url;;
      mret (mkAgent llm (_build_graph env llm))
  end.

Definition not_a_file_msg (file_path : string) : string :=
  "The provided path is not a valid file: '" +:+ file_path +:+ "'" +:+ nl
  +:+ "Please provide the correct path to your CSV dataset." +:+ nl +:+ nl
  +:+ "Example usage:" +:+ nl
  +:+ "agent.run('path/to/your/data.csv')".

(** What [run] returns. *)
Record Results : Type := mkResults {
  basic_info_rows : nat;
  basic_info_columns : nat;
  basic_info_memory_usage : string;
  results_visualizations : list Dict;
}.

Definition initial_state (file_path : string) (target_column : option string)
    (visualizations : loc) (retriever : Retriever) : AgentState :=
  mkState (Some file_path) target_column None None None
          (Some retriever) (Some []) (Some visualizations) (Some ∅).

Definition run (env : Env) (self : EDAVisualizationAgent) (file_path : string)
    (target_column : option string) : M Results :=
  is_file ← os_path_isfile file_path;
  if negb is_file then raise (Raised FileNotFoundError (not_a_file_msg file_path))
  else
    df ← get_dataset env file_path;
    let rag := RAGPipeline_default in
    visualizations0 ← alloc [];
    retriever ← get_retriever env rag;
    final_state ← invoke (graph self)
                    (initial_state file_path target_column visualizations0 retriever);
    visualizations ← match visualizations final_state with
                     | Some l => deref l
                     | None => mret []
                     end;
    mret (mkResults (shape df).1 (shape df).2 (memory_usage_kb env df) visualizations).

End data_visualization_agent.

Export data_visualization_agent.

(** ** Notions used to state the properties *)

Module Spec.

(** [m] keeps [I]: whatever [m] does to a world in which [I] holds, and
    whether it returns or raises, [I] holds afterwards. *)
Definition stable {A} (I : World → Prop) (m : M A) : Prop :=
  ∀ w, I w → I (m w).1.

(** Every value [m] returns satisfies [Q]. *)
Definition returns {A} (Q : A → Prop) (m : M A) : Prop :=
  ∀ w a, (m w).2 = inr a → Q a.

(** [m] touches nothing: it gives its answer and leaves the world alone. *)
Definition silent {A} (m : M A) : Prop := ∀ w, (m w).1 = w.

(** What an invariant may be indifferent to. *)
Definition ignores_stdout (I : World → Prop) : Prop :=
  ∀ f w, I w → I (set_stdout f w).
Definition ignores_new_llm_calls (I : World → Prop) : Prop :=
  ∀ p w, I w → I (set_llm_calls (λ cs, cs ++ [p]) w).
Definition ignores_heap (I : World → Prop) : Prop :=
  ∀ f w, I w → I (set_heap f w).
Definition ignores_trace (I : World → Prop) : Prop :=
  ∀ f w, I w → I (set_trace f w).
Definition ignores_index_builds (I : World → Prop) : Prop :=
  ∀ f w, I w → I (set_index_builds f w).
Definition ignores_new_files (I : World → Prop) : Prop :=
  ∀ p w, I w → I (set_files (λ f, {[p]} ∪ f) w).
Definition ignores_new_dirs (I : World → Prop) : Prop :=
  ∀ p w, I w → I (set_dirs (λ d, {[p]} ∪ d) w).

(** One round of the engine on a single node. *)
Definition node (name : string) (f : node_fn) (st : AgentState) : M AgentState :=
  enter name st;;
  u ← f st;
  apply_update st u.

(** A graph that is a chain runs its nodes one after the other. *)
Fixpoint chain (steps : list (string * node_fn)) (st : AgentState) : M AgentState :=
  match steps with
  | [] => mret st
  | (name, f) :: rest => st' ← node name f st; chain rest st'
  end.

(** The order in which [_build_graph] links the nodes. *)
Definition workflow_order : list string :=
  [ "profile_data";
    "get_contextual_insights";
    "plot_univariate_numerical";
    "plot_univariate_categorical";
    "plot_correlation_heatmap";
    "generate_caption_for_heatmap" ].

(** The agent [__init__] builds around a chat model. *)
Definition agent_of (env : Env) (llm : LLM) : EDAVisualizationAgent :=
  mkAgent llm (_build_graph env llm).

(** A dictionary holds no plot context: the key is missing or maps to [{}]. *)
Definition no_context (d : AgentState) : Prop :=
  current_plot_context d = None ∨ current_plot_context d = Some ∅.

(** The path names a regular file that pandas can load. *)
Definition readable (env : Env) (w : World) (path : string) : Prop :=
  path ∈ files w ∧ ∃ df, read_csv env path = inr df.

(** [run] turns down every path that is not a readable file with a
    [FileNotFoundError], and has touched nothing by then. *)
Definition rejects_unreadable_paths (env : Env) (self : EDAVisualizationAgent)
    (w : World) : Prop :=
  ∀ path target_column,
    ¬ readable env w path →
    ∃ msg, run env self path target_column w = (w, inl (Raised FileNotFoundError msg)).

(** The persisted vector store of a pipeline is on disk. *)
Definition store_exists (self : RAGPipeline) (w : World) : Prop :=
  chroma_db_path self ∈ files w ∨ chroma_db_path self ∈ dirs w.

(** The store is there and no build has been requested since the world
    had [builds] on record. *)
Definition store_untouched (self : RAGPipeline) (builds : list string)
    (w : World) : Prop :=
  index_builds w = builds ∧ store_exists self w.

(** The failure [_build_vector_db] recognises as a missing model. *)
Definition model_missing (e : exn) : bool :=
  match e with
  | Raised ValueError msg => contains "not found, try pulling it first" msg
  | _ => false
  end.

(** What [_build_vector_db] prints for a missing model. *)
Definition model_not_found_banner (model : string) : list string :=
  [ nl +:+ repeat "=" 80;
    "🛑 Ollama Model Not Found";
    repeat "-" 80;
    model_not_found_msg model;
    repeat "=" 80 +:+ nl ].

(** What [_check_ollama_connection] prints when the server is down. *)
Definition connection_banner (base_url : string) : list string :=
  [ "🔎 Checking for Ollama server connection...";
    nl +:+ repeat "=" 80;
    "🛑 Ollama Connection Error";
    repeat "-" 80;
    connection_error_msg base_url;
    repeat "=" 80 +:+ nl ].

(** Some text carried by the error contains [advice]. *)
Definition carries (advice : string) (e : exn) : Prop :=
  ∃ t, t ∈ texts e ∧ contains advice t = true.

(** The two ways in which building the index fails raise errors that
    carry their own remedy: start the service, or pull the model. *)
Definition failures_carry_remedies (env_down env_absent : Env)
    (self : RAGPipeline) (w : World) : Prop :=
  ∃ w1 e1 w2 e2,
    _build_vector_db env_down self w = (w1, inl e1)
    ∧ _build_vector_db env_absent self w = (w2, inl e2)
    ∧ carries "ollama serve" e1
    ∧ carries ("ollama pull " +:+ embedding_model self) e2.

(** The dtype is one of those the profiling step asks for. *)
Definition classified (d : dtype) : bool :=
  selects sel_number d || selects sel_object d || selects sel_category d.

(** [pd.to_datetime] accepts the column. *)
Definition parses (env : Env) (col : Column) : bool :=
  match to_datetime env col with
  | None => true
  | Some _ => false
  end.

(** Whatever [pd.to_datetime] raises on the textual columns of [df] is a
    [ValueError] or a [TypeError], the two classes the loop catches. *)
Definition parse_errors_caught (env : Env) (df : DataFrame) : Prop :=
  ∀ col e, col ∈ select_dtypes [sel_object] df → to_datetime env col = Some e →
           isinstance e ValueError || isinstance e TypeError = true.

(** The three lists are pairwise disjoint and together hold exactly the
    names [names]. *)
Definition partitions (names n c d : list string) : Prop :=
  NoDup (n ++ c ++ d) ∧ ∀ x, x ∈ n ++ c ++ d ↔ x ∈ names.

(** The nodes of the workflow, in the order of its edges. *)
Definition workflow_steps (env : Env) (llm : LLM) : list (string * node_fn) :=
  [ ("profile_data", _profile_data_for_plotting env);
    ("get_contextual_insights", _get_contextual_insights env llm);
    ("plot_univariate_numerical", _plot_univariate_numerical env llm);
    ("plot_univariate_categorical", _plot_univariate_categorical env llm);
    ("plot_correlation_heatmap", _plot_correlation_heatmap env llm);
    ("generate_caption_for_heatmap", _generate_caption env llm) ].

(** Since the trace was [t0], the engine has started nodes only on inputs
    that satisfy [Q]. *)
Definition handed_only (t0 : list (string * AgentState))
    (Q : string * AgentState → Prop) (w : World) : Prop :=
  ∃ added, trace w = t0 ++ added ∧ Forall Q added.

(** The state carries the empty plot context. *)
Definition context_empty (p : string * AgentState) : Prop :=
  current_plot_context p.2 = Some ∅.

(** [content] is what the chat model replied to one of the prompts sent so
    far. *)
Definition replied (env : Env) (llm : LLM) (w : World) (content : string) : Prop :=
  ∃ i prompt, llm_calls w !! i = Some prompt ∧ llm_invoke env llm i prompt = inr content.

(** [v] is such a reply with the surrounding white space removed. *)
Definition trimmed_reply (env : Env) (llm : LLM) (w : World) (v : string) : Prop :=
  ∃ content, replied env llm w content ∧ v = strip content.

(** The record has a caption, under ["description"] (the records of the
    plot steps) or ["caption"] (the entries of the caption generator), and
    what is stored under these keys is a trimmed reply of the chat model. *)
Definition captioned (env : Env) (llm : LLM) (w : World) (d : Dict) : Prop :=
  (is_Some (d !! "description") ∨ is_Some (d !! "caption"))
  ∧ ∀ key v, key = "description" ∨ key = "caption" →
             d !! key = Some v → trimmed_reply env llm w v.

(** Every record of every list object is captioned. *)
Definition heap_captioned (env : Env) (llm : LLM) (w : World) : Prop :=
  ∀ xs d, xs ∈ heap w → d ∈ xs → captioned env llm w d.

(** The record has a caption that is not the empty string. *)
Definition caption_nonempty (d : Dict) : Prop :=
  ∃ v, (d !! "description" = Some v ∨ d !! "caption" = Some v) ∧ v ≠ "".

(** The heap and the files on disk are [h] and [f]. *)
Definition heap_and_files (h : list (list Dict)) (f : gset string) (w : World) : Prop :=
  heap w = h ∧ files w = f.

(** The retriever [get_retriever] returns for a pipeline. *)
Definition retriever_of (self : RAGPipeline) : Retriever :=
  mkRetriever (chroma_db_path self) (embedding_model self) 5.

(** The vector store of the pipeline is there, or can be built. *)
Definition store_available (env : Env) (self : RAGPipeline) (w : World) : Prop :=
  store_exists self w
  ∨ ((∃ docs, csv_loader env (data_source self) = inr docs)
     ∧ ∀ chunks, chroma_from_documents env chunks (embedding_model self)
                   (chroma_db_path self) = None).

End Spec.

Export Spec.

(** ** Concrete collaborators and worlds, for examples *)

Module Scenarios.

Definition groq : LLM := ChatGroq "llama-3.1-8b-instant" 1.

(** [age,city,signup_date] with two rows. *)
Definition people : DataFrame :=
  mkFrame [ mkColumn "age" int64 ["31"; "45"];
            mkColumn "city" object_ ["Oslo"; "Rome"];
            mkColumn "signup_date" object_ ["2021-01-02"; "2022-03-04"] ] 2.

(** [age,active]: the second column holds [True]/[False], which
    [read_csv] reads as booleans. *)
Definition flags : DataFrame :=
  mkFrame [ mkColumn "age" int64 ["31"; "45"];
            mkColumn "active" bool_ ["True"; "False"] ] 2.

(** No rows and no columns. *)
Definition nothing : DataFrame := mkFrame [] 0.

(** Timestamps are recognised by their shape [dddd-dd-dd]. *)
Definition looks_like_date (s : string) : bool :=
  bool_decide (String.length s = 10)
  && bool_decide (String.substring 4 1 s = "-")
  && bool_decide (String.substring 7 1 s = "-").

(** Collaborators that all work: every path but ["missing.csv"] loads the
    frame [df], the vector store builds and opens, the chat model answers. *)
Definition env_with (df : DataFrame) (answer : string)
    (build : option exn) : Env := {|
  read_csv p :=
    if bool_decide (p = "missing.csv")
    then inl (Raised FileNotFoundError "No such file or directory: 'missing.csv'")
    else inr df;
  to_datetime c :=
    if forallb looks_like_date (col_cells c) then None
    else Some (Raised ValueError "Unknown datetime string format");
  memory_usage_kb df := if bool_decide (df_columns df = []) then "0.00 KB" else "0.45 KB";
  format_list l := "['" +:+ join "', '" l +:+ "']";
  requests_get _ := None;
  csv_loader _ := inr [mkDocument "Technique: histogram"];
  split_documents _ _ docs := docs;
  chroma_from_documents _ _ _ := build;
  chroma_open _ _ := None;
  retriever_invoke _ _ := inr [mkDocument "Technique: histogram"];
  llm_invoke _ _ _ := inr answer;
  draw_hist_box _ _ := None;
  draw_countplot _ _ := None;
  draw_heatmap _ _ := None;
  makedirs _ := None;
  savefig _ := None;
|}.

Definition demo_env : Env :=
  env_with people " Ages cluster around forty. " None.

(** The chat model answers with white space only. *)
Definition blank_env : Env := env_with people "  " None.

Definition flags_env : Env := env_with flags "Most users are active." None.

Definition nothing_env : Env := env_with nothing "Nothing to plot." None.

(** The embedding service cannot be reached while the store is built. *)
Definition unreachable : exn :=
  Raised ConnectionError "HTTPConnectionPool(host='localhost', port=11434): Max retries exceeded".
Definition offline_env : Env := env_with people "" (Some unreachable).

(** The embedding model has not been pulled. *)
Definition model_absent : exn :=
  Raised ValueError
    "Ollama call failed with status code 404. Details: model 'nomic-embed-text' not found, try pulling it first".
Definition no_model_env : Env := env_with people "" (Some model_absent).

(** The data file is there but cannot be opened. *)
Definition denied : exn := Raised PermissionError "Permission denied: 'data.csv'".
Definition locked_env : Env := {|
  read_csv _ := inl denied;
  to_datetime := to_datetime demo_env;
  memory_usage_kb := memory_usage_kb demo_env;
  format_list := format_list demo_env;
  requests_get := requests_get demo_env;
  csv_loader := csv_loader demo_env;
  split_documents := split_documents demo_env;
  chroma_from_documents := chroma_from_documents demo_env;
  chroma_open := chroma_open demo_env;
  retriever_invoke := retriever_invoke demo_env;
  llm_invoke := llm_invoke demo_env;
  draw_hist_box := draw_hist_box demo_env;
  draw_countplot := draw_countplot demo_env;
  draw_heatmap := draw_heatmap demo_env;
  makedirs := makedirs demo_env;
  savefig := savefig demo_env;
|}.

(** A disk with the data file and no vector store. *)
Definition fresh_world : World := mkWorld {["data.csv"]} ∅ [] [] [] [] [].

(** A disk with the data file and a vector store built earlier. *)
Definition indexed_world : World := mkWorld {["data.csv"]} {["chroma_db"]} [] [] [] [] [].

(** A state as the engine hands it to the plot steps. *)
Definition plot_state (numerical categorical : list string) : AgentState :=
  mkState (Some "data.csv") None (Some numerical) (Some categorical) (Some [])
          (Some (mkRetriever "chroma_db" "nomic-embed-text" 5)) (Some []) (Some 0) (Some ∅).

(** A world in which the list of visualizations is the object [0]. *)
Definition plot_world : World := mkWorld {["data.csv"]} {["chroma_db"]} [[]] [] [] [] [].

End Scenarios.

Export Scenarios.

(** ** More of the Python library: suffixes, case, splitting, paths *)

Module PyMore.

(** [s.endswith(suffix)]: some tail of [s] is [suffix]. *)
Fixpoint endswith (s suffix : string) : bool :=
  bool_decide (s = suffix)
  || match s with
     | EmptyString => false
     | String _ s' => endswith s' suffix
     end.

(** [s.startswith(prefix)] *)
Definition startswith (s prefix : string) : bool := String.prefix prefix s.

(** [c in s] for a single character. *)
Fixpoint has_char (c : Ascii.ascii) (s : string) : bool :=
  match s with
  | EmptyString => false
  | String c' s' => bool_decide (c' = c) || has_char c s'
  end.

(** [str.lower] on a character: the letters [A]..[Z] move to [a]..[z]. *)
Definition lower_char (c : Ascii.ascii) : Ascii.ascii :=
  let n := Ascii.nat_of_ascii c in
  if Nat.leb 65 n && Nat.leb n 90 then Ascii.ascii_of_nat (n + 32) else c.

(** [s.lower()] *)
Fixpoint lower (s : string) : string :=
  match s with
  | EmptyString => EmptyString
  | String c s' => String (lower_char c) (lower s')
  end.

(** The split of [s] at the last occurrence of [sep], if there is one. *)
Fixpoint split_last (sep : Ascii.ascii) (s : string) : option (string * string) :=
  match s with
  | EmptyString => None
  | String c s' =>
      match split_last sep s' with
      | Some (a, b) => Some (String c a, b)
      | None => if bool_decide (c = sep) then Some (EmptyString, s') else None
      end
  end.

(** [s.rsplit(sep, 1)] for a separator of one character. *)
Definition rsplit1 (sep : Ascii.ascii) (s : string) : list string :=
  match split_last sep s with
  | Some (a, b) => [a; b]
  | None => [s]
  end.

(** The dot. *)
Definition dot : Ascii.ascii := Ascii.ascii_of_nat 46.

(** [os.path.join(a, b)] as [posixpath] defines it. *)
Definition os_path_join (a b : string) : string :=
  if startswith b "/" then b
  else if bool_decide (a = "") || endswith a "/" then a +:+ b
  else a +:+ "/" +:+ b.

End PyMore.

Export PyMore.

(** ** The rest of [src/utils.py] *)

Module helpers.

(** What these helpers need from outside the repository. *)
Record Platform : Type := mkPlatform {
  listdir : string → exn + list string;       (* os.listdir *)
  chat_model : LLM → option exn;              (* ChatGroq(...), ChatOllama(...) *)
  to_csv : DataFrame → string → option exn;   (* df.to_csv(path, index=False) *)
}.

(** The [for] loop of [get_file_path]. *)
Fixpoint first_csv (folder : string) (names : list string) : option string :=
  match names with
  | [] => None
  | file :: rest =>
      if endswith file ".csv" then Some (os_path_join folder file)
      else first_csv folder rest
  end.

(** [get_file_path(folder='data')] *)
Definition get_file_path (host : Platform) (folder : string) : M (option string) :=
  try_except
    (names ← lift (listdir host folder);
     mret (first_csv folder names))
    (λ e, raise (CustomException e)).

(** [get_llm(llm_type)] *)
Definition get_llm (host : Platform) (llm_type : string) : M (option LLM) :=
  try_except
    (if bool_decide (llm_type = "Groq") || bool_decide (llm_type = "groq") then
       let llm := ChatGroq "llama-3.1-8b-instant" 1 in
       check (chat_model host llm);;
       mret (Some llm)
     else if bool_decide (llm_type = "Ollama") || bool_decide (llm_type = "ollama") then
       let llm := ChatOllama "qwen3:4b" 1 in
       check (chat_model host llm);;
       mret (Some llm)
     else mret None)
    (λ e, raise (CustomException e)).

(** [save_dataset(file, filename='dataset.csv')]; [file] is what
    [pd.read_csv] makes of the uploaded file. *)
Definition save_dataset (env : Env) (host : Platform) (file : exn + DataFrame)
    (filename : string) : M string :=
  let data_dir := "data" in
  os_makedirs env data_dir;;
  df ← lift file;
  let save_path := os_path_join data_dir filename in
  check (to_csv host df save_path);;
  add_file save_path;;
  mret save_path.

End helpers.

Export helpers.

(** ** [app.py]: the upload filter *)

Module app.

Definition ALLOWED_EXTENSIONS : gset string := {["csv"]}.

(** [allowed_file(filename)].  The subscript [[1]] raises [IndexError] on a
    list of one element. *)
Definition allowed_file (filename : string) : exn + bool :=
  if contains "." filename then
    match rsplit1 dot filename !! 1 with
    | Some extension => inr (bool_decide (lower extension ∈ ALLOWED_EXTENSIONS))
    | None => inl (Raised IndexError "list index out of range")
    end
  else inr false.

End app.

Export app.

(** ** Further notions *)

Module Notions.

(** The names [get_llm] knows. *)
Definition known_llm_types : list string := ["Groq"; "groq"; "Ollama"; "ollama"].

(** A path under [static/plots]. *)
Definition is_plot (p : string) : Prop := ∃ name, p = path_join plots_dir name.

(** Since the disk held the files [f0] and the directories [d0], files have
    only been added, all of them plots, and the only directories made are
    the plot directory and the vector store at [store]. *)
Definition only_plots_written (f0 d0 : gset string) (store : string) (w : World) : Prop :=
  f0 ⊆ files w
  ∧ (∀ p, p ∈ files w → p ∈ f0 ∨ is_plot p)
  ∧ d0 ⊆ dirs w
  ∧ (∀ p, p ∈ dirs w → p ∈ d0 ∨ p = plots_dir ∨ p = store).

(** The record the numerical step stores for a column and a reply. *)
Definition numerical_record (col content : string) : Dict :=
  visualization ("Distribution of " +:+ col) ("hist_box_" +:+ col +:+ ".png")
                (strip content).

(** The record the categorical step stores for a column and a reply. *)
Definition categorical_record (col content : string) : Dict :=
  visualization ("Frequency of " +:+ col) ("countplot_" +:+ col +:+ ".png")
                (strip content).

(** The record the correlation step stores for a reply. *)
Definition heatmap_record (content : string) : Dict :=
  visualization "Correlation Heatmap" "correlation_heatmap.png" (strip content).

(** The plot file of a numerical column, and of a categorical one. *)
Definition numerical_plot (col : string) : string :=
  path_join plots_dir ("hist_box_" +:+ col +:+ ".png").
Definition categorical_plot (col : string) : string :=
  path_join plots_dir ("countplot_" +:+ col +:+ ".png").

(** The renderer and the disk never fail. *)
Definition rendering_works (env : Env) : Prop :=
  (∀ df col, draw_hist_box env df col = None)
  ∧ (∀ df col, draw_countplot env df col = None)
  ∧ (∀ df cols, draw_heatmap env df cols = None)
  ∧ (∀ p, makedirs env p = None)
  ∧ (∀ p, savefig env p = None).

(** The chat model answers every prompt. *)
Definition llm_answers (env : Env) (llm : LLM) : Prop :=
  ∀ i prompt, ∃ content, llm_invoke env llm i prompt = inr content.

(** The retriever answers every query. *)
Definition retriever_answers (env : Env) : Prop :=
  ∀ r q, ∃ docs, retriever_invoke env r q = inr docs.

(** The prompts the plot steps send for a column, and for the heatmap. *)
Definition numerical_prompt (col : string) : string :=
  caption_prompt "Histogram and Box Plot" ("the numerical column '" +:+ col +:+ "'").
Definition categorical_prompt (col : string) : string :=
  caption_prompt "Bar Chart" ("the categorical column '" +:+ col +:+ "'").
Definition heatmap_prompt : string :=
  caption_prompt "Correlation Heatmap" "all numerical features".

(** The plot file of the heatmap. *)
Definition heatmap_plot : string := path_join plots_dir "correlation_heatmap.png".

(** Asked the prompts one after the other, the first of them as call
    number [n], the chat model gives the replies [contents]. *)
Fixpoint replies (env : Env) (llm : LLM) (n : nat) (prompts contents : list string)
    : Prop :=
  match prompts, contents with
  | [], [] => True
  | p :: ps, c :: cs => llm_invoke env llm n p = inr c ∧ replies env llm (S n) ps cs
  | _, _ => False
  end.

End Notions.

Export Notions.

(** ** More concrete collaborators *)

Module Scenarios2.

Definition demo_host : Platform := {|
  listdir folder :=
    if bool_decide (folder = "data") then inr ["notes.txt"; "sales.csv"; "b.csv"]
    else inl (Raised FileNotFoundError folder);
  chat_model _ := None;
  to_csv _ _ := None;
|}.

(** Two numerical columns and a categorical one. *)
Definition sales : DataFrame :=
  mkFrame [ mkColumn "price" float64 ["1.5"; "2.5"];
            mkColumn "units" int64 ["3"; "4"];
            mkColumn "region" object_ ["north"; "south"] ] 2.

Definition sales_env : Env := env_with sales " Prices rise with units. " None.

(** The chat model is out of order. *)
Definition llm_down : exn := Raised (OtherError "APIConnectionError") "Connection error.".
Definition mute_env : Env := {|
  read_csv := read_csv demo_env;
  to_datetime := to_datetime demo_env;
  memory_usage_kb := memory_usage_kb demo_env;
  format_list := format_list demo_env;
  requests_get := requests_get demo_env;
  csv_loader := csv_loader demo_env;
  split_documents := split_documents demo_env;
  chroma_from_documents := chroma_from_documents demo_env;
  chroma_open := chroma_open demo_env;
  retriever_invoke := retriever_invoke demo_env;
  llm_invoke _ _ _ := inl llm_down;
  draw_hist_box := draw_hist_box demo_env;
  draw_countplot := draw_countplot demo_env;
  draw_heatmap := draw_heatmap demo_env;
  makedirs := makedirs demo_env;
  savefig := savefig demo_env;
|}.

(** The retriever is out of order. *)
Definition store_down : exn := Raised (OtherError "InternalError") "hnsw index not found".
Definition no_retrieval_env : Env := {|
  read_csv := read_csv demo_env;
  to_datetime := to_datetime demo_env;
  memory_usage_kb := memory_usage_kb demo_env;
  format_list := format_list demo_env;
  requests_get := requests_get demo_env;
  csv_loader := csv_loader demo_env;
  split_documents := split_documents demo_env;
  chroma_from_documents := chroma_from_documents demo_env;
  chroma_open := chroma_open demo_env;
  retriever_invoke _ _ := inl store_down;
  llm_invoke := llm_invoke demo_env;
  draw_hist_box := draw_hist_box demo_env;
  draw_countplot := draw_countplot demo_env;
  draw_heatmap := draw_heatmap demo_env;
  makedirs := makedirs demo_env;
  savefig := savefig demo_env;
|}.

(** The knowledge base cannot be read. *)
Definition corpus_missing : exn :=
  Raised (OtherError "RuntimeError") "Error loading src/pipeline/eda_knowledge_base.csv".
Definition no_corpus_env : Env := {|
  read_csv := read_csv demo_env;
  to_datetime := to_datetime demo_env;
  memory_usage_kb := memory_usage_kb demo_env;
  format_list := format_list demo_env;
  requests_get := requests_get demo_env;
  csv_loader _ := inl corpus_missing;
  split_documents := split_documents demo_env;
  chroma_from_documents := chroma_from_documents demo_env;
  chroma_open := chroma_open demo_env;
  retriever_invoke := retriever_invoke demo_env;
  llm_invoke := llm_invoke demo_env;
  draw_hist_box := draw_hist_box demo_env;
  draw_countplot := draw_countplot demo_env;
  draw_heatmap := draw_heatmap demo_env;
  makedirs := makedirs demo_env;
  savefig := savefig demo_env;
|}.

(** The Ollama server does not answer. *)
Definition server_down : exn := Raised ConnectionError "Connection refused".
Definition no_server_env : Env := {|
  read_csv := read_csv demo_env;
  to_datetime := to_datetime demo_env;
  memory_usage_kb := memory_usage_kb demo_env;
  format_list := format_list demo_env;
  requests_get _ := Some server_down;
  csv_loader := csv_loader demo_env;
  split_documents := split_documents demo_env;
  chroma_from_documents := chroma_from_documents demo_env;
  chroma_open := chroma_open demo_env;
  retriever_invoke := retriever_invoke demo_env;
  llm_invoke := llm_invoke demo_env;
  draw_hist_box := draw_hist_box demo_env;
  draw_countplot := draw_countplot demo_env;
  draw_heatmap := draw_heatmap demo_env;
  makedirs := makedirs demo_env;
  savefig := savefig demo_env;
|}.

(** [pd.to_datetime] overflows on a column. *)
Definition overflow : exn := Raised (OtherError "OverflowError") "signed integer is greater than maximum".
Definition overflow_env : Env := {|
  read_csv := read_csv demo_env;
  to_datetime c := if bool_decide (col_name c = "city") then Some overflow
                   else to_datetime demo_env c;
  memory_usage_kb := memory_usage_kb demo_env;
  format_list := format_list demo_env;
  requests_get := requests_get demo_env;
  csv_loader := csv_loader demo_env;
  split_documents := split_documents demo_env;
  chroma_from_documents := chroma_from_documents demo_env;
  chroma_open := chroma_open demo_env;
  retriever_invoke := retriever_invoke demo_env;
  llm_invoke := llm_invoke demo_env;
  draw_hist_box := draw_hist_box demo_env;
  draw_countplot := draw_countplot demo_env;
  draw_heatmap := draw_heatmap demo_env;
  makedirs := makedirs demo_env;
  savefig := savefig demo_env;
|}.

(** The chat model answers its first prompt and fails from then on. *)
Definition tiring_env : Env := {|
  read_csv := read_csv sales_env;
  to_datetime := to_datetime sales_env;
  memory_usage_kb := memory_usage_kb sales_env;
  format_list := format_list sales_env;
  requests_get := requests_get sales_env;
  csv_loader := csv_loader sales_env;
  split_documents := split_documents sales_env;
  chroma_from_documents := chroma_from_documents sales_env;
  chroma_open := chroma_open sales_env;
  retriever_invoke := retriever_invoke sales_env;
  llm_invoke _ i _ := if bool_decide (i = 0) then inr "Prices peak early." else inl llm_down;
  draw_hist_box := draw_hist_box sales_env;
  draw_countplot := draw_countplot sales_env;
  draw_heatmap := draw_heatmap sales_env;
  makedirs := makedirs sales_env;
  savefig := savefig sales_env;
|}.

End Scenarios2.

Export Scenarios2.

(** * Properties *)

(** ** The monad *)

Section monad.

Context {A B : Type}.

Lemma bind_inr (m : M A) (k : A → M B) w w' a :
  m w = (w', inr a) → (m ≫= k) w = k a w'.
Proof. intros H. unfold mbind, M_bind. by rewrite H. Qed.

Lemma bind_inl (m : M A) (k : A → M B) w w' e :
  m w = (w', inl e) → (m ≫= k) w = (w', inl e).
Proof. intros H. unfold mbind, M_bind. by rewrite H. Qed.

Lemma try_inr (m : M A) (h : exn → M A) w w' a :
  m w = (w', inr a) → try_except m h w = (w', inr a).
Proof. intros H. unfold try_except. by rewrite H. Qed.

Lemma try_inl (m : M A) (h : exn → M A) w w' e :
  m w = (w', inl e) → try_except m h w = h e w'.
Proof. intros H. unfold try_except. by rewrite H. Qed.

Lemma stable_bind I (m : M A) (k : A → M B) :
  stable I m → (∀ a, stable I (k a)) → stable I (m ≫= k).
Proof.
  intros Hm Hk w Hw. specialize (Hm w Hw).
  unfold mbind, M_bind. destruct (m w) as [w' [e|a]]; [done|].
  by apply Hk.
Qed.

Lemma stable_try I (m : M A) (h : exn → M A) :
  stable I m → (∀ e, stable I (h e)) → stable I (try_except m h).
Proof.
  intros Hm Hh w Hw. specialize (Hm w Hw).
  unfold try_except. destruct (m w) as [w' [e|a]]; [|done].
  by apply Hh.
Qed.

Lemma silent_stable I (m : M A) : silent m → stable I m.
Proof. intros Hm w Hw. by rewrite Hm. Qed.

Lemma returns_bind (Q : B → Prop) (m : M A) (k : A → M B) :
  (∀ a, returns Q (k a)) → returns Q (m ≫= k).
Proof.
  intros Hk w b. unfold mbind, M_bind.
  destruct (m w) as [w' [e|a]]; [done|]. apply Hk.
Qed.

Lemma returns_try (Q : A → Prop) (m : M A) (h : exn → M A) :
  returns Q m → (∀ e, returns Q (h e)) → returns Q (try_except m h).
Proof.
  intros Hm Hh w a. unfold try_except.
  destruct (m w) as [w' [e|a']] eqn:E.
  - apply Hh.
  - intros [= <-]. apply (Hm w). by rewrite E.
Qed.

Lemma returns_ret (Q : A → Prop) (a : A) : Q a → returns Q (mret a).
Proof. by intros H w a' [= <-]. Qed.

Lemma returns_raise (Q : A → Prop) e : returns Q (raise e).
Proof. by intros w a. Qed.

End monad.

Lemma silent_ret {A} (a : A) : silent (mret a : M A).
Proof. done. Qed.

Lemma silent_raise {A} e : silent (raise e : M A).
Proof. done. Qed.

Lemma silent_lift {A} (r : exn + A) : silent (lift r).
Proof. done. Qed.

Lemma silent_check r : silent (check r).
Proof. by destruct r. Qed.

Lemma silent_subscript {A} key (v : option A) : silent (subscript key v).
Proof. by destruct v. Qed.

Lemma silent_first {A} (l : list A) : silent (first l).
Proof. by destruct l. Qed.

Lemma silent_deref l : silent (deref l).
Proof. done. Qed.

Lemma silent_bind {A B} (m : M A) (k : A → M B) :
  silent m → (∀ a, silent (k a)) → silent (m ≫= k).
Proof.
  intros Hm Hk w. specialize (Hm w). unfold mbind, M_bind.
  destruct (m w) as [w' [e|a]]; simpl in *; [done|].
  subst w'. apply Hk.
Qed.

Lemma silent_try {A} (m : M A) (h : exn → M A) :
  silent m → (∀ e, silent (h e)) → silent (try_except m h).
Proof.
  intros Hm Hh w. specialize (Hm w). unfold try_except.
  destruct (m w) as [w' [e|a]]; simpl in *; [|done].
  subst w'. apply Hh.
Qed.

Lemma silent_get_dataset env path : silent (get_dataset env path).
Proof. apply silent_try; [apply silent_lift | intros; apply silent_raise]. Qed.

Lemma silent_getitem df col : silent (getitem df col).
Proof. unfold getitem. by destruct (List.find _ _). Qed.

(** ** The caption generator without a context *)

Lemma generate_caption_no_context env llm st w :
  no_context st → _generate_caption env llm st w = (w, inr empty_dict).
Proof. intros [H|H]; unfold _generate_caption; by rewrite H. Qed.

Lemma apply_update_empty st w : apply_update st empty_dict w = (w, inr st).
Proof. by destruct st. Qed.

(** C6.  Called without a pending plot context (the key is missing or holds
    the empty dictionary), the caption generator returns the empty update
    and leaves the world as it found it: no prompt is sent to the chat
    model, nothing is printed and no list is created; merging the empty
    update gives the state back unchanged. *)
Theorem caption_generator_idle_without_context env llm st w :
  no_context st →
  _generate_caption env llm st w = (w, inr empty_dict)
  ∧ llm_calls (_generate_caption env llm st w).1 = llm_calls w
  ∧ apply_update st empty_dict w = (w, inr st).
Proof.
  intros H. rewrite (generate_caption_no_context _ _ _ _ H).
  split_and!; [done | done | apply apply_update_empty].
Qed.

Lemma caption_generator_idle_without_context_witness :
  no_context (plot_state ["age"] ["city"])
  ∧ _generate_caption demo_env groq (plot_state ["age"] ["city"]) plot_world
    = (plot_world, inr empty_dict).
Proof.
  split; [by right |].
  apply (caption_generator_idle_without_context demo_env groq
           (plot_state ["age"] ["city"]) plot_world).
  by right.
Defined.

(** ** Path validation in [run] *)

Lemma run_not_a_file env self path tc w :
  path ∉ files w →
  run env self path tc w = (w, inl (Raised FileNotFoundError (not_a_file_msg path))).
Proof.
  intros H. unfold run.
  erewrite bind_inr; last first.
  { unfold os_path_isfile. by rewrite bool_decide_eq_false_2. }
  done.
Qed.

Lemma get_dataset_inl env path e w :
  read_csv env path = inl e → get_dataset env path w = (w, inl (CustomException e)).
Proof. intros H. unfold get_dataset, try_except, lift. by rewrite H. Qed.

Lemma get_dataset_inr env path df w :
  read_csv env path = inr df → get_dataset env path w = (w, inr df).
Proof. intros H. unfold get_dataset, try_except, lift. by rewrite H. Qed.

Lemma run_unreadable env self path tc w e :
  path ∈ files w → read_csv env path = inl e →
  run env self path tc w = (w, inl (CustomException e)).
Proof.
  intros Hf He. unfold run.
  erewrite bind_inr; last first.
  { unfold os_path_isfile. by rewrite bool_decide_eq_true_2. }
  simpl. erewrite bind_inl; [done|]. by apply get_dataset_inl.
Qed.

(** C4, as amended.  [run] checks that the path is a regular file and
    nothing more.  If it is not, [run] raises [FileNotFoundError] with the
    world untouched: no dataset has been loaded, no vector store opened, no
    model called and no plot written.  A file that exists but cannot be
    loaded passes the check and fails in the loader, with the loader's error
    wrapped in [CustomException]; the world is untouched then as well. *)
Theorem run_validates_path env self path tc w :
  (path ∉ files w →
   run env self path tc w = (w, inl (Raised FileNotFoundError (not_a_file_msg path))))
  ∧ (∀ e, path ∈ files w → read_csv env path = inl e →
     run env self path tc w = (w, inl (CustomException e))).
Proof. split; [apply run_not_a_file | intros e; apply run_unreadable]. Qed.

Lemma run_validates_path_witness :
  (("missing.csv" ∉ files fresh_world)
   ∧ run demo_env (agent_of demo_env groq) "missing.csv" None fresh_world
     = (fresh_world, inl (Raised FileNotFoundError (not_a_file_msg "missing.csv"))))
  ∧ ("data.csv" ∈ files fresh_world
     ∧ read_csv locked_env "data.csv" = inl denied
     ∧ run locked_env (agent_of locked_env groq) "data.csv" None fresh_world
       = (fresh_world, inl (CustomException denied))).
Proof.
  split.
  - split; [by vm_compute |].
    apply (run_validates_path demo_env (agent_of demo_env groq) "missing.csv" None fresh_world).
    by vm_compute.
  - split; [by vm_compute |]. split; [reflexivity |].
    apply (run_validates_path locked_env (agent_of locked_env groq) "data.csv" None fresh_world).
    + by vm_compute.
    + reflexivity.
Defined.

(** C4, as stated, fails: a data file that exists but cannot be opened is
    not a readable file, yet [run] does not answer with [FileNotFoundError]. *)
Lemma run_unreadable_file_not_rejected :
  ¬ rejects_unreadable_paths locked_env (agent_of locked_env groq) fresh_world.
Proof.
  intros H. destruct (H "data.csv" None) as [msg Hmsg].
  - intros [_ [df Hdf]]. discriminate Hdf.
  - rewrite (run_unreadable _ _ _ _ _ denied) in Hmsg; [discriminate | by vm_compute | done].
Qed.

(** ** One call of the caption generator on a plot *)

Arguments String.append : simpl never.
Arguments caption_prompt : simpl never.
Arguments synthesis_prompt : simpl never.
Arguments repeat : simpl never.

Lemma plot_context_not_empty t d : plot_context t d ≠ ∅.
Proof. apply insert_non_empty. Qed.

Lemma plot_context_type t d : plot_context t d !! "plot_type" = Some t.
Proof. apply lookup_insert_eq. Qed.

Lemma plot_context_details t d : plot_context t d !! "details" = Some d.
Proof. unfold plot_context. by simplify_map_eq. Qed.

Lemma entry_caption (t d c : string) :
  ({[ "plot_type" := t; "details" := d; "caption" := c ]} : Dict) !! "caption" = Some c.
Proof. by simplify_map_eq. Qed.

Lemma visualization_description t p d : visualization t p d !! "description" = Some d.
Proof. unfold visualization. by simplify_map_eq. Qed.

(** The entry the generator builds from a reply. *)
Lemma generate_caption_plot env llm t d w content :
  llm_invoke env llm (length (llm_calls w)) (caption_prompt t d) = inr content →
  ∃ w',
    _generate_caption env llm (dict_context (plot_context t d)) w
      = (w', inr (dict_caption (length (heap w)) ∅))
    ∧ heap w' = heap w ++ [[ {[ "plot_type" := t; "details" := d;
                                "caption" := strip content ]} ]]
    ∧ files w' = files w ∧ dirs w' = dirs w
    ∧ llm_calls w' = llm_calls w ++ [caption_prompt t d]
    ∧ trace w' = trace w ∧ index_builds w' = index_builds w.
Proof.
  intros H. unfold _generate_caption, dict_context.
  cbn [current_plot_context default from_option id].
  rewrite bool_decide_eq_false_2 by apply plot_context_not_empty.
  rewrite plot_context_type, plot_context_details. cbn [default from_option id].
  unfold mbind, M_bind, print, llm_content, alloc. simpl. rewrite H.
  eexists. split; [reflexivity|]. done.
Qed.

Lemma caption_of_entry w l c (entry : Dict) rest caption :
  heap w !! l = Some (entry :: rest) → entry !! "caption" = Some caption →
  caption_of (dict_caption l c) w = (w, inr caption).
Proof.
  intros Hl Hc. unfold caption_of, dict_caption. cbn [visualizations].
  erewrite bind_inr by reflexivity.
  erewrite bind_inr by (unfold deref; rewrite Hl; reflexivity).
  erewrite bind_inr by reflexivity.
  by rewrite Hc.
Qed.

(** One pass of the loop over the numerical columns, when the renderer, the
    disk and the chat model all do their part. *)
Lemma plot_numerical_column_ok env llm st df col w l xs content :
  draw_hist_box env df col = None →
  makedirs env plots_dir = None →
  savefig env (path_join plots_dir ("hist_box_" +:+ col +:+ ".png")) = None →
  llm_invoke env llm (length (llm_calls w))
    (caption_prompt "Histogram and Box Plot" ("the numerical column '" +:+ col +:+ "'"))
    = inr content →
  visualizations st = Some l →
  heap w !! l = Some xs →
  ∃ w',
    plot_numerical_column env llm st df col w = (w', inr tt)
    ∧ heap w' !! l
      = Some (xs ++ [visualization ("Distribution of " +:+ col)
                                   ("hist_box_" +:+ col +:+ ".png") (strip content)])
    ∧ files w' = {[path_join plots_dir ("hist_box_" +:+ col +:+ ".png")]} ∪ files w
    ∧ length (llm_calls w') = S (length (llm_calls w)).
Proof.
  intros Hdraw Hmk Hsave Hllm Hviz Hl.
  unfold plot_numerical_column, os_makedirs, fig_savefig.
  rewrite Hdraw, Hmk, Hsave.
  set (w2 := set_files (λ f, {[path_join plots_dir ("hist_box_" +:+ col +:+ ".png")]} ∪ f)
               (set_dirs (λ d, {[plots_dir]} ∪ d) w)).
  destruct (generate_caption_plot env llm "Histogram and Box Plot"
              ("the numerical column '" +:+ col +:+ "'") w2 content Hllm)
    as (w3 & E & Hheap & Hfiles & _ & Hcalls & _).
  change (heap w2) with (heap w) in *. change (files w2) with
    ({[path_join plots_dir ("hist_box_" +:+ col +:+ ".png")]} ∪ files w) in *.
  change (llm_calls w2) with (llm_calls w) in *.
  assert (Hcap : caption_of (dict_caption (length (heap w)) ∅) w3 = (w3, inr (strip content))).
  { eapply caption_of_entry; [|apply entry_caption].
    rewrite Hheap. apply list_lookup_middle. done. }
  eexists. split.
  { unfold mbind at 1, M_bind at 1. simpl (check None w). cbv beta iota.
    do 2 (unfold mbind at 1, M_bind at 1; simpl; cbv beta iota).
    fold w2. erewrite bind_inr by exact E.
    erewrite bind_inr by exact Hcap.
    rewrite Hviz. simpl. reflexivity. }
  simpl. rewrite Hheap, Hfiles, Hcalls. split_and!; [|done|].
  - rewrite list_lookup_alter_eq, lookup_app_l by (by eapply lookup_lt_Some).
    by rewrite Hl.
  - rewrite length_app. simpl. lia.
Qed.

(** ** The plot steps on short column lists *)

Lemma plot_numerical_nothing env llm st w path df :
  file_path st = Some path → read_csv env path = inr df →
  numerical_cols st = Some [] →
  _plot_univariate_numerical env llm st w = (w, inr (dict_context ∅)).
Proof.
  intros Hp Hdf Hc. unfold _plot_univariate_numerical. rewrite Hp, Hc.
  erewrite bind_inr by reflexivity.
  erewrite bind_inr by (by apply get_dataset_inr).
  reflexivity.
Qed.

Lemma plot_categorical_nothing env llm st w path df :
  file_path st = Some path → read_csv env path = inr df →
  categorical_cols st = Some [] →
  _plot_univariate_categorical env llm st w = (w, inr empty_dict).
Proof.
  intros Hp Hdf Hc. unfold _plot_univariate_categorical. rewrite Hp, Hc.
  erewrite bind_inr by reflexivity.
  erewrite bind_inr by (by apply get_dataset_inr).
  reflexivity.
Qed.

Lemma plot_correlation_nothing env llm st w path df cols :
  file_path st = Some path → read_csv env path = inr df →
  numerical_cols st = Some cols → length cols < 2 →
  _plot_correlation_heatmap env llm st w = (w, inr empty_dict).
Proof.
  intros Hp Hdf Hc Hlen. unfold _plot_correlation_heatmap. rewrite Hp, Hc.
  erewrite bind_inr by reflexivity.
  erewrite bind_inr by (by apply get_dataset_inr).
  erewrite bind_inr by reflexivity.
  by rewrite bool_decide_eq_true_2.
Qed.

Lemma plot_numerical_single env llm st w path df col l xs content :
  file_path st = Some path → read_csv env path = inr df →
  numerical_cols st = Some [col] →
  visualizations st = Some l → heap w !! l = Some xs →
  draw_hist_box env df col = None →
  makedirs env plots_dir = None →
  savefig env (path_join plots_dir ("hist_box_" +:+ col +:+ ".png")) = None →
  llm_invoke env llm (length (llm_calls w))
    (caption_prompt "Histogram and Box Plot" ("the numerical column '" +:+ col +:+ "'"))
    = inr content →
  ∃ w',
    _plot_univariate_numerical env llm st w = (w', inr empty_dict)
    ∧ heap w' !! l
      = Some (xs ++ [visualization ("Distribution of " +:+ col)
                                   ("hist_box_" +:+ col +:+ ".png") (strip content)])
    ∧ files w' = {[path_join plots_dir ("hist_box_" +:+ col +:+ ".png")]} ∪ files w.
Proof.
  intros Hp Hdf Hc Hviz Hl Hdraw Hmk Hsave Hllm.
  destruct (plot_numerical_column_ok env llm st df col w l xs content)
    as (w' & E & Hheap & Hfiles & _); try done.
  exists w'. split; [|done].
  unfold _plot_univariate_numerical. rewrite Hp, Hc.
  erewrite bind_inr by reflexivity.
  erewrite bind_inr by (by apply get_dataset_inr).
  erewrite bind_inr by reflexivity.
  cbn [for_each]. erewrite bind_inr; [reflexivity|].
  erewrite bind_inr by exact E. reflexivity.
Qed.

(** C5.  Take a workflow state whose dataset loads.
    - With an empty list of numerical columns, the numerical step and the
      correlation step return without an error and leave the world as it
      was: nothing is appended, nothing is written.
    - With exactly one numerical column, the correlation step does the
      same, while the numerical step, when the renderer, the disk and the
      chat model do their part, appends one record to the list of
      visualizations.
    - With an empty list of categorical columns, the categorical step
      returns without an error and leaves the world as it was. *)
Theorem plot_steps_on_short_lists env llm st w path df :
  file_path st = Some path →
  read_csv env path = inr df →
  (numerical_cols st = Some [] →
     _plot_univariate_numerical env llm st w = (w, inr (dict_context ∅))
     ∧ _plot_correlation_heatmap env llm st w = (w, inr empty_dict))
  ∧ (∀ col, numerical_cols st = Some [col] →
       _plot_correlation_heatmap env llm st w = (w, inr empty_dict)
       ∧ ∀ l xs content,
           visualizations st = Some l → heap w !! l = Some xs →
           draw_hist_box env df col = None →
           makedirs env plots_dir = None →
           savefig env (path_join plots_dir ("hist_box_" +:+ col +:+ ".png")) = None →
           llm_invoke env llm (length (llm_calls w))
             (caption_prompt "Histogram and Box Plot"
                             ("the numerical column '" +:+ col +:+ "'"))
             = inr content →
           ∃ w',
             _plot_univariate_numerical env llm st w = (w', inr empty_dict)
             ∧ heap w' !! l
               = Some (xs ++ [visualization ("Distribution of " +:+ col)
                                ("hist_box_" +:+ col +:+ ".png") (strip content)]))
  ∧ (categorical_cols st = Some [] →
       _plot_univariate_categorical env llm st w = (w, inr empty_dict)).
Proof.
  intros Hp Hdf. split_and!.
  - intros Hc. split.
    + by eapply plot_numerical_nothing.
    + eapply plot_correlation_nothing; eauto.
  - intros col Hc. split.
    + eapply plot_correlation_nothing; eauto.
    + intros l xs content Hviz Hl Hdraw Hmk Hsave Hllm.
      destruct (plot_numerical_single env llm st w path df col l xs content)
        as (w' & E & Hheap & _); try done.
      by exists w'.
  - intros Hc. by eapply plot_categorical_nothing.
Qed.

Lemma plot_steps_on_short_lists_witness :
  file_path (plot_state ["age"] []) = Some "data.csv"
  ∧ read_csv demo_env "data.csv" = inr people
  ∧ _plot_univariate_categorical demo_env groq (plot_state ["age"] []) plot_world
    = (plot_world, inr empty_dict)
  ∧ _plot_correlation_heatmap demo_env groq (plot_state ["age"] []) plot_world
    = (plot_world, inr empty_dict)
  ∧ ∃ w',
      _plot_univariate_numerical demo_env groq (plot_state ["age"] []) plot_world
      = (w', inr empty_dict)
      ∧ heap w' !! 0
        = Some ([] ++ [visualization ("Distribution of " +:+ "age")
                         ("hist_box_" +:+ "age" +:+ ".png")
                         (strip " Ages cluster around forty. ")]).
Proof.
  destruct (plot_steps_on_short_lists demo_env groq (plot_state ["age"] []) plot_world
              "data.csv" people eq_refl eq_refl) as (_ & Hone & Hcat).
  destruct (Hone "age" eq_refl) as [Hcorr Hnum].
  split_and!; [reflexivity | reflexivity | exact (Hcat eq_refl) | exact Hcorr |].
  exact (Hnum 0 [] " Ages cluster around forty. "
           eq_refl eq_refl eq_refl eq_refl eq_refl eq_refl).
Defined.

(** ** What the code leaves alone

    An invariant that is indifferent to the parts of the world a function
    writes is kept by that function, whether it returns or raises. *)

Ltac silent_step :=
  lazymatch goal with
  | |- silent (mbind _ _) => apply silent_bind; [|intros]
  | |- silent (try_except _ _) => apply silent_try; [|intros]
  | |- silent (mret _) => apply silent_ret
  | |- silent (raise _) => apply silent_raise
  | |- silent (lift _) => apply silent_lift
  | |- silent (check _) => apply silent_check
  | |- silent (subscript _ _) => apply silent_subscript
  | |- silent (first _) => apply silent_first
  | |- silent (deref _) => apply silent_deref
  | |- silent (get_dataset _ _) => apply silent_get_dataset
  | |- silent (getitem _ _) => apply silent_getitem
  | |- silent (match ?x with _ => _ end) => destruct x
  | |- silent _ => solve [eauto]
  end.

Lemma silent_datetime_loop env df cols acc : silent (datetime_loop env df cols acc).
Proof. revert acc. induction cols as [|c cs IH]; intros acc; simpl; repeat silent_step. Qed.

(** Profiling only reads. *)
Lemma silent_profile env st : silent (_profile_data_for_plotting env st).
Proof.
  unfold _profile_data_for_plotting. repeat silent_step. apply silent_datetime_loop.
Qed.

Lemma silent_caption_of cs : silent (caption_of cs).
Proof. unfold caption_of. repeat silent_step. Qed.

Create HintDb stable.

Ltac stable_step :=
  lazymatch goal with
  | |- stable _ (mbind _ _) => apply stable_bind; [|intros]
  | |- stable _ (try_except _ _) => apply stable_try; [|intros]
  | |- stable _ (mret _) => apply silent_stable, silent_ret
  | |- stable _ (raise _) => apply silent_stable, silent_raise
  | |- stable _ (lift _) => apply silent_stable, silent_lift
  | |- stable _ (check _) => apply silent_stable, silent_check
  | |- stable _ (subscript _ _) => apply silent_stable, silent_subscript
  | |- stable _ (first _) => apply silent_stable, silent_first
  | |- stable _ (deref _) => apply silent_stable, silent_deref
  | |- stable _ (get_dataset _ _) => apply silent_stable, silent_get_dataset
  | |- stable _ (getitem _ _) => apply silent_stable, silent_getitem
  | |- stable _ (os_path_isfile _) => by apply silent_stable
  | |- stable _ (os_path_exists _) => by apply silent_stable
  | |- stable _ (match ?x with _ => _ end) => destruct x
  | |- stable _ _ => solve [eauto with stable]
  end.

Ltac stable_auto := repeat stable_step.

Section frame.

Variable I : World → Prop.
Variable env : Env.
Variable llm : LLM.

Lemma stable_print s : ignores_stdout I → stable I (print s).
Proof. intros H w Hw. by apply H. Qed.

Lemma stable_llm_content prompt :
  ignores_new_llm_calls I → stable I (llm_content env llm prompt).
Proof. intros H w Hw. by apply H. Qed.

Lemma stable_alloc xs : ignores_heap I → stable I (alloc xs).
Proof. intros H w Hw. by apply H. Qed.

Lemma stable_list_append l x : ignores_heap I → stable I (list_append l x).
Proof. intros H w Hw. by apply H. Qed.

Lemma stable_add_dir p : ignores_new_dirs I → stable I (add_dir p).
Proof. intros H w Hw. by apply H. Qed.

Lemma stable_add_file p : ignores_new_files I → stable I (add_file p).
Proof. intros H w Hw. by apply H. Qed.

Lemma stable_enter name st : ignores_trace I → stable I (enter name st).
Proof. intros H w Hw. by apply H. Qed.

Lemma stable_note_build p : ignores_index_builds I → stable I (note_build p).
Proof. intros H w Hw. by apply H. Qed.

Hint Resolve stable_print stable_llm_content stable_alloc stable_list_append
  stable_add_dir stable_add_file stable_enter stable_note_build : stable.

Lemma stable_os_makedirs p : ignores_new_dirs I → stable I (os_makedirs env p).
Proof. intros. unfold os_makedirs. stable_auto. Qed.

Lemma stable_fig_savefig p : ignores_new_files I → stable I (fig_savefig env p).
Proof. intros. unfold fig_savefig. stable_auto. Qed.

Hint Resolve stable_os_makedirs stable_fig_savefig : stable.

Lemma stable_for_each {A} (body : A → M unit) l :
  (∀ x, stable I (body x)) → stable I (for_each body l).
Proof. intros H. induction l; simpl; stable_auto; auto. Qed.

(** *** The pipeline *)

Lemma stable_build_vector_db self :
  ignores_stdout I → ignores_index_builds I → ignores_new_dirs I →
  stable I (_build_vector_db env self).
Proof.
  intros. unfold _build_vector_db, Chroma_from_documents. stable_auto.
Qed.

Lemma stable_get_retriever self :
  ignores_stdout I → ignores_index_builds I → ignores_new_dirs I →
  stable I (get_retriever env self).
Proof.
  intros. unfold get_retriever. stable_auto.
  by apply stable_build_vector_db.
Qed.

(** *** The nodes *)

Lemma stable_check_ollama_connection url :
  ignores_stdout I → stable I (_check_ollama_connection env url).
Proof. intros. unfold _check_ollama_connection. stable_auto. Qed.

Lemma stable_profile st : stable I (_profile_data_for_plotting env st).
Proof. apply silent_stable, silent_profile. Qed.

Lemma stable_insights st :
  ignores_stdout I → ignores_new_llm_calls I →
  stable I (_get_contextual_insights env llm st).
Proof. intros. unfold _get_contextual_insights. stable_auto. Qed.

Lemma stable_generate_caption st :
  ignores_stdout I → ignores_new_llm_calls I → ignores_heap I →
  stable I (_generate_caption env llm st).
Proof. intros. unfold _generate_caption. stable_auto. Qed.

(** The plot steps write to the disk, and to the heap in two ways: through
    the caption generator, and by appending a record whose description
    [caption_of] has just read. *)
Section plots.

Hypothesis Hfiles : ignores_new_files I.
Hypothesis Hdirs : ignores_new_dirs I.
Hypothesis Hcaption : ∀ st, stable I (_generate_caption env llm st).
Hypothesis Hrecord :
  ∀ caption_state caption target title path w,
    I w → caption_of caption_state w = (w, inr caption) →
    I (set_heap (alter (λ xs, xs ++ [visualization title path caption]) target) w).

Lemma stable_record_then {B} caption_state target title path (k : M B) :
  stable I k →
  stable I (caption ← caption_of caption_state;
            target ← subscript "visualizations" target;
            list_append target (visualization title path caption);;
            k).
Proof.
  intros Hk w Hw. pose proof (silent_caption_of caption_state w) as Hs.
  unfold mbind at 1, M_bind at 1.
  destruct (caption_of caption_state w) as [w' [e|caption]] eqn:E;
    simpl in Hs; subst w'; [done|].
  destruct target as [l|]; [|done].
  erewrite bind_inr by reflexivity.
  erewrite bind_inr by reflexivity.
  apply Hk. by eapply Hrecord.
Qed.

Lemma stable_record caption_state target title path :
  stable I (caption ← caption_of caption_state;
            target ← subscript "visualizations" target;
            list_append target (visualization title path caption)).
Proof.
  intros w Hw. pose proof (silent_caption_of caption_state w) as Hs.
  unfold mbind at 1, M_bind at 1.
  destruct (caption_of caption_state w) as [w' [e|caption]] eqn:E;
    simpl in Hs; subst w'; [done|].
  destruct target as [l|]; [|done].
  erewrite bind_inr by reflexivity. by eapply Hrecord.
Qed.

Ltac plot_step :=
  lazymatch goal with
  | |- stable _ (mbind _ (caption_of _)) =>
      first [ apply stable_record
            | apply stable_record_then; apply silent_stable, silent_ret ]
  | |- _ => stable_step
  end.

Lemma stable_plot_numerical st :
  stable I (_plot_univariate_numerical env llm st).
Proof.
  unfold _plot_univariate_numerical. stable_auto.
  apply stable_for_each. intros col.
  unfold plot_numerical_column. repeat plot_step.
Qed.

Lemma stable_plot_categorical st :
  stable I (_plot_univariate_categorical env llm st).
Proof.
  unfold _plot_univariate_categorical. stable_auto.
  apply stable_for_each. intros col.
  unfold plot_categorical_column. repeat plot_step.
Qed.

Lemma stable_plot_correlation st :
  stable I (_plot_correlation_heatmap env llm st).
Proof. unfold _plot_correlation_heatmap. repeat plot_step. Qed.

(** Every node of the workflow keeps such an invariant. *)
Lemma stable_workflow_nodes name f st :
  ignores_stdout I → ignores_new_llm_calls I →
  find_node name (nodes (_build_graph env llm)) = Some f → stable I (f st).
Proof.
  intros Hout Hllm.
  cbn [_build_graph nodes add_node new_graph set_entry_point add_edge app find_node].
  repeat (case_bool_decide;
          [intros [= <-];
           first [ apply stable_profile | by apply stable_insights
                 | apply stable_plot_numerical | apply stable_plot_categorical
                 | apply stable_plot_correlation | by apply Hcaption ]
          |]).
  done.
Qed.

End plots.

(** An invariant that does not look at the heap. *)
Lemma stable_workflow_nodes_heap name f st :
  ignores_stdout I → ignores_new_llm_calls I → ignores_heap I →
  ignores_new_files I → ignores_new_dirs I →
  find_node name (nodes (_build_graph env llm)) = Some f → stable I (f st).
Proof.
  intros. eapply stable_workflow_nodes; eauto.
  intros. by apply stable_generate_caption.
Qed.

(** *** The engine *)

Lemma stable_apply_update st upd : ignores_heap I → stable I (apply_update st upd).
Proof. intros. unfold apply_update, add_objects. stable_auto. Qed.

Section engine.

Variable g : StateGraph.
Hypothesis Htrace : ignores_trace I.
Hypothesis Hupdate : ∀ st upd, stable I (apply_update st upd).
Hypothesis Hnodes :
  ∀ name f st, find_node name (nodes g) = Some f → stable I (f st).

Lemma stable_apply_updates st upds : stable I (apply_updates st upds).
Proof. revert st. induction upds; intros st; simpl; stable_auto. Qed.

Lemma stable_run_nodes active st : stable I (run_nodes g active st).
Proof.
  induction active as [|name rest IH]; simpl; [stable_auto|].
  destruct (find_node name (nodes g)) eqn:E; stable_auto; eauto.
Qed.

Lemma stable_rounds limit active st : stable I (rounds limit g active st).
Proof.
  revert active st. induction limit as [|k IH]; intros [|name rest] st;
    cbn [rounds]; stable_auto;
    first [ apply stable_run_nodes | apply stable_apply_updates | apply IH ].
Qed.

Lemma stable_invoke input : stable I (invoke g input).
Proof. unfold invoke. stable_auto. apply stable_rounds. Qed.

End engine.

End frame.

(** ** The vector store is built once *)

Lemma get_retriever_existing env self w :
  store_exists self w → (get_retriever env self w).1 = w.
Proof.
  intros H. unfold get_retriever.
  erewrite bind_inr; last first.
  { unfold os_path_exists. by rewrite bool_decide_eq_true_2. }
  cbn [negb]. erewrite bind_inr by reflexivity.
  unfold try_except, check, mbind, M_bind.
  by destruct (chroma_open env (embedding_model self) (chroma_db_path self)).
Qed.

Lemma build_vector_db_leaves_store env self w w' :
  _build_vector_db env self w = (w', inr tt) → store_exists self w'.
Proof.
  unfold _build_vector_db, Chroma_from_documents, lift, try_except, mbind, M_bind,
    note_build, check, add_dir.
  destruct (csv_loader env (data_source self)) as [e|docs]; [done|].
  destruct (chroma_from_documents env _ _ _) as [e|]; simpl.
  - destruct e as [[] msg|]; try done.
    destruct (contains _ msg); simpl; unfold raise; done.
  - intros [= <-]. right. simpl. set_solver.
Qed.

Lemma get_retriever_leaves_store env self w w' r :
  get_retriever env self w = (w', inr r) → store_exists self w'.
Proof.
  unfold get_retriever.
  destruct (decide (store_exists self w)) as [Hex|Hex].
  - intros H. pose proof (get_retriever_existing env self w Hex) as E.
    unfold get_retriever in E. rewrite H in E. simpl in E. by subst.
  - erewrite bind_inr; last first.
    { unfold os_path_exists. by rewrite bool_decide_eq_false_2. }
    cbn [negb].
    destruct (_build_vector_db env self w) as [w1 [e|[]]] eqn:E.
    + by erewrite bind_inl by exact E.
    + erewrite bind_inr by exact E.
      apply build_vector_db_leaves_store in E.
      unfold try_except, check, mbind, M_bind.
      destruct (chroma_open env _ _); simpl; [done|]. by intros [= <- _].
Qed.

Section store_untouched.

Variable self : RAGPipeline.
Variable builds : list string.

Lemma store_untouched_stdout : ignores_stdout (store_untouched self builds).
Proof. by intros f w. Qed.
Lemma store_untouched_llm_calls : ignores_new_llm_calls (store_untouched self builds).
Proof. by intros p w. Qed.
Lemma store_untouched_heap : ignores_heap (store_untouched self builds).
Proof. by intros f w. Qed.
Lemma store_untouched_trace : ignores_trace (store_untouched self builds).
Proof. by intros f w. Qed.
Lemma store_untouched_new_files : ignores_new_files (store_untouched self builds).
Proof.
  intros p w [Hb [He|He]]; (split; [done|]); [left|right]; simpl; set_solver.
Qed.
Lemma store_untouched_new_dirs : ignores_new_dirs (store_untouched self builds).
Proof.
  intros p w [Hb [He|He]]; (split; [done|]); [left|right]; simpl; set_solver.
Qed.

Lemma store_untouched_get_retriever env :
  stable (store_untouched self builds) (get_retriever env self).
Proof. intros w [Hb He]. by rewrite get_retriever_existing. Qed.

End store_untouched.

Lemma store_untouched_run env llm path tc builds :
  stable (store_untouched RAGPipeline_default builds) (run env (agent_of env llm) path tc).
Proof.
  unfold run. stable_auto.
  - apply stable_alloc, store_untouched_heap.
  - apply store_untouched_get_retriever.
  - apply stable_invoke; [apply store_untouched_trace | |].
    + intros. apply stable_apply_update, store_untouched_heap.
    + intros name f st. apply stable_workflow_nodes_heap.
      * apply store_untouched_stdout.
      * apply store_untouched_llm_calls.
      * apply store_untouched_heap.
      * apply store_untouched_new_files.
      * apply store_untouched_new_dirs.
Qed.

(** C7.  [get_retriever] builds the vector store only when nothing exists at
    the configured path.
    - If the store exists, [get_retriever] requests no build; it changes
      nothing at all and only opens the store.
    - After a call that returned a retriever, a second call requests no
      build.
    - If the store exists, a whole [run] requests no build and the store
      still exists afterwards, so neither does the next [run]. *)
Theorem vector_store_not_rebuilt env llm :
  (∀ self w, store_exists self w →
     index_builds (get_retriever env self w).1 = index_builds w
     ∧ (get_retriever env self w).1 = w)
  ∧ (∀ self w w1 r, get_retriever env self w = (w1, inr r) →
       index_builds (get_retriever env self w1).1 = index_builds w1)
  ∧ (∀ path tc path' tc' w, store_exists RAGPipeline_default w →
       let w1 := (run env (agent_of env llm) path tc w).1 in
       let w2 := (run env (agent_of env llm) path' tc' w1).1 in
       index_builds w1 = index_builds w
       ∧ store_exists RAGPipeline_default w1
       ∧ index_builds w2 = index_builds w).
Proof.
  split_and!.
  - intros self w H. by rewrite get_retriever_existing.
  - intros self w w1 r H. apply get_retriever_leaves_store in H.
    by rewrite get_retriever_existing.
  - intros path tc path' tc' w H.
    assert (H1 : store_untouched RAGPipeline_default (index_builds w) w) by done.
    apply (store_untouched_run env llm path tc) in H1.
    pose proof H1 as H2. apply (store_untouched_run env llm path' tc') in H2.
    destruct H1, H2. done.
Qed.

Lemma vector_store_not_rebuilt_witness :
  store_exists RAGPipeline_default indexed_world
  ∧ index_builds (run demo_env (agent_of demo_env groq) "data.csv" None indexed_world).1
    = index_builds indexed_world
  ∧ get_retriever demo_env RAGPipeline_default fresh_world
    = (mkWorld {["data.csv"]} ({["chroma_db"]} ∪ ∅) [] [] [] ["chroma_db"] [],
       inr (mkRetriever "chroma_db" "nomic-embed-text" 5))
  ∧ index_builds
      (get_retriever demo_env RAGPipeline_default
         (mkWorld {["data.csv"]} ({["chroma_db"]} ∪ ∅) [] [] [] ["chroma_db"] [])).1
    = ["chroma_db"].
Proof.
  destruct (vector_store_not_rebuilt demo_env groq) as (_ & Htwice & Hrun).
  assert (Hex : store_exists RAGPipeline_default indexed_world) by (right; by vm_compute).
  split_and!.
  - exact Hex.
  - exact (proj1 (Hrun "data.csv" None "data.csv" None indexed_world Hex)).
  - reflexivity.
  - exact (Htwice RAGPipeline_default fresh_world _ _ eq_refl).
Defined.

(** ** How a failed index build is reported *)

Lemma append_assoc (a b c : string) : (a +:+ b) +:+ c = a +:+ b +:+ c.
Proof.
  induction a as [|x a IH]; [done|].
  change (String x (a +:+ b) +:+ c = String x (a +:+ b +:+ c)).
  change (String x ((a +:+ b) +:+ c) = String x (a +:+ b +:+ c)). by rewrite IH.
Qed.

Lemma prefix_append s t : String.prefix s (s +:+ t) = true.
Proof.
  induction s as [|a s IH]; [by destruct t|].
  change (String a s +:+ t) with (String a (s +:+ t)). simpl.
  by destruct (Ascii.ascii_dec a a).
Qed.

Lemma contains_prefix sub s : String.prefix sub s = true → contains sub s = true.
Proof. intros H. destruct s; cbn [contains]; by rewrite H. Qed.

Lemma contains_append a sub b : contains sub (a +:+ sub +:+ b) = true.
Proof.
  induction a as [|c a IH].
  - change ("" +:+ sub +:+ b) with (sub +:+ b). apply contains_prefix, prefix_append.
  - change (String c a +:+ sub +:+ b) with (String c (a +:+ sub +:+ b)).
    cbn [contains]. rewrite IH. apply orb_true_r.
Qed.

Lemma model_not_found_msg_advice model :
  contains ("ollama pull " +:+ model) (model_not_found_msg model) = true.
Proof.
  unfold model_not_found_msg.
  set (a := "The embedding model '" +:+ model +:+ "' was not found by the Ollama server."
            +:+ nl +:+ "Please pull the model by running the following command in your terminal:"
            +:+ nl +:+ nl).
  assert (E : model_not_found_msg model = a +:+ ("ollama pull " +:+ model) +:+ nl).
  { unfold model_not_found_msg, a. by rewrite !append_assoc. }
  unfold model_not_found_msg in E. rewrite E. apply contains_append.
Qed.

Lemma connection_error_msg_advice url :
  contains "ollama serve" (connection_error_msg url) = true.
Proof.
  unfold connection_error_msg.
  set (a := "Connection to Ollama server at '" +:+ url +:+ "' failed." +:+ nl
            +:+ "Please ensure the Ollama application is running on your machine." +:+ nl
            +:+ "You can start it by running the following command in your terminal:"
            +:+ nl +:+ nl).
  assert (E : connection_error_msg url = a +:+ "ollama serve" +:+ nl).
  { unfold connection_error_msg, a. by rewrite !append_assoc. }
  unfold connection_error_msg in E. rewrite E. apply contains_append.
Qed.

Lemma build_vector_db_failure env self w docs e :
  csv_loader env (data_source self) = inr docs →
  chroma_from_documents env (split_documents env 500 50 docs)
    (embedding_model self) (chroma_db_path self) = Some e →
  (_build_vector_db env self w).2 = inl (CustomException e)
  ∧ stdout (_build_vector_db env self w).1
    = stdout w ++ (if model_missing e
                   then model_not_found_banner (embedding_model self) else [])
  ∧ dirs (_build_vector_db env self w).1 = dirs w.
Proof.
  intros Hdocs He.
  unfold _build_vector_db, Chroma_from_documents, lift, try_except, mbind, M_bind,
    note_build, check, add_dir.
  rewrite Hdocs, He. simpl.
  destruct e as [c msg|]; simpl; [|by rewrite app_nil_r].
  destruct c; simpl; try by rewrite app_nil_r.
  destruct (contains _ msg); simpl; [|by rewrite app_nil_r].
  by rewrite <- !app_assoc.
Qed.

Lemma check_ollama_connection_down env url w e :
  requests_get env url = Some e → isinstance e ConnectionError = true →
  (_check_ollama_connection env url w).2
  = inl (Raised ConnectionRefusedError "Ollama server not found.")
  ∧ stdout (_check_ollama_connection env url w).1 = stdout w ++ connection_banner url.
Proof.
  intros He Hc.
  unfold _check_ollama_connection, try_except, mbind, M_bind, check, print.
  rewrite He. simpl. rewrite Hc. simpl. by rewrite <- !app_assoc.
Qed.

(** C9, as amended.  When [Chroma.from_documents] fails while the index is
    built, [_build_vector_db] raises [CustomException] around the error the
    backend gave, whatever the cause.  The remedy is printed, not raised:
    for a [ValueError] saying the model was not found, the console gets a
    banner whose text tells the user to run [ollama pull <model>]; for any
    other failure, an unreachable backend among them, nothing is printed.
    The advice to start the service belongs to the connection check that the
    agent makes when it is constructed: if the server does not answer, the
    check prints a banner whose text says [ollama serve] and raises
    [ConnectionRefusedError("Ollama server not found.")]. *)
Theorem index_build_failure_reporting env self w docs e :
  csv_loader env (data_source self) = inr docs →
  chroma_from_documents env (split_documents env 500 50 docs)
    (embedding_model self) (chroma_db_path self) = Some e →
  (_build_vector_db env self w).2 = inl (CustomException e)
  ∧ stdout (_build_vector_db env self w).1
    = stdout w ++ (if model_missing e
                   then model_not_found_banner (embedding_model self) else [])
  ∧ contains ("ollama pull " +:+ embedding_model self)
             (model_not_found_msg (embedding_model self)) = true
  ∧ (∀ url e', requests_get env url = Some e' → isinstance e' ConnectionError = true →
       (_check_ollama_connection env url w).2
       = inl (Raised ConnectionRefusedError "Ollama server not found.")
       ∧ stdout (_check_ollama_connection env url w).1 = stdout w ++ connection_banner url
       ∧ contains "ollama serve" (connection_error_msg url) = true).
Proof.
  intros Hdocs He.
  destruct (build_vector_db_failure env self w docs e Hdocs He) as (H1 & H2 & _).
  split_and!; [done | done | apply model_not_found_msg_advice |].
  intros url e' He' Hc.
  destruct (check_ollama_connection_down env url w e' He' Hc).
  split_and!; [done | done | apply connection_error_msg_advice].
Qed.

Lemma index_build_failure_reporting_witness :
  csv_loader no_model_env (data_source RAGPipeline_default)
  = inr [mkDocument "Technique: histogram"]
  ∧ chroma_from_documents no_model_env
      (split_documents no_model_env 500 50 [mkDocument "Technique: histogram"])
      (embedding_model RAGPipeline_default) (chroma_db_path RAGPipeline_default)
    = Some model_absent
  ∧ (_build_vector_db no_model_env RAGPipeline_default fresh_world).2
    = inl (CustomException model_absent)
  ∧ stdout (_build_vector_db no_model_env RAGPipeline_default fresh_world).1
    = stdout fresh_world
      ++ (if model_missing model_absent
          then model_not_found_banner (embedding_model RAGPipeline_default) else []).
Proof.
  destruct (index_build_failure_reporting no_model_env RAGPipeline_default fresh_world
              [mkDocument "Technique: histogram"] model_absent eq_refl eq_refl)
    as (H1 & H2 & _).
  split_and!; [reflexivity | reflexivity | exact H1 | exact H2].
Defined.

(** C9, as stated, fails.  With the embedding service unreachable the build
    raises [CustomException] around the connection error, and no text in it
    tells the user to start the service; with the model absent it raises
    the same class around the backend's message. *)
Lemma index_build_failures_collapse :
  ¬ failures_carry_remedies offline_env no_model_env RAGPipeline_default fresh_world.
Proof.
  intros (w1 & e1 & w2 & e2 & H1 & H2 & Hserve & _).
  assert (E : e1 = CustomException unreachable).
  { pose proof (build_vector_db_failure offline_env RAGPipeline_default fresh_world
                  [mkDocument "Technique: histogram"] unreachable eq_refl eq_refl)
      as (E & _).
    rewrite H1 in E. simpl in E. by injection E. }
  subst e1. destruct Hserve as (t & Ht & Hc).
  simpl in Ht. apply list_elem_of_singleton in Ht. subst t.
  vm_compute in Hc. discriminate Hc.
Qed.

(** ** The column profiler *)

Lemma unique_column (cols : list Column) c1 c2 :
  NoDup (col_name <$> cols) → c1 ∈ cols → c2 ∈ cols →
  col_name c1 = col_name c2 → c1 = c2.
Proof.
  induction cols as [|c cols IH]; [by intros _ ?%elem_of_nil|].
  rewrite fmap_cons, NoDup_cons. intros [Hc Hnd] H1 H2 E.
  apply elem_of_cons in H1 as [->|H1]; apply elem_of_cons in H2 as [->|H2].
  - done.
  - destruct Hc. rewrite E. by apply list_elem_of_fmap_2.
  - destruct Hc. rewrite <- E. by apply list_elem_of_fmap_2.
  - by apply IH.
Qed.

Lemma getitem_unique df c w :
  NoDup (column_names df) → c ∈ df_columns df →
  getitem df (col_name c) w = (w, inr c).
Proof.
  unfold column_names, getitem. intros Hnd Hc.
  destruct (List.find _ _) as [c'|] eqn:E.
  - apply List.find_some in E as [Hin Hname].
    apply bool_decide_eq_true in Hname. apply list_elem_of_In in Hin.
    by rewrite (unique_column _ c' c Hnd Hin Hc Hname).
  - apply List.find_none with (x := c) in E; [|by apply list_elem_of_In].
    by apply bool_decide_eq_false in E.
Qed.

Lemma NoDup_names_filter (P : Column → Prop) `{∀ c, Decision (P c)} cols :
  NoDup (col_name <$> cols) → NoDup (col_name <$> filter P cols).
Proof.
  intros Hnd. eapply sublist_NoDup; [exact Hnd|].
  apply fmap_sublist, sublist_filter.
Qed.

(** The loop keeps, in order, the names of the columns that parse. *)
Lemma datetime_loop_spec env df cs acc w :
  NoDup (column_names df) →
  (∀ c, c ∈ cs → c ∈ df_columns df) →
  (∀ c e, c ∈ cs → to_datetime env c = Some e →
          isinstance e ValueError || isinstance e TypeError = true) →
  datetime_loop env df (col_name <$> cs) acc w
  = (w, inr (acc ++ (col_name <$> filter (λ c, parses env c = true) cs))).
Proof.
  intros Hnd. revert acc. induction cs as [|c cs IH]; intros acc Hin Herr.
  - simpl. by rewrite app_nil_r.
  - rewrite fmap_cons. cbn [datetime_loop].
    assert (Hc : c ∈ df_columns df) by (apply Hin; left).
    destruct (to_datetime env c) as [e|] eqn:E.
    + erewrite bind_inr; last first.
      { erewrite try_inl; last first.
        { erewrite bind_inr by (by apply getitem_unique).
          rewrite E. reflexivity. }
        rewrite (Herr c e); [reflexivity | left | done]. }
      rewrite filter_cons_False by (unfold parses; by rewrite E).
      apply IH; intros; [apply Hin | eapply Herr]; try by right. done.
    + erewrite bind_inr; last first.
      { erewrite try_inr; [reflexivity|].
        erewrite bind_inr by (by apply getitem_unique).
        rewrite E. reflexivity. }
      rewrite filter_cons_True by (unfold parses; by rewrite E). rewrite fmap_cons.
      rewrite IH.
      * by rewrite <- app_assoc.
      * intros; apply Hin; by right.
      * intros; eapply Herr; [by right | done].
Qed.

Lemma profile_spec env st w path df :
  file_path st = Some path → read_csv env path = inr df →
  NoDup (column_names df) → parse_errors_caught env df →
  let n := col_name <$> select_dtypes [sel_number] df in
  let d := col_name <$> filter (λ c, parses env c = true) (select_dtypes [sel_object] df) in
  let c := filter (λ x, x ∉ d) (col_name <$> select_dtypes [sel_object; sel_category] df) in
  _profile_data_for_plotting env st w = (w, inr (dict_profile n c d)).
Proof.
  intros Hp Hdf Hnd Herr n d c. unfold _profile_data_for_plotting. rewrite Hp.
  erewrite bind_inr by reflexivity.
  erewrite bind_inr by (by apply get_dataset_inr).
  erewrite bind_inr; last first.
  { apply datetime_loop_spec; [done | | done].
    intros col Hcol. unfold select_dtypes in Hcol.
    by apply list_elem_of_filter in Hcol as [_ ?]. }
  reflexivity.
Qed.

Lemma selected_column sels df x :
  x ∈ col_name <$> select_dtypes sels df ↔
  ∃ col, col ∈ df_columns df ∧ col_name col = x
         ∧ existsb (λ s, selects s (col_dtype col)) sels = true.
Proof.
  unfold select_dtypes. rewrite list_elem_of_fmap. split.
  - intros (col & -> & Hin). apply list_elem_of_filter in Hin as [? ?]. eauto.
  - intros (col & Hin & <- & Hsel). exists col. split; [done|].
    by apply list_elem_of_filter.
Qed.

(** C1, as amended.  For a dataset whose column names are distinct, as
    [read_csv] makes them, the profiling step returns three lists that are
    pairwise disjoint and free of repetitions.  Together they hold exactly
    the names of the columns with a numeric, textual or categorical dtype;
    a column of any other dtype is in none of them.  A textual column that
    [pd.to_datetime] accepts is in [datetime_cols] and not in
    [categorical_cols]. *)
Theorem profile_classifies_columns env st w path df :
  file_path st = Some path →
  read_csv env path = inr df →
  NoDup (column_names df) →
  parse_errors_caught env df →
  ∃ n c d,
    _profile_data_for_plotting env st w = (w, inr (dict_profile n c d))
    ∧ NoDup (n ++ c ++ d)
    ∧ (∀ x, x ∈ n ++ c ++ d ↔
            ∃ col, col ∈ df_columns df ∧ col_name col = x
                   ∧ classified (col_dtype col) = true)
    ∧ (∀ col, col ∈ df_columns df → col_dtype col = object_ →
              to_datetime env col = None →
              col_name col ∈ d ∧ col_name col ∉ c).
Proof.
  intros Hp Hdf Hnd Herr.
  eexists _, _, _. split; [by eapply profile_spec|].
  set (n := col_name <$> select_dtypes [sel_number] df).
  set (d := col_name <$> filter (λ c, parses env c = true) (select_dtypes [sel_object] df)).
  set (c := filter (λ x, x ∉ d) (col_name <$> select_dtypes [sel_object; sel_category] df)).
  assert (Hd : ∀ x, x ∈ d → ∃ col, col ∈ df_columns df ∧ col_name col = x
                                   ∧ col_dtype col = object_).
  { intros x (col & -> & Hin)%list_elem_of_fmap.
    apply list_elem_of_filter in Hin as [_ Hin].
    apply list_elem_of_filter in Hin as [Hsel Hin].
    exists col. split_and!; [done..|]. by destruct (col_dtype col). }
  assert (Hn : ∀ x, x ∈ n → ∃ col, col ∈ df_columns df ∧ col_name col = x
                                   ∧ selects sel_number (col_dtype col) = true).
  { intros x (col & Hin & Hx & Hsel)%selected_column.
    exists col. split_and!; [done..|]. simpl in Hsel. by rewrite orb_false_r in Hsel. }
  assert (Hc : ∀ x, x ∈ c → (x ∉ d) ∧ ∃ col, col ∈ df_columns df ∧ col_name col = x
                 ∧ (col_dtype col = object_ ∨ col_dtype col = category)).
  { intros x [Hx (col & Hin & Hname & Hsel)%selected_column]%list_elem_of_filter.
    split; [done|]. exists col. split_and!; [done..|].
    simpl in Hsel. destruct (col_dtype col); simpl in Hsel; auto; done. }
  split_and!.
  - apply NoDup_app. split_and!.
    + by apply NoDup_names_filter.
    + intros x (col & Hin & Hx & Hnum)%Hn [Hxc|Hxd]%elem_of_app.
      * apply Hc in Hxc as [_ (col' & Hin' & Hx' & Hty)].
        assert (col' = col) as -> by (eapply unique_column; eauto; congruence).
        destruct Hty as [E|E]; rewrite E in Hnum; done.
      * apply Hd in Hxd as (col' & Hin' & Hx' & Hty).
        assert (col' = col) as -> by (eapply unique_column; eauto; congruence).
        rewrite Hty in Hnum. done.
    + apply NoDup_app. split_and!.
      * apply NoDup_filter. by apply NoDup_names_filter.
      * by intros x [Hx _]%Hc.
      * unfold d. apply NoDup_names_filter. by apply NoDup_names_filter.
  - intros x. rewrite !elem_of_app. split.
    + intros [Hx|[Hx|Hx]].
      * apply Hn in Hx as (col & ? & ? & Hsel). exists col. split_and!; [done..|].
        unfold classified. by rewrite Hsel.
      * apply Hc in Hx as [_ (col & ? & ? & [E|E])]; exists col;
          (split_and!; [done..|]); unfold classified; by rewrite E.
      * apply Hd in Hx as (col & ? & ? & E). exists col. split_and!; [done..|].
        unfold classified; by rewrite E.
    + intros (col & Hin & <- & Hcl). unfold classified in Hcl.
      destruct (selects sel_number (col_dtype col)) eqn:Enum.
      { left. apply selected_column. exists col. split_and!; [done..|].
        cbn [existsb]. by rewrite Enum. }
      right. destruct (decide (col_name col ∈ d)) as [?|Hnd']; [by right|left].
      apply list_elem_of_filter. split; [done|].
      apply selected_column. exists col. split_and!; [done..|].
      cbn [existsb]. rewrite orb_false_r. exact Hcl.
  - intros col Hin Hty Hparse.
    assert (Hind : col_name col ∈ d).
    { apply list_elem_of_fmap_2. apply list_elem_of_filter. split.
      - unfold parses. by rewrite Hparse.
      - apply list_elem_of_filter. split; [|done]. simpl. by rewrite Hty. }
    split; [done|]. by intros [? _]%list_elem_of_filter.
Qed.

Lemma profile_classifies_columns_witness :
  file_path (plot_state [] []) = Some "data.csv"
  ∧ read_csv demo_env "data.csv" = inr people
  ∧ NoDup (column_names people)
  ∧ parse_errors_caught demo_env people
  ∧ ∃ n c d,
      _profile_data_for_plotting demo_env (plot_state [] []) plot_world
      = (plot_world, inr (dict_profile n c d))
      ∧ NoDup (n ++ c ++ d).
Proof.
  assert (Hnd : NoDup (column_names people)).
  { apply (bool_decide_unpack _). by vm_compute. }
  assert (Herr : parse_errors_caught demo_env people).
  { intros col e _. simpl. destruct (forallb _ _); [done|]. by intros [= <-]. }
  destruct (profile_classifies_columns demo_env (plot_state [] []) plot_world
              "data.csv" people eq_refl eq_refl Hnd Herr)
    as (n & c & d & E & Hdisj & _).
  split_and!; [reflexivity | reflexivity | exact Hnd | exact Herr |].
  exists n, c, d. by split.
Defined.

(** C1, as stated, fails.  A column of booleans is in none of the three
    lists, so their union is not the set of columns. *)
Lemma profile_skips_boolean_column :
  _profile_data_for_plotting flags_env (plot_state [] []) plot_world
  = (plot_world, inr (dict_profile ["age"] [] []))
  ∧ ¬ partitions (column_names flags) ["age"] [] [].
Proof.
  split; [by vm_compute|].
  intros [_ H]. specialize (H "active"). destruct H as [_ H].
  assert (Hin : "active" ∈ column_names flags) by (apply (bool_decide_unpack _); by vm_compute).
  apply H in Hin. simpl in Hin. apply list_elem_of_singleton in Hin. discriminate Hin.
Qed.

(** ** The workflow graph is a chain *)

Lemma bind_ext {A B} (m : M A) (k k' : A → M B) w :
  (∀ a w', k a w' = k' a w') → (m ≫= k) w = (m ≫= k') w.
Proof.
  intros H. unfold mbind, M_bind. destruct (m w) as [w' [e|a]]; [done|]. apply H.
Qed.

Lemma rounds_done limit g st w : rounds limit g [] st w = (w, inr st).
Proof. by destruct limit. Qed.

(** A round with one active node runs that node and merges its update. *)
Lemma rounds_single k g name f st w :
  find_node name (nodes g) = Some f →
  rounds (S k) g [name] st w
  = (st' ← node name f st; rounds k g (next_active g [name]) st') w.
Proof.
  intros Hf. cbn [rounds run_nodes]. rewrite Hf.
  unfold node, mbind, M_bind, enter.
  destruct (f st _) as [w1 [e|u]]; [done|]. simpl. unfold mbind, M_bind.
  by destruct (apply_update st u w1) as [w2 [e|st']].
Qed.

Lemma workflow_nodes env llm : nodes (_build_graph env llm) = workflow_steps env llm.
Proof. reflexivity. Qed.

Lemma workflow_successors env llm i name :
  workflow_order !! i = Some name →
  successors (_build_graph env llm) name = [default END (workflow_order !! S i)].
Proof.
  do 6 (destruct i as [|i]; [intros [= <-]; by vm_compute|]).
  done.
Qed.

(** [invoke] on the workflow graph: write the input, then run the six nodes
    one after the other. *)
Lemma invoke_workflow env llm input w :
  invoke (_build_graph env llm) input w
  = (st ← apply_update empty_dict input; chain (workflow_steps env llm) st) w.
Proof.
  unfold invoke. apply bind_ext. intros st0 w0.
  change (entry_point (_build_graph env llm)) with (Some "profile_data").
  unfold recursion_limit, workflow_steps. cbn [chain].
  do 6 (erewrite rounds_single by reflexivity;
        apply bind_ext; intros ? ?;
        match goal with
        | |- context [next_active ?g ?l] =>
            let r := eval vm_compute in (next_active g l) in
            change (next_active g l) with r
        end).
  apply rounds_done.
Qed.

(** ** The order in which the nodes run *)

Lemma trace_stable_apply_update t st upd :
  stable (λ w, trace w = t) (apply_update st upd).
Proof. apply stable_apply_update. by intros f w. Qed.

(** No node of the workflow writes to the trace; only the engine does. *)
Lemma trace_stable_workflow_step env llm t name f st :
  (name, f) ∈ workflow_steps env llm → stable (λ w, trace w = t) (f st).
Proof.
  intros Hin. assert (Hf : find_node name (workflow_steps env llm) = Some f).
  { unfold workflow_steps in *.
    repeat (apply elem_of_cons in Hin as [[= -> ->]|Hin]; [reflexivity|]).
    by apply elem_of_nil in Hin. }
  rewrite <- workflow_nodes in Hf.
  eapply stable_workflow_nodes_heap; [..|exact Hf]; by intros ? ?.
Qed.

Lemma node_trace name f st w :
  (∀ t, stable (λ w, trace w = t) (f st)) →
  trace (node name f st w).1 = trace w ++ [(name, st)].
Proof.
  intros Hf. unfold node.
  erewrite bind_inr by reflexivity.
  apply (stable_bind (λ w', trace w' = trace w ++ [(name, st)])); [apply Hf | |done].
  intros u. apply trace_stable_apply_update.
Qed.

(** A chain starts its nodes in order, each at most once, and all of them
    when it returns. *)
Lemma chain_order steps st w :
  (∀ name f st t, (name, f) ∈ steps → stable (λ w, trace w = t) (f st)) →
  ∃ added,
    trace (chain steps st w).1 = trace w ++ added
    ∧ added.*1 `prefix_of` steps.*1
    ∧ (∀ st', (chain steps st w).2 = inr st' → added.*1 = steps.*1).
Proof.
  intros Hsteps. revert st w.
  induction steps as [|[name f] rest IH]; intros st w.
  - exists []. simpl. by rewrite app_nil_r.
  - cbn [chain].
    pose proof (node_trace name f st w) as Hnode.
    destruct (node name f st w) as [w1 [e|st1]] eqn:E; simpl in Hnode.
    + erewrite bind_inl by exact E. exists [(name, st)]. split_and!.
      * apply Hnode. intros t. eapply Hsteps. left.
      * simpl. by apply prefix_cons, prefix_nil.
      * done.
    + erewrite bind_inr by exact E.
      destruct (IH (λ n g s t H, Hsteps n g s t (list_elem_of_further _ _ _ H)) st1 w1)
        as (added & Htr & Hpre & Hall).
      exists ((name, st) :: added). split_and!.
      * rewrite Htr, Hnode, <- app_assoc; [done|]. intros t. eapply Hsteps. left.
      * simpl. by apply prefix_cons.
      * intros st' Hst'. simpl. f_equal. by eapply Hall.
Qed.

Lemma workflow_order_steps env llm : (workflow_steps env llm).*1 = workflow_order.
Proof. reflexivity. Qed.



(** ** The plot context of the graph state *)

Ltac returns_step :=
  lazymatch goal with
  | |- returns _ (mbind _ _) => apply returns_bind; intros
  | |- returns _ (try_except _ _) => apply returns_try; [|intros]
  | |- returns _ (mret _) => apply returns_ret
  | |- returns _ (raise _) => apply returns_raise
  | |- returns _ (match ?x with _ => _ end) => destruct x
  end.

Lemma no_context_empty_dict : no_context empty_dict.
Proof. by left. Qed.

Lemma no_context_profile n c d : no_context (dict_profile n c d).
Proof. by left. Qed.

Lemma no_context_insights l : no_context (dict_insights l).
Proof. by left. Qed.

Lemma no_context_cleared : no_context (dict_context ∅).
Proof. by right. Qed.

Lemma no_context_caption l : no_context (dict_caption l ∅).
Proof. by right. Qed.

(** No node hands a plot context back to the engine. *)
Lemma returns_no_context env llm name f st :
  find_node name (nodes (_build_graph env llm)) = Some f → returns no_context (f st).
Proof.
  cbn [_build_graph nodes add_node new_graph set_entry_point add_edge app find_node].
  repeat (case_bool_decide; [intros [= <-]|]); [..|done].
  - unfold _profile_data_for_plotting. repeat returns_step. apply no_context_profile.
  - unfold _get_contextual_insights. repeat returns_step;
      first [apply no_context_insights | done].
  - unfold _plot_univariate_numerical. repeat returns_step;
      first [apply no_context_cleared | apply no_context_empty_dict].
  - unfold _plot_univariate_categorical. repeat returns_step; apply no_context_empty_dict.
  - unfold _plot_correlation_heatmap. repeat returns_step; apply no_context_empty_dict.
  - unfold _generate_caption. repeat returns_step;
      first [apply no_context_empty_dict | apply no_context_caption].
Qed.

Lemma apply_update_context st upd w st' :
  (apply_update st upd w).2 = inr st' →
  current_plot_context st'
  = last_value (current_plot_context st) (current_plot_context upd).
Proof.
  unfold apply_update, mbind, M_bind.
  destruct (add_objects _ _ w) as [w' [e|viz]]; simpl; [done|]. by intros [= <-].
Qed.

Section handed_only.

Variable t0 : list (string * AgentState).
Variable Q : string * AgentState → Prop.

Lemma handed_only_stdout : ignores_stdout (handed_only t0 Q).
Proof. by intros f w. Qed.
Lemma handed_only_llm_calls : ignores_new_llm_calls (handed_only t0 Q).
Proof. by intros p w. Qed.
Lemma handed_only_heap : ignores_heap (handed_only t0 Q).
Proof. by intros f w. Qed.
Lemma handed_only_index_builds : ignores_index_builds (handed_only t0 Q).
Proof. by intros f w. Qed.
Lemma handed_only_new_files : ignores_new_files (handed_only t0 Q).
Proof. by intros p w. Qed.
Lemma handed_only_new_dirs : ignores_new_dirs (handed_only t0 Q).
Proof. by intros p w. Qed.

Lemma handed_only_enter name st :
  Q (name, st) → stable (handed_only t0 Q) (enter name st).
Proof.
  intros HQ w (added & Htr & Hall). exists (added ++ [(name, st)]). simpl. split.
  - by rewrite Htr, app_assoc.
  - apply Forall_app. split; [done|]. by constructor.
Qed.

Lemma handed_only_workflow_step env llm name f st :
  (name, f) ∈ workflow_steps env llm → stable (handed_only t0 Q) (f st).
Proof.
  intros Hin. assert (Hf : find_node name (workflow_steps env llm) = Some f).
  { unfold workflow_steps in *.
    repeat (apply elem_of_cons in Hin as [[= -> ->]|Hin]; [reflexivity|]).
    by apply elem_of_nil in Hin. }
  rewrite <- workflow_nodes in Hf.
  eapply stable_workflow_nodes_heap; [..|exact Hf].
  - apply handed_only_stdout.
  - apply handed_only_llm_calls.
  - apply handed_only_heap.
  - apply handed_only_new_files.
  - apply handed_only_new_dirs.
Qed.

End handed_only.

Lemma workflow_step_find env llm name f :
  (name, f) ∈ workflow_steps env llm →
  find_node name (nodes (_build_graph env llm)) = Some f.
Proof.
  intros Hin. unfold workflow_steps in *.
  repeat (apply elem_of_cons in Hin as [[= -> ->]|Hin]; [reflexivity|]).
  by apply elem_of_nil in Hin.
Qed.

(** Along a chain of nodes that return no plot context, the context of the
    state stays empty. *)
Lemma chain_context t0 steps st :
  (∀ name f st, (name, f) ∈ steps →
     stable (handed_only t0 context_empty) (f st) ∧ returns no_context (f st)) →
  current_plot_context st = Some ∅ →
  stable (handed_only t0 context_empty) (chain steps st).
Proof.
  intros Hsteps. revert st.
  induction steps as [|[name f] rest IH]; intros st Hst w Hw; [done|].
  cbn [chain]. unfold node.
  erewrite bind_ext; last first.
  { intros st' w'. reflexivity. }
  destruct (Hsteps name f st) as [Hstable Hret]; [left|].
  apply (handed_only_enter t0 context_empty name st Hst) in Hw.
  unfold mbind at 1, M_bind at 1. unfold mbind at 1, M_bind at 1.
  destruct (enter name st w) as [w1 [e|[]]] eqn:E1; [done|]. simpl in Hw.
  apply Hstable in Hw. pose proof (Hret w1) as Hu.
  unfold mbind at 1, M_bind at 1.
  destruct (f st w1) as [w2 [e|u]]; [done|]. simpl in Hw.
  specialize (Hu u eq_refl).
  apply (stable_apply_update _ st u (handed_only_heap t0 context_empty)) in Hw.
  pose proof (apply_update_context st u w2) as Hctx.
  destruct (apply_update st u w2) as [w3 [e|st']]; [done|]. simpl in Hw.
  apply IH; [intros name' f' st'' Hin; apply (Hsteps name'); by right | | done].
  rewrite (Hctx st' eq_refl), Hst. by destruct Hu as [-> | ->].
Qed.

Lemma invoke_context env llm t0 input :
  current_plot_context input = Some ∅ →
  stable (handed_only t0 context_empty) (invoke (_build_graph env llm) input).
Proof.
  intros Hin w Hw. rewrite invoke_workflow.
  apply (stable_apply_update _ empty_dict input (handed_only_heap t0 context_empty)) in Hw.
  pose proof (apply_update_context empty_dict input w) as Hctx.
  unfold mbind, M_bind.
  destruct (apply_update empty_dict input w) as [w0 [e|st0]]; [done|]. simpl in Hw.
  apply chain_context; [|by rewrite (Hctx st0 eq_refl), Hin|done].
  intros name f st Hf. split.
  - by eapply handed_only_workflow_step.
  - eapply returns_no_context. by apply workflow_step_find.
Qed.

Lemma run_context env llm t0 path tc :
  stable (handed_only t0 context_empty) (run env (agent_of env llm) path tc).
Proof.
  unfold run. stable_auto.
  - apply stable_alloc, handed_only_heap.
  - apply stable_get_retriever;
      [apply handed_only_stdout | apply handed_only_index_builds | apply handed_only_new_dirs].
  - by apply invoke_context.
Qed.

(** C10.  No node of the workflow returns a plot context to the engine: the
    dictionaries the nodes return either lack the key or map it to [{}].
    So in every run, whatever its outcome, every state the engine hands to a
    node carries the empty context it was started with; in particular the
    terminal node [generate_caption_for_heatmap] receives one, and on such a
    state the caption generator returns the empty update and leaves the
    world untouched: no prompt is sent, no visualization is created. *)
Theorem graph_context_stays_empty env llm path tc w :
  (∀ name f st, find_node name (nodes (_build_graph env llm)) = Some f →
     returns no_context (f st))
  ∧ ∃ added,
      trace (run env (agent_of env llm) path tc w).1 = trace w ++ added
      ∧ Forall context_empty added
      ∧ ∀ st w', ("generate_caption_for_heatmap", st) ∈ added →
          _generate_caption env llm st w' = (w', inr empty_dict)
          ∧ llm_calls (_generate_caption env llm st w').1 = llm_calls w'
          ∧ heap (_generate_caption env llm st w').1 = heap w'.
Proof.
  split; [apply returns_no_context|].
  destruct (run_context env llm (trace w) path tc w) as (added & Htr & Hall).
  { exists []. by rewrite app_nil_r. }
  exists added. split_and!; [done..|].
  intros st w' Hin.
  rewrite Forall_forall in Hall. specialize (Hall _ Hin).
  rewrite generate_caption_no_context; [done|]. by right.
Qed.

Lemma graph_context_stays_empty_witness :
  ∃ added,
    trace (run demo_env (agent_of demo_env groq) "data.csv" None fresh_world).1
    = trace fresh_world ++ added
    ∧ Forall context_empty added.
Proof.
  destruct (graph_context_stays_empty demo_env groq "data.csv" None fresh_world)
    as (_ & added & Htr & Hall & _).
  exists added. split; [exact Htr | exact Hall].
Defined.

(** ** Captions *)

Lemma all_space_lstrip s : all_space (lstrip s) = all_space s.
Proof.
  induction s as [|c s IH]; [done|]. simpl.
  destruct (isspace c) eqn:E; simpl; [done|]. by rewrite E.
Qed.

Lemma rstrip_empty s : rstrip s = "" ↔ all_space s = true.
Proof.
  induction s as [|c s IH]; [done|]. simpl.
  destruct (rstrip s) as [|c' r].
  - rewrite (proj1 IH eq_refl), andb_true_r. clear IH.
    destruct (isspace c); naive_solver.
  - destruct (all_space s); [discriminate (proj2 IH eq_refl)|].
    rewrite andb_false_r. clear IH. naive_solver.
Qed.

(** [strip] gives the empty string exactly on white space. *)
Lemma strip_empty s : strip s = "" ↔ all_space s = true.
Proof. unfold strip. by rewrite rstrip_empty, all_space_lstrip. Qed.

Section captions.

Variable env : Env.
Variable llm : LLM.

Lemma replied_later w p content :
  replied env llm w content →
  replied env llm (set_llm_calls (λ cs, cs ++ [p]) w) content.
Proof.
  intros (i & prompt & Hi & Hr). exists i, prompt. split; [|done].
  simpl. by apply lookup_app_l_Some.
Qed.

Lemma heap_captioned_stdout : ignores_stdout (heap_captioned env llm).
Proof. by intros f w. Qed.
Lemma heap_captioned_trace : ignores_trace (heap_captioned env llm).
Proof. by intros f w. Qed.
Lemma heap_captioned_index_builds : ignores_index_builds (heap_captioned env llm).
Proof. by intros f w. Qed.
Lemma heap_captioned_new_files : ignores_new_files (heap_captioned env llm).
Proof. by intros p w. Qed.
Lemma heap_captioned_new_dirs : ignores_new_dirs (heap_captioned env llm).
Proof. by intros p w. Qed.

Lemma heap_captioned_llm_calls : ignores_new_llm_calls (heap_captioned env llm).
Proof.
  intros p w H xs d Hxs Hd. destruct (H xs d Hxs Hd) as [Hsome Hkeys].
  split; [done|]. intros key v Hkey Hv.
  destruct (Hkeys key v Hkey Hv) as (content & Hr & ->).
  exists content. split; [by apply replied_later|done].
Qed.

(** A new list of captioned records keeps the heap captioned. *)
Lemma heap_captioned_alloc xs w :
  heap_captioned env llm w → Forall (captioned env llm w) xs →
  heap_captioned env llm (alloc xs w).1.
Proof.
  intros H Hxs ys d Hys Hd. simpl in Hys.
  apply elem_of_app in Hys as [Hys|Hys%list_elem_of_singleton].
  - by apply (H ys d).
  - subst ys. rewrite Forall_forall in Hxs. by apply Hxs.
Qed.

Lemma heap_captioned_deref l w :
  heap_captioned env llm w → Forall (captioned env llm w) (default [] (heap w !! l)).
Proof.
  intros H. destruct (heap w !! l) as [xs|] eqn:E; simpl; [|done].
  apply Forall_forall. intros d Hd. apply (H xs d); [|done].
  by eapply list_elem_of_lookup_2.
Qed.

Lemma heap_captioned_apply_update st upd :
  stable (heap_captioned env llm) (apply_update st upd).
Proof.
  intros w H. unfold apply_update, add_objects.
  destruct (visualizations upd) as [l2|]; [|done].
  unfold mbind, M_bind.
  destruct (visualizations st) as [l1|]; simpl.
  - apply (heap_captioned_alloc _ w H), Forall_app.
    split; by apply heap_captioned_deref.
  - apply (heap_captioned_alloc _ w H). by apply heap_captioned_deref.
Qed.

Lemma captioned_entry w (t d : string) content :
  replied env llm w content →
  captioned env llm w {[ "plot_type" := t; "details" := d; "caption" := strip content ]}.
Proof.
  intros Hr. split.
  - right. rewrite entry_caption. by eexists.
  - intros key v [-> | ->] Hv.
    + by simplify_map_eq.
    + rewrite entry_caption in Hv. injection Hv as <-. by exists content.
Qed.

Lemma captioned_visualization w t p caption :
  trimmed_reply env llm w caption → captioned env llm w (visualization t p caption).
Proof.
  intros Hr. split.
  - left. rewrite visualization_description. by eexists.
  - intros key v [-> | ->] Hv.
    + rewrite visualization_description in Hv. by injection Hv as <-.
    + unfold visualization in Hv. by simplify_map_eq.
Qed.

(** The generator stores the trimmed reply it has just received. *)
Lemma heap_captioned_generate_caption st :
  stable (heap_captioned env llm) (_generate_caption env llm st).
Proof.
  intros w H. unfold _generate_caption.
  destruct (bool_decide _); [done|].
  set (t := default "chart" _). set (d := default "the dataset" _).
  unfold mbind, M_bind, print, llm_content. simpl.
  destruct (llm_invoke env llm (length (llm_calls w)) (caption_prompt t d))
    as [e|content] eqn:E; simpl.
  - by apply heap_captioned_llm_calls, heap_captioned_stdout.
  - match goal with
    | |- heap_captioned _ _ (set_heap _ ?w1) =>
        change (heap_captioned env llm
                  (alloc [{[ "plot_type" := t; "details" := d;
                             "caption" := strip content ]}] w1).1)
    end.
    apply heap_captioned_alloc.
    + by apply heap_captioned_stdout, heap_captioned_llm_calls, heap_captioned_stdout.
    + constructor; [|done]. apply captioned_entry.
      exists (length (llm_calls w)), (caption_prompt t d). split; [|done].
      simpl. by apply list_lookup_middle.
Qed.

(** What [caption_of] reads from a captioned heap is a trimmed reply. *)
Lemma caption_of_trimmed caption_state w caption :
  heap_captioned env llm w →
  caption_of caption_state w = (w, inr caption) →
  trimmed_reply env llm w caption.
Proof.
  intros H. unfold caption_of.
  destruct (visualizations caption_state) as [l|]; [|done].
  erewrite bind_inr by reflexivity.
  erewrite bind_inr by reflexivity.
  pose proof (heap_captioned_deref l w H) as Hxs.
  destruct (default [] (heap w !! l)) as [|entry rest]; [done|].
  erewrite bind_inr by reflexivity.
  apply Forall_cons in Hxs as [[_ Hkeys] _].
  destruct (entry !! "caption") as [v|] eqn:E; [|done].
  intros [= <-]. apply (Hkeys "caption"); [by right|done].
Qed.

(** Appending the record built from that caption keeps the heap captioned. *)
Lemma heap_captioned_record caption_state caption target title path w :
  heap_captioned env llm w →
  caption_of caption_state w = (w, inr caption) →
  heap_captioned env llm
    (set_heap (alter (λ xs, xs ++ [visualization title path caption]) target) w).
Proof.
  intros H Hc xs d Hxs Hd.
  pose proof (caption_of_trimmed _ _ _ H Hc) as Hr.
  simpl in Hxs. apply list_elem_of_lookup in Hxs as [i Hi].
  rewrite list_lookup_alter in Hi.
  assert (Hold : ∀ ys, heap w !! i = Some ys → d ∈ ys → captioned env llm w d).
  { intros ys Hys. apply H. by eapply list_elem_of_lookup_2. }
  destruct (decide (target = i)) as [->|_]; [|by eapply Hold].
  destruct (heap w !! i) as [ys|]; [|done]. injection Hi as <-.
  apply elem_of_app in Hd as [Hd|Hd%list_elem_of_singleton]; [by eapply Hold|].
  subst d. by apply captioned_visualization.
Qed.

Lemma heap_captioned_workflow_nodes name f st :
  find_node name (nodes (_build_graph env llm)) = Some f →
  stable (heap_captioned env llm) (f st).
Proof.
  apply stable_workflow_nodes.
  - apply heap_captioned_new_files.
  - apply heap_captioned_new_dirs.
  - apply heap_captioned_generate_caption.
  - intros. by eapply heap_captioned_record.
  - apply heap_captioned_stdout.
  - apply heap_captioned_llm_calls.
Qed.

Lemma heap_captioned_run path tc :
  stable (heap_captioned env llm) (run env (agent_of env llm) path tc).
Proof.
  unfold run. stable_auto.
  - intros w H. by apply heap_captioned_alloc.
  - apply stable_get_retriever;
      [ apply heap_captioned_stdout | apply heap_captioned_index_builds
      | apply heap_captioned_new_dirs ].
  - apply stable_invoke;
      [ apply heap_captioned_trace | apply heap_captioned_apply_update
      | apply heap_captioned_workflow_nodes ].
Qed.

End captions.

(** The list [run] returns is a list object of the final heap. *)
Lemma run_visualizations_in_heap env self path tc w res :
  (run env self path tc w).2 = inr res →
  results_visualizations res = []
  ∨ results_visualizations res ∈ heap (run env self path tc w).1.
Proof.
  unfold run, mbind, M_bind, os_path_isfile.
  destruct (negb _); [done|].
  destruct (get_dataset env path w) as [w1 [e|df]]; [done|].
  destruct (alloc [] w1) as [w2 [e|l0]]; [done|].
  destruct (get_retriever env RAGPipeline_default w2) as [w3 [e|r]]; [done|].
  destruct (invoke _ _ w3) as [w4 [e|final]]; [done|].
  destruct (visualizations final) as [l|]; simpl; [|intros [= <-]; by left].
  intros [= <-]. simpl.
  destruct (heap w4 !! l) as [xs|] eqn:E; simpl; [|by left].
  right. by eapply list_elem_of_lookup_2.
Qed.




(** ** A run on a dataset without rows or columns *)

Section heap_and_files.

Variable h : list (list Dict).
Variable f : gset string.

Lemma heap_and_files_stdout : ignores_stdout (heap_and_files h f).
Proof. by intros g w. Qed.
Lemma heap_and_files_llm_calls : ignores_new_llm_calls (heap_and_files h f).
Proof. by intros p w. Qed.
Lemma heap_and_files_trace : ignores_trace (heap_and_files h f).
Proof. by intros g w. Qed.
Lemma heap_and_files_index_builds : ignores_index_builds (heap_and_files h f).
Proof. by intros g w. Qed.
Lemma heap_and_files_new_dirs : ignores_new_dirs (heap_and_files h f).
Proof. by intros p w. Qed.

End heap_and_files.

(** With the store at hand and the embedding service answering,
    [get_retriever] returns, and touches neither heap nor files. *)
Lemma get_retriever_returns env self w :
  store_available env self w →
  chroma_open env (embedding_model self) (chroma_db_path self) = None →
  ∃ w', get_retriever env self w = (w', inr (retriever_of self))
        ∧ heap w' = heap w ∧ files w' = files w.
Proof.
  intros Hstore Hopen.
  assert (Hres : (get_retriever env self w).2 = inr (retriever_of self)).
  { unfold get_retriever, os_path_exists.
    erewrite bind_inr by reflexivity.
    destruct (bool_decide _) eqn:Hex; cbn [negb].
    - erewrite bind_inr by reflexivity.
      unfold try_except, mbind, M_bind. by rewrite Hopen.
    - destruct Hstore as [Hstore | [[docs Hdocs] Hbuild]].
      { apply bool_decide_eq_false in Hex. by destruct Hex. }
      erewrite bind_inr; last first.
      { unfold _build_vector_db, Chroma_from_documents, lift, try_except, mbind, M_bind,
          note_build, check, add_dir.
        rewrite Hdocs, Hbuild. reflexivity. }
      unfold try_except, mbind, M_bind. by rewrite Hopen. }
  pose proof (stable_get_retriever (heap_and_files (heap w) (files w)) env self
                (heap_and_files_stdout _ _) (heap_and_files_index_builds _ _)
                (heap_and_files_new_dirs _ _) w (conj eq_refl eq_refl)) as [Hh Hf].
  destruct (get_retriever env self w) as [w' r]. simpl in *. subst r. by exists w'.
Qed.

(** With a retriever and a chat model that answer, the insight step returns
    one insight, and touches neither heap nor files. *)
Lemma insights_returns env llm st r w :
  retriever st = Some r →
  (∀ r q, ∃ docs, retriever_invoke env r q = inr docs) →
  (∀ i prompt, ∃ content, llm_invoke env llm i prompt = inr content) →
  ∃ w' s, _get_contextual_insights env llm st w = (w', inr (dict_insights [s]))
          ∧ heap w' = heap w ∧ files w' = files w.
Proof.
  intros Hr Hretr Hllm.
  assert (Hres : ∃ s, (_get_contextual_insights env llm st w).2 = inr (dict_insights [s])).
  { unfold _get_contextual_insights. rewrite Hr.
    erewrite bind_inr by reflexivity.
    destruct (Hretr r (insights_query env (default [] (numerical_cols st))
                         (default [] (categorical_cols st)))) as [docs Hdocs].
    unfold try_except, lift, mbind, M_bind, llm_content, print. rewrite Hdocs. simpl.
    match goal with
    | |- context [llm_invoke env llm ?i ?p] => destruct (Hllm i p) as [content Hc]; rewrite Hc
    end.
    by eexists. }
  destruct Hres as [s Hs].
  pose proof (stable_insights (heap_and_files (heap w) (files w)) env llm st
                (heap_and_files_stdout _ _) (heap_and_files_llm_calls _ _)
                w (conj eq_refl eq_refl)) as [Hh Hf].
  destruct (_get_contextual_insights env llm st w) as [w' res]. simpl in *. subst res.
  by exists w', s.
Qed.

(** An update that brings no list leaves the heap alone. *)
Lemma apply_update_plain st upd w :
  visualizations upd = None →
  apply_update st upd w = (w, inr (merge_values st upd (visualizations st))).
Proof. intros H. unfold apply_update, add_objects. by rewrite H. Qed.

(** A node that returns such an update. *)
Lemma node_plain name f st w w' upd :
  f st (set_trace (λ t, t ++ [(name, st)]) w) = (w', inr upd) →
  visualizations upd = None →
  node name f st w = (w', inr (merge_values st upd (visualizations st))).
Proof.
  intros Hf Hupd. unfold node.
  erewrite bind_inr by reflexivity.
  erewrite bind_inr by exact Hf.
  by apply apply_update_plain.
Qed.

(** The profiler on the empty frame. *)
Lemma profile_nothing env st w path :
  file_path st = Some path → read_csv env path = inr (mkFrame [] 0) →
  _profile_data_for_plotting env st w = (w, inr (dict_profile [] [] [])).
Proof.
  intros Hp Hdf. unfold _profile_data_for_plotting. rewrite Hp.
  erewrite bind_inr by reflexivity.
  erewrite bind_inr by (by apply get_dataset_inr).
  reflexivity.
Qed.

(** The six nodes on a state whose dataset is the empty frame. *)
Lemma chain_nothing env llm path tc r l w :
  read_csv env path = inr (mkFrame [] 0) →
  (∀ r q, ∃ docs, retriever_invoke env r q = inr docs) →
  (∀ i prompt, ∃ content, llm_invoke env llm i prompt = inr content) →
  ∃ w' final,
    chain (workflow_steps env llm)
      (mkState (Some path) tc None None None (Some r) (Some []) (Some l) (Some ∅)) w
    = (w', inr final)
    ∧ visualizations final = Some l
    ∧ heap w' = heap w ∧ files w' = files w.
Proof.
  intros Hdf Hretr Hllm. unfold workflow_steps. cbn [chain].
  (* profile_data *)
  erewrite bind_inr; last first.
  { eapply node_plain; [by eapply profile_nothing | done]. }
  cbv beta.
  (* get_contextual_insights *)
  match goal with
  | |- context [(node "get_contextual_insights" _ ?st ≫= _) ?w0] =>
      destruct (insights_returns env llm st r
                  (set_trace (λ t, t ++ [("get_contextual_insights", st)]) w0))
        as (w2 & s & E2 & Hh2 & Hf2); [done..|]
  end.
  erewrite bind_inr; last first.
  { eapply node_plain; [exact E2 | done]. }
  (* plot_univariate_numerical *)
  erewrite bind_inr; last first.
  { eapply node_plain; [by eapply plot_numerical_nothing | done]. }
  (* plot_univariate_categorical *)
  erewrite bind_inr; last first.
  { eapply node_plain; [by eapply plot_categorical_nothing | done]. }
  (* plot_correlation_heatmap *)
  erewrite bind_inr; last first.
  { eapply node_plain;
      [eapply plot_correlation_nothing; [done.. | reflexivity | simpl; lia] | done]. }
  (* generate_caption_for_heatmap *)
  erewrite bind_inr; last first.
  { eapply node_plain; [apply generate_caption_no_context; by right | done]. }
  eexists _, _. split; [reflexivity|]. simpl. by rewrite Hh2, Hf2.
Qed.



(** * Further properties of the code *)

(** ** Suffixes, splitting and paths *)

Lemma endswith_self s : endswith s s = true.
Proof. destruct s; cbn [endswith]; by rewrite bool_decide_eq_true_2. Qed.

Lemma endswith_append a b suffix :
  endswith b suffix = true → endswith (a +:+ b) suffix = true.
Proof.
  intros H. induction a as [|c a IH]; [done|].
  change (String c a +:+ b) with (String c (a +:+ b)). cbn [endswith].
  rewrite IH. apply orb_true_r.
Qed.

Lemma endswith_spec s suffix :
  endswith s suffix = true ↔ ∃ base, s = base +:+ suffix.
Proof.
  split.
  - induction s as [|c s IH]; cbn [endswith].
    + rewrite orb_false_r. intros ->%bool_decide_eq_true. by exists "".
    + intros [->%bool_decide_eq_true | H]%orb_true_iff; [by exists ""|].
      destruct (IH H) as [base ->]. by exists (String c base).
  - intros [base ->]. apply endswith_append, endswith_self.
Qed.

Lemma endswith_join folder file suffix :
  endswith file suffix = true → endswith (os_path_join folder file) suffix = true.
Proof.
  intros H. unfold os_path_join.
  destruct (startswith file "/"); [done|].
  destruct (_ || _); [by apply endswith_append|].
  by apply endswith_append, endswith_append.
Qed.

Lemma contains_dot s : contains "." s = has_char dot s.
Proof.
  induction s as [|c s IH]; [done|]. cbn [contains has_char]. rewrite IH.
  f_equal.
  change (String.prefix "." (String c s))
    with (if Ascii.ascii_dec dot c then String.prefix "" s else false).
  destruct (Ascii.ascii_dec dot c) as [<-|Hne].
  - rewrite bool_decide_eq_true_2 by done. by destruct s.
  - by rewrite bool_decide_eq_false_2.
Qed.

Lemma split_last_none sep s : split_last sep s = None ↔ has_char sep s = false.
Proof.
  induction s as [|c s IH]; [done|]. cbn [split_last has_char].
  destruct (split_last sep s) as [[a b]|].
  - destruct (has_char sep s); [|discriminate (proj2 IH eq_refl)].
    rewrite orb_true_r. clear IH. naive_solver.
  - rewrite (proj1 IH eq_refl), orb_false_r. clear IH.
    case_bool_decide; naive_solver.
Qed.

Lemma split_last_some_1 sep s a b :
  split_last sep s = Some (a, b) → s = a +:+ String sep b ∧ has_char sep b = false.
Proof.
  revert a b. induction s as [|c s IH]; intros a b; cbn [split_last]; [done|].
  destruct (split_last sep s) as [[a' b']|] eqn:E.
  - intros [= <- <-]. by destruct (IH a' b' eq_refl) as [-> Hb].
  - case_bool_decide; [|done]. intros [= <- <-]. subst c.
    split; [done|]. by apply split_last_none.
Qed.

Lemma split_last_some_2 sep a b :
  has_char sep b = false → split_last sep (a +:+ String sep b) = Some (a, b).
Proof.
  intros Hb. induction a as [|c a IH].
  - change ("" +:+ String sep b) with (String sep b). cbn [split_last].
    rewrite (proj2 (split_last_none sep b) Hb). by rewrite bool_decide_eq_true_2.
  - change (String c a +:+ String sep b) with (String c (a +:+ String sep b)).
    cbn [split_last]. by rewrite IH.
Qed.

Lemma has_char_append sep a b : has_char sep (a +:+ String sep b) = true.
Proof.
  induction a as [|c a IH].
  - change ("" +:+ String sep b) with (String sep b). cbn [has_char].
    by rewrite bool_decide_eq_true_2.
  - change (String c a +:+ String sep b) with (String c (a +:+ String sep b)).
    cbn [has_char]. rewrite IH. apply orb_true_r.
Qed.

(** ** [allowed_file] *)

(** X1.  [allowed_file] never raises, although it subscripts the result of
    [rsplit]: the membership test in front guards it.  It accepts exactly the
    names that have a dot and whose part after the last dot reads [csv] in
    lower case, whatever comes before that dot, nothing at all included. *)
Theorem allowed_file_accepts_csv filename :
  (∃ b, allowed_file filename = inr b)
  ∧ (allowed_file filename = inr true ↔
     ∃ base extension,
       filename = base +:+ "." +:+ extension
       ∧ has_char dot extension = false
       ∧ lower extension = "csv").
Proof.
  unfold allowed_file, rsplit1. rewrite contains_dot.
  destruct (split_last dot filename) as [[a b]|] eqn:E.
  - pose proof (split_last_some_1 _ _ _ _ E) as [-> Hb].
    rewrite has_char_append. cbn [lookup list_lookup]. split; [by eexists|].
    split.
    + intros [= H%bool_decide_eq_true]. exists a, b. split_and!; [done..|].
      unfold ALLOWED_EXTENSIONS in H. by apply elem_of_singleton in H.
    + intros (base & ext & Heq & Hext & Hlow). f_equal. apply bool_decide_eq_true.
      pose proof (split_last_some_2 dot base ext Hext) as Hsp.
      change (String dot ext) with ("." +:+ ext) in Hsp.
      rewrite <- Heq, E in Hsp. injection Hsp as -> ->.
      unfold ALLOWED_EXTENSIONS. by apply elem_of_singleton.
  - apply split_last_none in E. rewrite E. split; [by eexists|].
    split; [done|]. intros (base & ext & -> & Hext & _).
    change ("." +:+ ext) with (String dot ext) in E.
    by rewrite has_char_append in E.
Qed.

Lemma allowed_file_accepts_csv_witness :
  allowed_file "report.final.CSV" = inr true
  ∧ allowed_file "report.csv.txt" = inr false
  ∧ allowed_file "csv" = inr false.
Proof.
  split_and!; [|by vm_compute..].
  apply (proj2 (allowed_file_accepts_csv "report.final.CSV")).
  exists "report.final", "CSV". by vm_compute.
Defined.

(** ** [get_file_path] *)

Lemma first_csv_none folder names :
  first_csv folder names = None ↔ ∀ file, file ∈ names → endswith file ".csv" = false.
Proof.
  induction names as [|x names IH]; cbn [first_csv].
  - split; [|done]. by intros _ file ?%elem_of_nil.
  - destruct (endswith x ".csv") eqn:E.
    + split; [done|]. intros H. rewrite H in E; [done|left].
    + rewrite IH. split.
      * intros H file [->|?]%elem_of_cons; auto.
      * intros H file ?. apply H. by right.
Qed.

Lemma first_csv_some folder names p :
  first_csv folder names = Some p →
  ∃ before file after,
    names = before ++ file :: after
    ∧ (∀ f, f ∈ before → endswith f ".csv" = false)
    ∧ endswith file ".csv" = true
    ∧ p = os_path_join folder file.
Proof.
  induction names as [|x names IH]; cbn [first_csv]; [done|].
  destruct (endswith x ".csv") eqn:E.
  - intros [= <-]. exists [], x, names. split_and!; [done| |done..].
    by intros f ?%elem_of_nil.
  - intros (before & file & after & -> & Hb & Hf & ->)%IH.
    exists (x :: before), file, after. split_and!; [done| |done..].
    intros f [->|?]%elem_of_cons; auto.
Qed.

(** X2.  [get_file_path] answers with the first name, in the order of the
    directory listing, that ends in [.csv], joined to the folder; the path
    it returns ends in [.csv] itself.  It answers [None] exactly when no
    listed name ends in [.csv].  If the folder cannot be listed, the error
    comes back wrapped in [CustomException].  The world is left as it was. *)
Theorem get_file_path_first_csv host folder w :
  (∀ names, listdir host folder = inr names →
     ∃ r, get_file_path host folder w = (w, inr r)
          ∧ (r = None ↔ ∀ file, file ∈ names → endswith file ".csv" = false)
          ∧ (∀ p, r = Some p →
               endswith p ".csv" = true
               ∧ ∃ before file after,
                   names = before ++ file :: after
                   ∧ (∀ f, f ∈ before → endswith f ".csv" = false)
                   ∧ endswith file ".csv" = true
                   ∧ p = os_path_join folder file))
  ∧ (∀ e, listdir host folder = inl e →
       get_file_path host folder w = (w, inl (CustomException e))).
Proof.
  split.
  - intros names Hn. exists (first_csv folder names). split_and!.
    + unfold get_file_path, try_except, lift, mbind, M_bind. by rewrite Hn.
    + apply first_csv_none.
    + intros p Hp. pose proof (first_csv_some _ _ _ Hp)
        as (before & file & after & Hnames & Hb & Hf & ->).
      split; [by apply endswith_join|]. by exists before, file, after.
  - intros e He. unfold get_file_path, try_except, lift, mbind, M_bind. by rewrite He.
Qed.

Lemma get_file_path_first_csv_witness :
  get_file_path demo_host "data" fresh_world = (fresh_world, inr (Some "data/sales.csv"))
  ∧ get_file_path demo_host "uploads" fresh_world
    = (fresh_world, inl (CustomException (Raised FileNotFoundError "uploads"))).
Proof.
  destruct (get_file_path_first_csv demo_host "uploads" fresh_world) as [_ Herr].
  split; [reflexivity|]. exact (Herr _ eq_refl).
Defined.

(** ** [get_llm] and the construction of the agent *)

(** X3.  [get_llm] knows four spellings.  For [Groq] or [groq] it builds the
    Groq chat model [llama-3.1-8b-instant], for [Ollama] or [ollama] the
    Ollama chat model [qwen3:4b], both with temperature 1, and wraps in
    [CustomException] whatever the constructor raises.  For any other name,
    other capitalisations included, it returns [None] without an error; the
    agent constructor then refuses that [None] with a [ValueError], before
    it checks the connection or prints anything. *)
Theorem get_llm_known_types host env llm_type w :
  (llm_type ∉ known_llm_types →
     get_llm host llm_type w = (w, inr None)
     ∧ (get_llm host llm_type ≫= EDAVisualizationAgent_init env) w
       = (w, inl (Raised ValueError "An LLM instance must be provided.")))
  ∧ (llm_type = "Groq" ∨ llm_type = "groq" →
       get_llm host llm_type w
       = (w, match chat_model host (ChatGroq "llama-3.1-8b-instant" 1) with
             | None => inr (Some (ChatGroq "llama-3.1-8b-instant" 1))
             | Some e => inl (CustomException e)
             end))
  ∧ (llm_type = "Ollama" ∨ llm_type = "ollama" →
       get_llm host llm_type w
       = (w, match chat_model host (ChatOllama "qwen3:4b" 1) with
             | None => inr (Some (ChatOllama "qwen3:4b" 1))
             | Some e => inl (CustomException e)
             end)).
Proof.
  split_and!.
  - intros Hn.
    assert (E : get_llm host llm_type w = (w, inr None)).
    { unfold get_llm, known_llm_types in *.
      rewrite !elem_of_cons, elem_of_nil in Hn.
      rewrite !bool_decide_eq_false_2 by naive_solver. done. }
    split; [done|]. by erewrite bind_inr by exact E.
  - intros [-> | ->]; unfold get_llm, try_except, check, mbind, M_bind; simpl;
      by destruct (chat_model host _).
  - intros [-> | ->]; unfold get_llm, try_except, check, mbind, M_bind; simpl;
      by destruct (chat_model host _).
Qed.

Lemma get_llm_known_types_witness :
  ("GROQ" ∉ known_llm_types)
  ∧ (get_llm demo_host "GROQ" ≫= EDAVisualizationAgent_init demo_env) fresh_world
    = (fresh_world, inl (Raised ValueError "An LLM instance must be provided."))
  ∧ get_llm demo_host "groq" fresh_world = (fresh_world, inr (Some groq)).
Proof.
  assert (H : "GROQ" ∉ known_llm_types).
  { apply (bool_decide_unpack _). by vm_compute. }
  destruct (get_llm_known_types demo_host demo_env "GROQ" fresh_world) as (Hnone & _ & _).
  destruct (get_llm_known_types demo_host demo_env "groq" fresh_world) as (_ & Hgroq & _).
  split_and!; [exact H | exact (proj2 (Hnone H)) | exact (Hgroq (or_intror eq_refl))].
Defined.

(** ** [save_dataset] *)

(** X4.  [save_dataset] makes the directory [data] first, then reads the
    upload, then writes it.  When all three succeed it returns
    [os.path.join("data", filename)], and that path is a file afterwards,
    so [run] will find it.  When the upload cannot be read, the reader's
    error is raised as it is, not wrapped; the directory has been made by
    then and no file has been written. *)
Theorem save_dataset_effects env host file filename w :
  makedirs env "data" = None →
  (∀ df, file = inr df → to_csv host df (os_path_join "data" filename) = None →
     ∃ w', save_dataset env host file filename w = (w', inr (os_path_join "data" filename))
           ∧ files w' = {[os_path_join "data" filename]} ∪ files w
           ∧ dirs w' = {["data"]} ∪ dirs w
           ∧ os_path_isfile (os_path_join "data" filename) w' = (w', inr true))
  ∧ (∀ e, file = inl e →
       ∃ w', save_dataset env host file filename w = (w', inl e)
             ∧ files w' = files w
             ∧ dirs w' = {["data"]} ∪ dirs w).
Proof.
  intros Hmk. split.
  - intros df -> Hcsv. eexists. split.
    + unfold save_dataset, os_makedirs, check, lift, add_dir, add_file, mbind, M_bind.
      rewrite Hmk. simpl. rewrite Hcsv. reflexivity.
    + split_and!; [done..|]. unfold os_path_isfile. f_equal. f_equal. simpl.
      apply bool_decide_eq_true. set_solver.
  - intros e ->. eexists. split.
    + unfold save_dataset, os_makedirs, check, lift, add_dir, mbind, M_bind.
      rewrite Hmk. reflexivity.
    + done.
Qed.

Lemma save_dataset_effects_witness :
  makedirs demo_env "data" = None
  ∧ ∃ w', save_dataset demo_env demo_host (inr people) "ab12_people.csv" fresh_world
          = (w', inr "data/ab12_people.csv")
          ∧ files w' = {["data/ab12_people.csv"]} ∪ files fresh_world.
Proof.
  split; [reflexivity|].
  destruct (save_dataset_effects demo_env demo_host (inr people) "ab12_people.csv"
              fresh_world eq_refl) as [Hok _].
  destruct (Hok people eq_refl eq_refl) as (w' & E & Hf & _).
  exists w'. split; [exact E | exact Hf].
Defined.

(** ** The constructor of the agent *)

(** X5.  [EDAVisualizationAgent(llm)] checks that the Ollama server answers
    before it builds the graph.  If the request succeeds, the agent holds
    the chat model and the compiled workflow.  If the request fails with a
    connection error, the constructor raises
    [ConnectionRefusedError("Ollama server not found.")].  Any other failure
    of the request is not caught: it is raised as it is. *)
Theorem agent_construction env llm w :
  (requests_get env default_base_url = None →
     ∃ w', EDAVisualizationAgent_init env (Some llm) w = (w', inr (agent_of env llm))
           ∧ stdout w' = stdout w ++ [ "🔎 Checking for Ollama server connection...";
                                       "✅ Ollama server is running." ])
  ∧ (∀ e, requests_get env default_base_url = Some e →
       (EDAVisualizationAgent_init env (Some llm) w).2
       = inl (if isinstance e ConnectionError
              then Raised ConnectionRefusedError "Ollama server not found."
              else e)).
Proof.
  split.
  - intros H. eexists. split.
    + unfold EDAVisualizationAgent_init, _check_ollama_connection, try_except, check,
        print, mbind, M_bind. rewrite H. reflexivity.
    + simpl. by rewrite <- app_assoc.
  - intros e H.
    unfold EDAVisualizationAgent_init, _check_ollama_connection, try_except, check,
      print, mbind, M_bind. rewrite H. simpl.
    by destruct (isinstance e ConnectionError).
Qed.

Lemma agent_construction_witness :
  requests_get no_server_env default_base_url = Some server_down
  ∧ (EDAVisualizationAgent_init no_server_env (Some groq) fresh_world).2
    = inl (Raised ConnectionRefusedError "Ollama server not found.").
Proof.
  split; [reflexivity|].
  exact (proj2 (agent_construction no_server_env groq fresh_world) server_down eq_refl).
Defined.

(** ** The insight step *)

(** X6.  When the insight step returns, it returns exactly one insight.
    Without a retriever in the state that insight is the sentence
    [Retriever not available.] and no prompt has been sent.  With a
    retriever it is the chat model's reply, white space trimmed, to the one
    prompt built from the retrieved documents; the heap and the files are
    as before. *)
Theorem insight_step_returns_one env llm st w w' upd :
  _get_contextual_insights env llm st w = (w', inr upd) →
  heap w' = heap w ∧ files w' = files w
  ∧ ∃ s, upd = dict_insights [s]
         ∧ match retriever st with
           | None => s = "Retriever not available." ∧ llm_calls w' = llm_calls w
           | Some r =>
               ∃ docs content,
                 retriever_invoke env r
                   (insights_query env (default [] (numerical_cols st))
                                       (default [] (categorical_cols st))) = inr docs
                 ∧ llm_invoke env llm (length (llm_calls w))
                     (synthesis_prompt (join nl (page_content <$> docs))) = inr content
                 ∧ s = strip content
                 ∧ llm_calls w'
                   = llm_calls w ++ [synthesis_prompt (join nl (page_content <$> docs))]
           end.
Proof.
  unfold _get_contextual_insights.
  destruct (retriever st) as [r|].
  - unfold try_except, lift, mbind, M_bind, llm_content, print.
    destruct (retriever_invoke env r _) as [e|docs] eqn:Hdocs; simpl; [done|].
    destruct (llm_invoke env llm _ _) as [e|content] eqn:Hc; simpl; [done|].
    intros [= <- <-]. split_and!; [done..|].
    exists (strip content). split; [done|]. by exists docs, content.
  - unfold print, mbind, M_bind. simpl. intros [= <- <-]. split_and!; [done..|].
    by eexists.
Qed.

Lemma insight_step_returns_one_witness :
  ∃ w', _get_contextual_insights demo_env groq (plot_state ["age"] ["city"]) plot_world
        = (w', inr (dict_insights ["Ages cluster around forty."]))
        ∧ heap w' = heap plot_world.
Proof.
  eexists. split; [vm_compute; reflexivity|].
  exact (proj1 (insight_step_returns_one demo_env groq (plot_state ["age"] ["city"])
                  plot_world _ _ eq_refl)).
Defined.

(** X7.  When the insight step raises, the state had a retriever and the
    error is a [CustomException]: it wraps either what the retriever raised,
    and then no prompt was sent, or what the chat model raised on the one
    prompt that was sent.  The step never fails for want of a retriever. *)
Theorem insight_step_wraps_failures env llm st w w' e :
  _get_contextual_insights env llm st w = (w', inl e) →
  ∃ r cause,
    retriever st = Some r
    ∧ e = CustomException cause
    ∧ heap w' = heap w ∧ files w' = files w
    ∧ ((retriever_invoke env r
          (insights_query env (default [] (numerical_cols st))
                              (default [] (categorical_cols st))) = inl cause
        ∧ llm_calls w' = llm_calls w)
       ∨ ∃ docs,
           retriever_invoke env r
             (insights_query env (default [] (numerical_cols st))
                                 (default [] (categorical_cols st))) = inr docs
           ∧ llm_invoke env llm (length (llm_calls w))
               (synthesis_prompt (join nl (page_content <$> docs))) = inl cause
           ∧ llm_calls w'
             = llm_calls w ++ [synthesis_prompt (join nl (page_content <$> docs))]).
Proof.
  unfold _get_contextual_insights.
  destruct (retriever st) as [r|]; [|done].
  unfold try_except, lift, mbind, M_bind, llm_content, print.
  destruct (retriever_invoke env r _) as [cause|docs] eqn:Hdocs; simpl.
  - intros [= <- <-]. exists r, cause. split_and!; [done..|]. by left.
  - destruct (llm_invoke env llm _ _) as [cause|content] eqn:Hc; simpl; [|done].
    intros [= <- <-]. exists r, cause. split_and!; [done..|]. right. by exists docs.
Qed.

Lemma insight_step_wraps_failures_witness :
  ∃ w', _get_contextual_insights no_retrieval_env groq (plot_state ["age"] ["city"])
          plot_world = (w', inl (CustomException store_down))
        ∧ llm_calls w' = llm_calls plot_world.
Proof.
  eexists. split; [vm_compute; reflexivity|].
  destruct (insight_step_wraps_failures no_retrieval_env groq
              (plot_state ["age"] ["city"]) plot_world _ _ eq_refl)
    as (r & cause & _ & _ & _ & _ & [[_ H] | (docs & Hd & _)]).
  - exact H.
  - discriminate Hd.
Defined.

(** ** The caption generator on a context *)

(** X8.  Given a context that is not empty, the caption generator sends
    exactly one prompt.  A key the context lacks is replaced by a default:
    [chart] for [plot_type], [the dataset] for [details].  If the chat model
    replies, the generator returns a new list holding one entry with the
    plot type, the details and the trimmed reply, and an empty context.  If
    the chat model fails, its error is raised as it is, not wrapped, and no
    list is created. *)
Theorem caption_generator_with_context env llm st ctx w :
  current_plot_context st = Some ctx →
  ctx ≠ ∅ →
  llm_calls (_generate_caption env llm st w).1
  = llm_calls w ++ [caption_prompt (default "chart" (ctx !! "plot_type"))
                                   (default "the dataset" (ctx !! "details"))]
  ∧ match llm_invoke env llm (length (llm_calls w))
            (caption_prompt (default "chart" (ctx !! "plot_type"))
                            (default "the dataset" (ctx !! "details"))) with
    | inr content =>
        (_generate_caption env llm st w).2 = inr (dict_caption (length (heap w)) ∅)
        ∧ heap (_generate_caption env llm st w).1
          = heap w ++ [[ {[ "plot_type" := default "chart" (ctx !! "plot_type");
                            "details" := default "the dataset" (ctx !! "details");
                            "caption" := strip content ]} ]]
    | inl e =>
        (_generate_caption env llm st w).2 = inl e
        ∧ heap (_generate_caption env llm st w).1 = heap w
    end.
Proof.
  intros Hctx Hne. unfold _generate_caption. rewrite Hctx.
  cbn [default from_option id].
  rewrite bool_decide_eq_false_2 by done.
  unfold mbind, M_bind, print, llm_content, alloc. simpl.
  by destruct (llm_invoke env llm _ _).
Qed.

Lemma caption_generator_with_context_witness :
  current_plot_context (dict_context {[ "plot_type" := "Pie Chart" ]})
  = Some {[ "plot_type" := "Pie Chart" ]}
  ∧ llm_calls (_generate_caption demo_env groq
                 (dict_context {[ "plot_type" := "Pie Chart" ]}) plot_world).1
    = llm_calls plot_world ++ [caption_prompt "Pie Chart" "the dataset"].
Proof.
  split; [reflexivity|].
  refine (proj1 (caption_generator_with_context demo_env groq
                   (dict_context {[ "plot_type" := "Pie Chart" ]})
                   {[ "plot_type" := "Pie Chart" ]} plot_world eq_refl _)).
  apply insert_non_empty.
Defined.

(** ** The plot steps, column by column *)

Lemma replies_length env llm n prompts contents :
  replies env llm n prompts contents → length contents = length prompts.
Proof.
  revert n contents. induction prompts as [|p ps IH]; intros n [|c cs]; simpl; try done.
  intros [_ H]. f_equal. by eapply IH.
Qed.

Lemma llm_answers_replies env llm prompts n :
  llm_answers env llm → ∃ contents, replies env llm n prompts contents.
Proof.
  intros Hllm. revert n. induction prompts as [|p ps IH]; intros n.
  - by exists [].
  - destruct (Hllm n p) as [c Hc]. destruct (IH (S n)) as [cs Hcs].
    by exists (c :: cs).
Qed.

Lemma for_each_app {A} (body : A → M unit) (l1 l2 : list A) w :
  for_each body (l1 ++ l2) w = (for_each body l1;; for_each body l2) w.
Proof.
  revert w. induction l1 as [|x l1 IH]; intros w; [done|].
  simpl. unfold mbind, M_bind. destruct (body x w) as [w' [e|[]]]; [done|]. apply IH.
Qed.

(** A loop over columns whose body draws one plot, asks for one caption and
    appends one record to the list [l]. *)
Section plot_loop.
Context (env : Env) (llm : LLM) (l : loc).
Context (body : string → M unit).
Context (prompt : string → string) (record : string → string → Dict)
        (plot : string → string).
Hypothesis body_replied : ∀ col w xs content,
  heap w !! l = Some xs →
  llm_invoke env llm (length (llm_calls w)) (prompt col) = inr content →
  ∃ w', body col w = (w', inr tt)
        ∧ heap w' !! l = Some (xs ++ [record col content])
        ∧ files w' = {[plot col]} ∪ files w
        ∧ llm_calls w' = llm_calls w ++ [prompt col].
Hypothesis body_refused : ∀ col w xs e,
  heap w !! l = Some xs →
  llm_invoke env llm (length (llm_calls w)) (prompt col) = inl e →
  ∃ w', body col w = (w', inl e)
        ∧ heap w' !! l = Some xs
        ∧ files w' = {[plot col]} ∪ files w
        ∧ llm_calls w' = llm_calls w ++ [prompt col].

Lemma plot_loop_replied cols : ∀ contents w xs,
  heap w !! l = Some xs →
  replies env llm (length (llm_calls w)) (prompt <$> cols) contents →
  ∃ w', for_each body cols w = (w', inr tt)
        ∧ heap w' !! l = Some (xs ++ zip_with record cols contents)
        ∧ files w' = list_to_set (plot <$> cols) ∪ files w
        ∧ llm_calls w' = llm_calls w ++ (prompt <$> cols).
Proof.
  induction cols as [|col cols IH]; intros [|c cs] w xs Hl Hr; simpl in Hr; try done.
  - exists w. simpl. rewrite !app_nil_r. split_and!; [done..| |done].
    by rewrite (left_id_L ∅ (∪)).
  - destruct Hr as [Hc Hr].
    destruct (body_replied col w xs c Hl Hc) as (w1 & E1 & Hh1 & Hf1 & Hc1).
    destruct (IH cs w1 _ Hh1) as (w2 & E2 & Hh2 & Hf2 & Hc2).
    { rewrite Hc1, length_app. simpl. by rewrite Nat.add_1_r. }
    exists w2. split_and!.
    + cbn [for_each]. erewrite bind_inr by exact E1. exact E2.
    + rewrite Hh2. simpl. by rewrite <- app_assoc.
    + rewrite Hf2, Hf1. simpl.
      by rewrite (assoc_L (∪)), (comm_L (∪) (list_to_set _)).
    + rewrite Hc2, Hc1. simpl. by rewrite <- app_assoc.
Qed.

Lemma plot_loop_refused before col rest contents w xs e :
  heap w !! l = Some xs →
  replies env llm (length (llm_calls w)) (prompt <$> before) contents →
  llm_invoke env llm (length (llm_calls w) + length before) (prompt col) = inl e →
  ∃ w', for_each body (before ++ col :: rest) w = (w', inl e)
        ∧ heap w' !! l = Some (xs ++ zip_with record before contents)
        ∧ files w' = list_to_set (plot <$> before ++ [col]) ∪ files w
        ∧ llm_calls w' = llm_calls w ++ (prompt <$> before ++ [col]).
Proof.
  intros Hl Hr He.
  destruct (plot_loop_replied before contents w xs Hl Hr) as (w1 & E1 & Hh1 & Hf1 & Hc1).
  destruct (body_refused col w1 _ e Hh1) as (w2 & E2 & Hh2 & Hf2 & Hc2).
  { by rewrite Hc1, length_app, length_fmap. }
  exists w2. split_and!.
  - rewrite for_each_app. erewrite bind_inr by exact E1.
    cbn [for_each]. by erewrite bind_inl by exact E2.
  - done.
  - rewrite Hf2, Hf1, fmap_app, list_to_set_app_L. simpl.
    by rewrite (right_id_L ∅ (∪)), (assoc_L (∪)), (comm_L (∪) {[plot col]}).
  - by rewrite Hc2, Hc1, fmap_app, <- app_assoc.
Qed.

End plot_loop.

(** What the caption generator does for a plot when the chat model fails. *)
Lemma generate_caption_refused env llm t d w e :
  llm_invoke env llm (length (llm_calls w)) (caption_prompt t d) = inl e →
  ∃ w', _generate_caption env llm (dict_context (plot_context t d)) w = (w', inl e)
        ∧ heap w' = heap w ∧ files w' = files w ∧ dirs w' = dirs w
        ∧ llm_calls w' = llm_calls w ++ [caption_prompt t d].
Proof.
  intros H. unfold _generate_caption, dict_context.
  cbn [current_plot_context default from_option id].
  rewrite bool_decide_eq_false_2 by apply plot_context_not_empty.
  rewrite plot_context_type, plot_context_details.
  cbn [default from_option id].
  unfold mbind, M_bind, print, llm_content. simpl. rewrite H. by eexists.
Qed.

(** Drawing, saving and captioning one plot, then appending its record:
    the common part of the three plot steps. *)
Lemma caption_and_record env llm st t d title filename l w xs content :
  llm_invoke env llm (length (llm_calls w)) (caption_prompt t d) = inr content →
  visualizations st = Some l →
  heap w !! l = Some xs →
  ∃ w',
    (caption_state ← _generate_caption env llm (dict_context (plot_context t d));
     caption ← caption_of caption_state;
     target ← subscript "visualizations" (visualizations st);
     list_append target (visualization title filename caption)) w = (w', inr tt)
    ∧ heap w' !! l = Some (xs ++ [visualization title filename (strip content)])
    ∧ files w' = files w ∧ dirs w' = dirs w
    ∧ llm_calls w' = llm_calls w ++ [caption_prompt t d].
Proof.
  intros Hllm Hviz Hl.
  destruct (generate_caption_plot env llm t d w content Hllm)
    as (w3 & E & Hheap & Hfiles & Hdirs & Hcalls & _).
  assert (Hcap : caption_of (dict_caption (length (heap w)) ∅) w3 = (w3, inr (strip content))).
  { eapply caption_of_entry; [|apply entry_caption].
    rewrite Hheap. by apply list_lookup_middle. }
  eexists. split.
  { erewrite bind_inr by exact E.
    erewrite bind_inr by exact Hcap.
    rewrite Hviz. simpl. reflexivity. }
  simpl. rewrite Hheap, Hfiles, Hdirs, Hcalls. split_and!; [|done..].
  rewrite list_lookup_alter_eq, lookup_app_l by (by eapply lookup_lt_Some).
  by rewrite Hl.
Qed.

(** The same, followed by the rest of the step. *)
Lemma caption_and_record_then {B} env llm st t d title filename l w xs content (k : M B) :
  llm_invoke env llm (length (llm_calls w)) (caption_prompt t d) = inr content →
  visualizations st = Some l →
  heap w !! l = Some xs →
  ∃ w',
    (caption_state ← _generate_caption env llm (dict_context (plot_context t d));
     caption ← caption_of caption_state;
     target ← subscript "visualizations" (visualizations st);
     list_append target (visualization title filename caption);;
     k) w = k w'
    ∧ heap w' !! l = Some (xs ++ [visualization title filename (strip content)])
    ∧ files w' = files w ∧ dirs w' = dirs w
    ∧ llm_calls w' = llm_calls w ++ [caption_prompt t d].
Proof.
  intros Hllm Hviz Hl.
  destruct (generate_caption_plot env llm t d w content Hllm)
    as (w3 & E & Hheap & Hfiles & Hdirs & Hcalls & _).
  assert (Hcap : caption_of (dict_caption (length (heap w)) ∅) w3 = (w3, inr (strip content))).
  { eapply caption_of_entry; [|apply entry_caption].
    rewrite Hheap. by apply list_lookup_middle. }
  eexists. split.
  { erewrite bind_inr by exact E.
    erewrite bind_inr by exact Hcap.
    rewrite Hviz.
    erewrite bind_inr by reflexivity.
    erewrite bind_inr by reflexivity.
    reflexivity. }
  cbn [heap files dirs llm_calls set_heap].
  rewrite Hheap, Hfiles, Hdirs, Hcalls. split_and!; [|reflexivity..].
  rewrite list_lookup_alter_eq, lookup_app_l by (by eapply lookup_lt_Some).
  by rewrite Hl.
Qed.

Lemma caption_refused_no_record env llm st t d title filename w e :
  llm_invoke env llm (length (llm_calls w)) (caption_prompt t d) = inl e →
  ∃ w',
    (caption_state ← _generate_caption env llm (dict_context (plot_context t d));
     caption ← caption_of caption_state;
     target ← subscript "visualizations" (visualizations st);
     list_append target (visualization title filename caption)) w = (w', inl e)
    ∧ heap w' = heap w ∧ files w' = files w ∧ dirs w' = dirs w
    ∧ llm_calls w' = llm_calls w ++ [caption_prompt t d].
Proof.
  intros Hllm.
  destruct (generate_caption_refused env llm t d w e Hllm) as (w3 & E & H).
  exists w3. split; [|done]. by erewrite bind_inl by exact E.
Qed.

Lemma numerical_pass_replied env llm st df l col w xs content :
  rendering_works env → visualizations st = Some l →
  heap w !! l = Some xs →
  llm_invoke env llm (length (llm_calls w)) (numerical_prompt col) = inr content →
  ∃ w', plot_numerical_column env llm st df col w = (w', inr tt)
        ∧ heap w' !! l = Some (xs ++ [numerical_record col content])
        ∧ files w' = {[numerical_plot col]} ∪ files w
        ∧ llm_calls w' = llm_calls w ++ [numerical_prompt col].
Proof.
  intros (Hdraw & _ & _ & Hmk & Hsave) Hviz Hl Hllm.
  unfold plot_numerical_column, os_makedirs, fig_savefig.
  rewrite Hdraw, Hmk, Hsave.
  set (w2 := set_files (λ f, {[numerical_plot col]} ∪ f)
               (set_dirs (λ d, {[plots_dir]} ∪ d) w)).
  destruct (caption_and_record env llm st "Histogram and Box Plot"
              ("the numerical column '" +:+ col +:+ "'")
              ("Distribution of " +:+ col) ("hist_box_" +:+ col +:+ ".png")
              l w2 xs content Hllm Hviz Hl) as (w3 & E & Hh & Hf & _ & Hc).
  exists w3. split; [|by split_and!].
  unfold mbind at 1, M_bind at 1. simpl (check None w). cbv beta iota.
  do 2 (unfold mbind at 1, M_bind at 1; simpl; cbv beta iota).
  exact E.
Qed.

Lemma numerical_pass_refused env llm st df l col w xs e :
  rendering_works env →
  heap w !! l = Some xs →
  llm_invoke env llm (length (llm_calls w)) (numerical_prompt col) = inl e →
  ∃ w', plot_numerical_column env llm st df col w = (w', inl e)
        ∧ heap w' !! l = Some xs
        ∧ files w' = {[numerical_plot col]} ∪ files w
        ∧ llm_calls w' = llm_calls w ++ [numerical_prompt col].
Proof.
  intros (Hdraw & _ & _ & Hmk & Hsave) Hl Hllm.
  unfold plot_numerical_column, os_makedirs, fig_savefig.
  rewrite Hdraw, Hmk, Hsave.
  set (w2 := set_files (λ f, {[numerical_plot col]} ∪ f)
               (set_dirs (λ d, {[plots_dir]} ∪ d) w)).
  destruct (caption_refused_no_record env llm st "Histogram and Box Plot"
              ("the numerical column '" +:+ col +:+ "'")
              ("Distribution of " +:+ col) ("hist_box_" +:+ col +:+ ".png")
              w2 e Hllm) as (w3 & E & Hh & Hf & _ & Hc).
  exists w3. split; [|split_and!; [by rewrite Hh | done | done]].
  unfold mbind at 1, M_bind at 1. simpl (check None w). cbv beta iota.
  do 2 (unfold mbind at 1, M_bind at 1; simpl; cbv beta iota).
  exact E.
Qed.

Lemma categorical_pass_replied env llm st df l col w xs content :
  rendering_works env → visualizations st = Some l →
  heap w !! l = Some xs →
  llm_invoke env llm (length (llm_calls w)) (categorical_prompt col) = inr content →
  ∃ w', plot_categorical_column env llm st df col w = (w', inr tt)
        ∧ heap w' !! l = Some (xs ++ [categorical_record col content])
        ∧ files w' = {[categorical_plot col]} ∪ files w
        ∧ llm_calls w' = llm_calls w ++ [categorical_prompt col].
Proof.
  intros (_ & Hdraw & _ & _ & Hsave) Hviz Hl Hllm.
  unfold plot_categorical_column, fig_savefig.
  rewrite Hdraw, Hsave.
  set (w2 := set_files (λ f, {[categorical_plot col]} ∪ f) w).
  destruct (caption_and_record env llm st "Bar Chart"
              ("the categorical column '" +:+ col +:+ "'")
              ("Frequency of " +:+ col) ("countplot_" +:+ col +:+ ".png")
              l w2 xs content Hllm Hviz Hl) as (w3 & E & Hh & Hf & _ & Hc).
  exists w3. split; [|by split_and!].
  unfold mbind at 1, M_bind at 1. simpl (check None w). cbv beta iota.
  unfold mbind at 1, M_bind at 1; simpl; cbv beta iota.
  exact E.
Qed.

Lemma categorical_pass_refused env llm st df l col w xs e :
  rendering_works env →
  heap w !! l = Some xs →
  llm_invoke env llm (length (llm_calls w)) (categorical_prompt col) = inl e →
  ∃ w', plot_categorical_column env llm st df col w = (w', inl e)
        ∧ heap w' !! l = Some xs
        ∧ files w' = {[categorical_plot col]} ∪ files w
        ∧ llm_calls w' = llm_calls w ++ [categorical_prompt col].
Proof.
  intros (_ & Hdraw & _ & _ & Hsave) Hl Hllm.
  unfold plot_categorical_column, fig_savefig.
  rewrite Hdraw, Hsave.
  set (w2 := set_files (λ f, {[categorical_plot col]} ∪ f) w).
  destruct (caption_refused_no_record env llm st "Bar Chart"
              ("the categorical column '" +:+ col +:+ "'")
              ("Frequency of " +:+ col) ("countplot_" +:+ col +:+ ".png")
              w2 e Hllm) as (w3 & E & Hh & Hf & _ & Hc).
  exists w3. split; [|split_and!; [by rewrite Hh | done | done]].
  unfold mbind at 1, M_bind at 1. simpl (check None w). cbv beta iota.
  unfold mbind at 1, M_bind at 1; simpl; cbv beta iota.
  exact E.
Qed.

Lemma rendering_works_env_with df answer build : rendering_works (env_with df answer build).
Proof. by repeat split. Qed.

Lemma plot_numerical_returns env llm st w path df cols l xs contents :
  rendering_works env →
  file_path st = Some path → read_csv env path = inr df →
  numerical_cols st = Some cols →
  visualizations st = Some l → heap w !! l = Some xs →
  replies env llm (length (llm_calls w)) (numerical_prompt <$> cols) contents →
  ∃ w',
    _plot_univariate_numerical env llm st w
    = (w', inr (match cols with [] => dict_context ∅ | _ :: _ => empty_dict end))
    ∧ heap w' !! l = Some (xs ++ zip_with numerical_record cols contents)
    ∧ files w' = list_to_set (numerical_plot <$> cols) ∪ files w
    ∧ llm_calls w' = llm_calls w ++ (numerical_prompt <$> cols).
Proof.
  intros Hrender Hp Hdf Hcols Hviz Hl Hr.
  destruct (plot_loop_replied env llm l (plot_numerical_column env llm st df)
              numerical_prompt numerical_record numerical_plot
              (λ col w xs content, numerical_pass_replied env llm st df l col w xs content
                                     Hrender Hviz)
              cols contents w xs Hl Hr) as (w' & E & Hh & Hf & Hc).
  exists w'. split; [|split_and!; [exact Hh | exact Hf | exact Hc]].
  unfold _plot_univariate_numerical. rewrite Hp, Hcols.
  erewrite bind_inr by reflexivity.
  erewrite bind_inr by (by apply get_dataset_inr).
  erewrite bind_inr by reflexivity.
  destruct cols as [|col cols].
  - by injection E as <-.
  - by erewrite bind_inr by exact E.
Qed.

(** X9.  When the renderer and the disk work and the chat model replies to
    the prompts for the numerical columns, the numerical step appends one
    record per column, in the order of the columns, to the list of
    visualizations the state refers to.  The record of a column holds its
    title, the name of its plot file and the trimmed reply to its prompt.
    Each column has its plot file on disk, one prompt is sent per column,
    and the update the step returns carries no list of its own. *)
Theorem numerical_step_records env llm st w path df cols l xs contents :
  rendering_works env →
  file_path st = Some path → read_csv env path = inr df →
  numerical_cols st = Some cols →
  visualizations st = Some l → heap w !! l = Some xs →
  replies env llm (length (llm_calls w)) (numerical_prompt <$> cols) contents →
  ∃ w' upd,
    _plot_univariate_numerical env llm st w = (w', inr upd)
    ∧ visualizations upd = None
    ∧ heap w' !! l = Some (xs ++ zip_with numerical_record cols contents)
    ∧ files w' = list_to_set (numerical_plot <$> cols) ∪ files w
    ∧ llm_calls w' = llm_calls w ++ (numerical_prompt <$> cols).
Proof.
  intros Hrender Hp Hdf Hcols Hviz Hl Hr.
  destruct (plot_numerical_returns env llm st w path df cols l xs contents
              Hrender Hp Hdf Hcols Hviz Hl Hr) as (w' & E & H).
  exists w', (match cols with [] => dict_context ∅ | _ :: _ => empty_dict end).
  split; [exact E|]. split; [by destruct cols | exact H].
Qed.

Lemma numerical_step_records_witness :
  ∃ w' upd,
    _plot_univariate_numerical sales_env groq (plot_state ["price"; "units"] ["region"])
      plot_world = (w', inr upd)
    ∧ visualizations upd = None
    ∧ heap w' !! 0
      = Some ([] ++ zip_with numerical_record ["price"; "units"]
                      [" Prices rise with units. "; " Prices rise with units. "])
    ∧ files w' = list_to_set (numerical_plot <$> ["price"; "units"]) ∪ files plot_world
    ∧ llm_calls w' = llm_calls plot_world ++ (numerical_prompt <$> ["price"; "units"]).
Proof.
  apply (numerical_step_records sales_env groq (plot_state ["price"; "units"] ["region"])
           plot_world "data.csv" sales).
  - apply rendering_works_env_with.
  - reflexivity.
  - reflexivity.
  - reflexivity.
  - reflexivity.
  - reflexivity.
  - repeat split.
Defined.

Lemma plot_categorical_returns env llm st w path df cols l xs contents :
  rendering_works env →
  file_path st = Some path → read_csv env path = inr df →
  categorical_cols st = Some cols →
  visualizations st = Some l → heap w !! l = Some xs →
  replies env llm (length (llm_calls w)) (categorical_prompt <$> cols) contents →
  ∃ w',
    _plot_univariate_categorical env llm st w = (w', inr empty_dict)
    ∧ heap w' !! l = Some (xs ++ zip_with categorical_record cols contents)
    ∧ files w' = list_to_set (categorical_plot <$> cols) ∪ files w
    ∧ llm_calls w' = llm_calls w ++ (categorical_prompt <$> cols).
Proof.
  intros Hrender Hp Hdf Hcols Hviz Hl Hr.
  unfold _plot_univariate_categorical. rewrite Hp, Hcols.
  erewrite bind_inr by reflexivity.
  erewrite bind_inr by (by apply get_dataset_inr).
  erewrite bind_inr by reflexivity.
  destruct cols as [|col cols].
  - destruct contents; [|done]. exists w. simpl. rewrite !app_nil_r.
    split_and!; [done..| |done]. by rewrite (left_id_L ∅ (∪)).
  - set (w1 := set_dirs (λ d, {[plots_dir]} ∪ d) w).
    destruct (plot_loop_replied env llm l (plot_categorical_column env llm st df)
                categorical_prompt categorical_record categorical_plot
                (λ col w xs content, categorical_pass_replied env llm st df l col w xs
                                       content Hrender Hviz)
                (col :: cols) contents w1 xs Hl Hr) as (w' & E & Hh & Hf & Hc).
    exists w'. split; [|done].
    erewrite bind_inr; last first.
    { unfold os_makedirs. destruct Hrender as (_ & _ & _ & Hmk & _). rewrite Hmk.
      reflexivity. }
    by erewrite bind_inr by exact E.
Qed.

(** X10.  The categorical step does the same for the categorical columns:
    one record per column in the order of the columns, one plot file and
    one prompt per column, and an update that carries nothing. *)
Theorem categorical_step_records env llm st w path df cols l xs contents :
  rendering_works env →
  file_path st = Some path → read_csv env path = inr df →
  categorical_cols st = Some cols →
  visualizations st = Some l → heap w !! l = Some xs →
  replies env llm (length (llm_calls w)) (categorical_prompt <$> cols) contents →
  ∃ w',
    _plot_univariate_categorical env llm st w = (w', inr empty_dict)
    ∧ heap w' !! l = Some (xs ++ zip_with categorical_record cols contents)
    ∧ files w' = list_to_set (categorical_plot <$> cols) ∪ files w
    ∧ llm_calls w' = llm_calls w ++ (categorical_prompt <$> cols).
Proof. exact (plot_categorical_returns env llm st w path df cols l xs contents). Qed.

Lemma categorical_step_records_witness :
  ∃ w',
    _plot_univariate_categorical sales_env groq (plot_state ["price"; "units"] ["region"])
      plot_world = (w', inr empty_dict)
    ∧ heap w' !! 0
      = Some ([] ++ zip_with categorical_record ["region"] [" Prices rise with units. "])
    ∧ files w' = list_to_set (categorical_plot <$> ["region"]) ∪ files plot_world
    ∧ llm_calls w' = llm_calls plot_world ++ (categorical_prompt <$> ["region"]).
Proof.
  apply (categorical_step_records sales_env groq
           (plot_state ["price"; "units"] ["region"]) plot_world "data.csv" sales).
  - apply rendering_works_env_with.
  - reflexivity.
  - reflexivity.
  - reflexivity.
  - reflexivity.
  - reflexivity.
  - repeat split.
Defined.

Lemma plot_correlation_returns env llm st w path df cols l xs content :
  rendering_works env →
  file_path st = Some path → read_csv env path = inr df →
  numerical_cols st = Some cols → 2 ≤ length cols →
  visualizations st = Some l → heap w !! l = Some xs →
  llm_invoke env llm (length (llm_calls w)) heatmap_prompt = inr content →
  ∃ w',
    _plot_correlation_heatmap env llm st w = (w', inr empty_dict)
    ∧ heap w' !! l = Some (xs ++ [heatmap_record content])
    ∧ files w' = {[heatmap_plot]} ∪ files w
    ∧ dirs w' = {[plots_dir]} ∪ dirs w
    ∧ llm_calls w' = llm_calls w ++ [heatmap_prompt].
Proof.
  intros (_ & _ & Hdraw & Hmk & Hsave) Hp Hdf Hcols Hlen Hviz Hl Hllm.
  unfold _plot_correlation_heatmap. rewrite Hp, Hcols.
  erewrite bind_inr by reflexivity.
  erewrite bind_inr by (by apply get_dataset_inr).
  erewrite bind_inr by reflexivity.
  rewrite bool_decide_eq_false_2 by lia.
  unfold os_makedirs, fig_savefig. rewrite Hdraw, Hmk, Hsave.
  set (w2 := set_files (λ f, {[heatmap_plot]} ∪ f) (set_dirs (λ d, {[plots_dir]} ∪ d) w)).
  destruct (caption_and_record_then env llm st "Correlation Heatmap"
              "all numerical features" "Correlation Heatmap" "correlation_heatmap.png"
              l w2 xs content (mret empty_dict) Hllm Hviz Hl)
    as (w3 & E & Hh & Hf & Hd & Hc).
  exists w3. split; [|split_and!; [exact Hh | exact Hf | exact Hd | exact Hc]].
  unfold mbind at 1, M_bind at 1. simpl (check None w). cbv beta iota.
  do 2 (unfold mbind at 1, M_bind at 1; simpl; cbv beta iota).
  exact E.
Qed.



(** X12.  The numerical step does not undo what it did when the chat model
    fails on a column.  Let the model reply for the columns [before] and
    fail with [e] on the column [col].  Then the step raises [e], not
    wrapped; the list holds the records of [before] and none for [col]; the
    plot files of [before] and of [col] are on disk; and the columns after
    [col] are not touched: no prompt is sent for them. *)
Theorem numerical_step_stops_at_failed_caption
    env llm st w path df before col rest l xs contents e :
  rendering_works env →
  file_path st = Some path → read_csv env path = inr df →
  numerical_cols st = Some (before ++ col :: rest) →
  visualizations st = Some l → heap w !! l = Some xs →
  replies env llm (length (llm_calls w)) (numerical_prompt <$> before) contents →
  llm_invoke env llm (length (llm_calls w) + length before) (numerical_prompt col) = inl e →
  ∃ w',
    _plot_univariate_numerical env llm st w = (w', inl e)
    ∧ heap w' !! l = Some (xs ++ zip_with numerical_record before contents)
    ∧ files w' = list_to_set (numerical_plot <$> before ++ [col]) ∪ files w
    ∧ llm_calls w' = llm_calls w ++ (numerical_prompt <$> before ++ [col]).
Proof.
  intros Hrender Hp Hdf Hcols Hviz Hl Hr He.
  destruct (plot_loop_refused env llm l (plot_numerical_column env llm st df)
              numerical_prompt numerical_record numerical_plot
              (λ col w xs content, numerical_pass_replied env llm st df l col w xs content
                                     Hrender Hviz)
              (λ col w xs e, numerical_pass_refused env llm st df l col w xs e Hrender)
              before col rest contents w xs e Hl Hr He) as (w' & E & H).
  exists w'. split; [|exact H].
  unfold _plot_univariate_numerical. rewrite Hp, Hcols.
  erewrite bind_inr by reflexivity.
  erewrite bind_inr by (by apply get_dataset_inr).
  erewrite bind_inr by reflexivity.
  destruct (before ++ col :: rest) eqn:Hlist.
  - by destruct before.
  - by erewrite bind_inl by exact E.
Qed.

Lemma numerical_step_stops_at_failed_caption_witness :
  ∃ w',
    _plot_univariate_numerical tiring_env groq (plot_state ["price"; "units"] ["region"])
      plot_world = (w', inl llm_down)
    ∧ heap w' !! 0 = Some ([] ++ zip_with numerical_record ["price"] ["Prices peak early."])
    ∧ files w' = list_to_set (numerical_plot <$> ["price"] ++ ["units"]) ∪ files plot_world
    ∧ llm_calls w' = llm_calls plot_world ++ (numerical_prompt <$> ["price"] ++ ["units"]).
Proof.
  apply (numerical_step_stops_at_failed_caption tiring_env groq
           (plot_state ["price"; "units"] ["region"]) plot_world "data.csv" sales
           ["price"] "units" []).
  - repeat split.
  - reflexivity.
  - reflexivity.
  - reflexivity.
  - reflexivity.
  - reflexivity.
  - repeat split.
  - reflexivity.
Defined.

(** X13.  The correlation step looks for the list of visualizations only
    after it has drawn and captioned the heatmap.  On a state without the
    key [visualizations], with two numerical columns or more, it raises
    [KeyError] when the file has been written and the prompt has been
    sent. *)
Theorem correlation_step_without_list env llm st w path df cols content :
  rendering_works env →
  file_path st = Some path → read_csv env path = inr df →
  numerical_cols st = Some cols → 2 ≤ length cols →
  visualizations st = None →
  llm_invoke env llm (length (llm_calls w)) heatmap_prompt = inr content →
  ∃ w',
    _plot_correlation_heatmap env llm st w = (w', inl (Raised KeyError "visualizations"))
    ∧ files w' = {[heatmap_plot]} ∪ files w
    ∧ llm_calls w' = llm_calls w ++ [heatmap_prompt].
Proof.
  intros (_ & _ & Hdraw & Hmk & Hsave) Hp Hdf Hcols Hlen Hviz Hllm.
  unfold _plot_correlation_heatmap. rewrite Hp, Hcols.
  erewrite bind_inr by reflexivity.
  erewrite bind_inr by (by apply get_dataset_inr).
  erewrite bind_inr by reflexivity.
  rewrite bool_decide_eq_false_2 by lia.
  unfold os_makedirs, fig_savefig. rewrite Hdraw, Hmk, Hsave.
  set (w2 := set_files (λ f, {[heatmap_plot]} ∪ f) (set_dirs (λ d, {[plots_dir]} ∪ d) w)).
  destruct (generate_caption_plot env llm "Correlation Heatmap" "all numerical features"
              w2 content Hllm) as (w3 & E & Hheap & Hfiles & _ & Hcalls & _).
  assert (Hcap : caption_of (dict_caption (length (heap w2)) ∅) w3
                 = (w3, inr (strip content))).
  { eapply caption_of_entry; [|apply entry_caption].
    rewrite Hheap. by apply list_lookup_middle. }
  exists w3. split; [|split; [exact Hfiles | exact Hcalls]].
  unfold mbind at 1, M_bind at 1. simpl (check None w). cbv beta iota.
  do 2 (unfold mbind at 1, M_bind at 1; simpl; cbv beta iota).
  fold w2.
  erewrite bind_inr by exact E.
  erewrite bind_inr by exact Hcap.
  rewrite Hviz. reflexivity.
Qed.

Lemma correlation_step_without_list_witness :
  ∃ w',
    _plot_correlation_heatmap sales_env groq
      (mkState (Some "data.csv") None (Some ["price"; "units"]) None None None None None None)
      plot_world = (w', inl (Raised KeyError "visualizations"))
    ∧ files w' = {[heatmap_plot]} ∪ files plot_world
    ∧ llm_calls w' = llm_calls plot_world ++ [heatmap_prompt].
Proof.
  apply (correlation_step_without_list sales_env groq _ plot_world "data.csv" sales
           ["price"; "units"] " Prices rise with units. ").
  - apply rendering_works_env_with.
  - reflexivity.
  - reflexivity.
  - reflexivity.
  - simpl. lia.
  - reflexivity.
  - reflexivity.
Defined.

(** ** The retrieval pipeline *)

(** X14.  The data source of a pipeline is never the empty string: an empty
    argument selects the knowledge base shipped with the code, just as a
    missing one does, and any other argument is kept as it is.  The two
    other arguments are stored unchanged. *)
Theorem pipeline_data_source ds path model :
  data_source (RAGPipeline_init ds path model) ≠ ""
  ∧ RAGPipeline_init (Some "") path model = RAGPipeline_init None path model
  ∧ (∀ s, ds = Some s → s ≠ "" → data_source (RAGPipeline_init ds path model) = s)
  ∧ chroma_db_path (RAGPipeline_init ds path model) = path
  ∧ embedding_model (RAGPipeline_init ds path model) = model.
Proof.
  split_and!; [|reflexivity| |reflexivity..].
  - destruct ds as [[|c s]|]; discriminate.
  - intros [|c s] -> Hs; [by destruct Hs | reflexivity].
Qed.

(** X15.  When the knowledge base cannot be loaded, [_build_vector_db]
    raises the loader's error as it is, not as a [CustomException], before
    it asks for any store: the world is as it was.  Called on a disk
    without the store, [get_retriever] fails in the same way. *)
Theorem knowledge_base_failure_is_raw env self w e :
  csv_loader env (data_source self) = inl e →
  _build_vector_db env self w = (w, inl e)
  ∧ (¬ store_exists self w → get_retriever env self w = (w, inl e)).
Proof.
  intros He.
  assert (Hb : _build_vector_db env self w = (w, inl e)).
  { unfold _build_vector_db, lift, mbind, M_bind. by rewrite He. }
  split; [exact Hb|]. intros Hno.
  unfold get_retriever.
  erewrite bind_inr; last first.
  { unfold os_path_exists. by rewrite bool_decide_eq_false_2. }
  cbn [negb]. by erewrite bind_inl by exact Hb.
Qed.

Lemma knowledge_base_failure_is_raw_witness :
  _build_vector_db no_corpus_env RAGPipeline_default fresh_world
  = (fresh_world, inl corpus_missing)
  ∧ (¬ store_exists RAGPipeline_default fresh_world →
     get_retriever no_corpus_env RAGPipeline_default fresh_world
     = (fresh_world, inl corpus_missing)).
Proof.
  exact (knowledge_base_failure_is_raw no_corpus_env RAGPipeline_default fresh_world
           corpus_missing eq_refl).
Defined.



(** X17.  When [get_retriever] raises, either the store was not on disk
    and the error is the one [_build_vector_db] raised, passed on as it is,
    or the store could not be opened and the error is a [CustomException]
    around the cause.  In the second case the store is on disk, so that the
    next call will not build it again. *)
Theorem get_retriever_failures env self w w' e :
  get_retriever env self w = (w', inl e) →
  (¬ store_exists self w ∧ _build_vector_db env self w = (w', inl e))
  ∨ (∃ cause,
       e = CustomException cause
       ∧ chroma_open env (embedding_model self) (chroma_db_path self) = Some cause
       ∧ store_exists self w'
       ∧ index_builds (get_retriever env self w').1 = index_builds w').
Proof.
  intros H.
  assert (Hopen : ∀ w1, store_exists self w1 →
            (try_except
               (check (chroma_open env (embedding_model self) (chroma_db_path self));;
                mret (mkRetriever (chroma_db_path self) (embedding_model self) 5))
               (λ e, raise (CustomException e))) w1 = (w', inl e) →
            ∃ cause,
              e = CustomException cause
              ∧ chroma_open env (embedding_model self) (chroma_db_path self) = Some cause
              ∧ store_exists self w'
              ∧ index_builds (get_retriever env self w').1 = index_builds w').
  { intros w1 Hs. unfold try_except, check, mbind, M_bind, raise.
    destruct (chroma_open env _ _) as [cause|]; [|done].
    intros [= <- <-]. exists cause. split_and!; [done..|].
    by rewrite get_retriever_existing. }
  unfold get_retriever in H. unfold mbind at 1, M_bind at 1, os_path_exists at 1 in H.
  cbv beta iota in H. case_bool_decide as Hex; cbn [negb] in H.
  - right. apply (Hopen w); [done|]. exact H.
  - unfold mbind at 1, M_bind at 1 in H.
    destruct (_build_vector_db env self w) as [w1 [e1|[]]] eqn:Hb.
    + injection H as <- <-. by left.
    + right. apply (Hopen w1); [|exact H]. by eapply build_vector_db_leaves_store.
Qed.

Lemma get_retriever_failures_witness :
  (¬ store_exists RAGPipeline_default fresh_world
   ∧ _build_vector_db offline_env RAGPipeline_default fresh_world
     = ((get_retriever offline_env RAGPipeline_default fresh_world).1,
        inl (CustomException unreachable)))
  ∨ (∃ cause,
       CustomException unreachable = CustomException cause
       ∧ chroma_open offline_env (embedding_model RAGPipeline_default)
           (chroma_db_path RAGPipeline_default) = Some cause
       ∧ store_exists RAGPipeline_default
           (get_retriever offline_env RAGPipeline_default fresh_world).1
       ∧ index_builds
           (get_retriever offline_env RAGPipeline_default
              (get_retriever offline_env RAGPipeline_default fresh_world).1).1
         = index_builds (get_retriever offline_env RAGPipeline_default fresh_world).1).
Proof.
  apply (get_retriever_failures offline_env RAGPipeline_default fresh_world).
  vm_compute. reflexivity.
Defined.

(** ** The profiler: order and errors *)

Lemma sublist_filter_fmap {A B} (f : A → B) (P : A → Prop) `{∀ x, Decision (P x)}
    (l : list A) :
  f <$> filter P l `sublist_of` f <$> l.
Proof. apply fmap_sublist, sublist_filter. Qed.

(** X18.  The profiler keeps the order of the dataset: each of its three
    lists names columns in the order in which the dataset has them, so the
    plots come in the order of the columns of the file. *)
Theorem profile_keeps_column_order env st w path df :
  file_path st = Some path →
  read_csv env path = inr df →
  NoDup (column_names df) →
  parse_errors_caught env df →
  ∃ n c d,
    _profile_data_for_plotting env st w = (w, inr (dict_profile n c d))
    ∧ n `sublist_of` column_names df
    ∧ c `sublist_of` column_names df
    ∧ d `sublist_of` column_names df.
Proof.
  intros Hp Hdf Hnd Herr.
  eexists _, _, _. split; [by eapply profile_spec|].
  unfold column_names, select_dtypes. split_and!.
  - apply sublist_filter_fmap.
  - etrans; [apply sublist_filter | apply sublist_filter_fmap].
  - etrans; [apply fmap_sublist, sublist_filter | apply sublist_filter_fmap].
Qed.

Lemma profile_keeps_column_order_witness :
  ∃ n c d,
    _profile_data_for_plotting demo_env (plot_state [] []) plot_world
    = (plot_world, inr (dict_profile n c d))
    ∧ n `sublist_of` column_names people
    ∧ c `sublist_of` column_names people
    ∧ d `sublist_of` column_names people.
Proof.
  apply (profile_keeps_column_order demo_env (plot_state [] []) plot_world "data.csv" people).
  - reflexivity.
  - reflexivity.
  - apply (bool_decide_unpack _). vm_compute. exact I.
  - intros col e Hcol. unfold select_dtypes in Hcol.
    apply list_elem_of_filter in Hcol as [_ Hcol].
    unfold to_datetime, demo_env, env_with.
    destruct (forallb looks_like_date (col_cells col)); [discriminate|].
    intros [= <-]. reflexivity.
Defined.

(** The loop over the textual columns stops at the first error it does not
    catch. *)
Lemma datetime_loop_raises env df before col rest acc w e :
  NoDup (column_names df) →
  (∀ c, c ∈ before ++ [col] → c ∈ df_columns df) →
  (∀ c e', c ∈ before → to_datetime env c = Some e' →
           isinstance e' ValueError || isinstance e' TypeError = true) →
  to_datetime env col = Some e →
  isinstance e ValueError || isinstance e TypeError = false →
  datetime_loop env df (col_name <$> before ++ col :: rest) acc w = (w, inl e).
Proof.
  intros Hnd Hin Hcaught He Hclass. revert acc.
  induction before as [|c before IH]; intros acc.
  - cbn [app fmap list_fmap datetime_loop].
    erewrite bind_inl; [reflexivity|].
    erewrite try_inl; last first.
    { erewrite bind_inr by (apply getitem_unique; [done | apply Hin; by left]).
      rewrite He. reflexivity. }
    by rewrite Hclass.
  - rewrite <- app_comm_cons, fmap_cons. cbn [datetime_loop].
    assert (Hc : c ∈ df_columns df) by (apply Hin; left).
    destruct (to_datetime env c) as [e'|] eqn:E.
    + erewrite bind_inr; last first.
      { erewrite try_inl; last first.
        { erewrite bind_inr by (by apply getitem_unique).
          rewrite E. reflexivity. }
        rewrite (Hcaught c e'); [reflexivity | left | done]. }
      apply IH; intros; [apply Hin | eapply Hcaught]; try by right. done.
    + erewrite bind_inr; last first.
      { erewrite try_inr; [reflexivity|].
        erewrite bind_inr by (by apply getitem_unique).
        rewrite E. reflexivity. }
      apply IH; intros; [apply Hin | eapply Hcaught]; try by right. done.
Qed.

(** X19.  The profiler catches [ValueError] and [TypeError] from
    [pd.to_datetime] and nothing else.  If, going through the textual
    columns in order, the first error of another class is [e], the profiler
    raises [e] as it is, and returns no lists at all, whatever the other
    columns are. *)
Theorem profile_passes_on_other_errors env st w path df before col rest e :
  file_path st = Some path →
  read_csv env path = inr df →
  NoDup (column_names df) →
  select_dtypes [sel_object] df = before ++ col :: rest →
  (∀ c e', c ∈ before → to_datetime env c = Some e' →
           isinstance e' ValueError || isinstance e' TypeError = true) →
  to_datetime env col = Some e →
  isinstance e ValueError || isinstance e TypeError = false →
  _profile_data_for_plotting env st w = (w, inl e).
Proof.
  intros Hp Hdf Hnd Hsel Hcaught He Hclass.
  unfold _profile_data_for_plotting. rewrite Hp.
  erewrite bind_inr by reflexivity.
  erewrite bind_inr by (by apply get_dataset_inr).
  erewrite bind_inl; [reflexivity|].
  rewrite Hsel. apply datetime_loop_raises; [done| |done..].
  intros c Hc.
  assert (Hc' : c ∈ select_dtypes [sel_object] df).
  { rewrite Hsel. apply elem_of_app in Hc as [Hc|Hc]; apply elem_of_app; [by left|].
    right. apply list_elem_of_singleton in Hc as ->. by left. }
  unfold select_dtypes in Hc'. by apply list_elem_of_filter in Hc' as [_ ?].
Qed.

Lemma profile_passes_on_other_errors_witness :
  _profile_data_for_plotting overflow_env (plot_state [] []) plot_world
  = (plot_world, inl overflow).
Proof.
  apply (profile_passes_on_other_errors overflow_env (plot_state [] []) plot_world
           "data.csv" people []
           (mkColumn "city" object_ ["Oslo"; "Rome"])
           [mkColumn "signup_date" object_ ["2021-01-02"; "2022-03-04"]]).
  - reflexivity.
  - reflexivity.
  - apply (bool_decide_unpack _). vm_compute. exact I.
  - reflexivity.
  - intros c e' Hc. by apply elem_of_nil in Hc.
  - reflexivity.
  - reflexivity.
Defined.

(** ** A whole run *)

(** X20.  The summary that [run] returns describes the dataset as [run]
    itself loaded it, before the workflow started: whenever [run] returns,
    the path names a file, pandas could load it, and the numbers of rows
    and columns and the memory usage in the result are those of that
    frame, whatever the nodes of the graph did. *)
Theorem run_summary_of_loaded_frame env self path tc w w' res :
  run env self path tc w = (w', inr res) →
  path ∈ files w
  ∧ ∃ df, read_csv env path = inr df
          ∧ basic_info_rows res = df_rows df
          ∧ basic_info_columns res = length (df_columns df)
          ∧ basic_info_memory_usage res = memory_usage_kb env df.
Proof.
  unfold run. unfold mbind at 1, M_bind at 1, os_path_isfile at 1. cbv beta iota.
  case_bool_decide as Hfile; cbn [negb]; [|done].
  intros H. split; [done|].
  unfold mbind at 1, M_bind at 1, get_dataset, try_except, lift in H.
  destruct (read_csv env path) as [e|df]; [done|].
  exists df. split; [done|].
  unfold mbind, M_bind in H.
  destruct (alloc [] w) as [w1 [e1|l]]; [done|].
  destruct (get_retriever env RAGPipeline_default w1) as [w2 [e2|r]]; [done|].
  destruct (invoke _ _ w2) as [w3 [e3|final]]; [done|].
  destruct (match visualizations final with Some l0 => deref l0 | None => mret [] end w3)
    as [w4 [e4|vs]]; [done|].
  by injection H as _ <-.
Qed.

Lemma run_summary_of_loaded_frame_witness :
  "data.csv" ∈ files fresh_world
  ∧ ∃ df, read_csv nothing_env "data.csv" = inr df
          ∧ basic_info_rows (mkResults 0 0 "0.00 KB" []) = df_rows df
          ∧ basic_info_columns (mkResults 0 0 "0.00 KB" []) = length (df_columns df)
          ∧ basic_info_memory_usage (mkResults 0 0 "0.00 KB" [])
            = memory_usage_kb nothing_env df.
Proof.
  eapply (run_summary_of_loaded_frame nothing_env (agent_of nothing_env groq) "data.csv"
            None fresh_world).
  vm_compute. reflexivity.
Defined.

(** X21.  On a disk without the vector store, a knowledge base that cannot
    be loaded ends [run] before the workflow starts: [run] raises the
    loader's error as it is, no node has been started, no prompt sent, no
    build requested, and the disk is as it was. *)
Theorem run_without_knowledge_base env self path tc w df e :
  path ∈ files w →
  read_csv env path = inr df →
  ¬ store_exists RAGPipeline_default w →
  csv_loader env (data_source RAGPipeline_default) = inl e →
  ∃ w',
    run env self path tc w = (w', inl e)
    ∧ trace w' = trace w ∧ llm_calls w' = llm_calls w
    ∧ index_builds w' = index_builds w
    ∧ files w' = files w ∧ dirs w' = dirs w.
Proof.
  intros Hfile Hdf Hno He.
  eexists. split.
  { unfold run.
    erewrite bind_inr; last first.
    { unfold os_path_isfile. by rewrite bool_decide_eq_true_2. }
    cbn [negb].
    erewrite bind_inr by (by apply get_dataset_inr).
    erewrite bind_inr by reflexivity.
    erewrite bind_inl; [reflexivity|].
    unfold get_retriever.
    erewrite bind_inr; last first.
    { unfold os_path_exists. by rewrite bool_decide_eq_false_2. }
    cbn [negb]. erewrite bind_inl; [reflexivity|].
    unfold _build_vector_db, lift, mbind, M_bind. by rewrite He. }
  by split_and!.
Qed.

Lemma run_without_knowledge_base_witness :
  ∃ w',
    run no_corpus_env (agent_of no_corpus_env groq) "data.csv" None fresh_world
    = (w', inl corpus_missing)
    ∧ trace w' = trace fresh_world ∧ llm_calls w' = llm_calls fresh_world
    ∧ index_builds w' = index_builds fresh_world
    ∧ files w' = files fresh_world ∧ dirs w' = dirs fresh_world.
Proof.
  apply (run_without_knowledge_base no_corpus_env (agent_of no_corpus_env groq)
           "data.csv" None fresh_world people).
  - apply (bool_decide_unpack _). vm_compute. exact I.
  - reflexivity.
  - intros [H|H]; vm_compute in H; revert H; apply (bool_decide_unpack _).
    + vm_compute. exact I.
    + vm_compute. exact I.
  - reflexivity.
Defined.

(** The six nodes on a state as [run] prepares it, when every collaborator
    does its part. *)
Lemma chain_records env llm path tc r l w df xs n c d :
  read_csv env path = inr df →
  (∀ st w0, file_path st = Some path →
     _profile_data_for_plotting env st w0 = (w0, inr (dict_profile n c d))) →
  retriever_answers env → llm_answers env llm → rendering_works env →
  heap w !! l = Some xs →
  ∃ w' final cn cc ch,
    chain (workflow_steps env llm)
      (mkState (Some path) tc None None None (Some r) (Some []) (Some l) (Some ∅)) w
    = (w', inr final)
    ∧ visualizations final = Some l
    ∧ heap w' !! l
      = Some (((xs ++ zip_with numerical_record n cn) ++ zip_with categorical_record c cc)
              ++ (if bool_decide (2 ≤ length n) then [heatmap_record ch] else []))
    ∧ length cn = length n ∧ length cc = length c
    ∧ files w'
      = (if bool_decide (2 ≤ length n) then {[heatmap_plot]} else ∅)
        ∪ (list_to_set (categorical_plot <$> c)
           ∪ (list_to_set (numerical_plot <$> n) ∪ files w)).
Proof.
  intros Hdf Hprofile Hretr Hllm Hrender Hl. unfold workflow_steps. cbn [chain].
  (* profile_data *)
  erewrite bind_inr; last first.
  { eapply node_plain; [by apply Hprofile | done]. }
  cbv beta.
  (* get_contextual_insights *)
  match goal with
  | |- context [(node "get_contextual_insights" _ ?st ≫= _) ?w0] =>
      destruct (insights_returns env llm st r
                  (set_trace (λ t, t ++ [("get_contextual_insights", st)]) w0))
        as (w2 & s & E2 & Hh2 & Hf2); [done..|]
  end.
  erewrite bind_inr; last first.
  { eapply node_plain; [exact E2 | done]. }
  cbn [heap files set_trace] in Hh2, Hf2.
  (* plot_univariate_numerical *)
  match goal with
  | |- context [(node "plot_univariate_numerical" _ ?st ≫= _) ?w0] =>
      destruct (llm_answers_replies env llm (numerical_prompt <$> n)
                  (length (llm_calls
                     (set_trace (λ t, t ++ [("plot_univariate_numerical", st)]) w0))) Hllm)
        as [cn Hcn];
      destruct (plot_numerical_returns env llm st
                  (set_trace (λ t, t ++ [("plot_univariate_numerical", st)]) w0)
                  path df n l xs cn Hrender eq_refl Hdf eq_refl eq_refl)
        as (w3 & E3 & Hh3 & Hf3 & _);
        [cbn [heap set_trace]; by rewrite Hh2 | exact Hcn |]
  end.
  erewrite bind_inr; last first.
  { eapply node_plain; [exact E3 | by destruct n]. }
  cbn [files set_trace] in Hf3.
  (* plot_univariate_categorical *)
  match goal with
  | |- context [(node "plot_univariate_categorical" _ ?st ≫= _) ?w0] =>
      assert (Hfp3 : file_path st = Some path) by (by destruct n);
      assert (Hnc3 : numerical_cols st = Some n) by (by destruct n);
      assert (Hcc3 : categorical_cols st = Some c) by (by destruct n);
      assert (Hv3 : visualizations st = Some l) by (by destruct n);
      assert (Hctx3 : no_context st) by (destruct n; by right);
      set (st3 := st) in *
  end.
  clearbody st3.
  destruct (llm_answers_replies env llm (categorical_prompt <$> c)
              (length (llm_calls
                 (set_trace (λ t, t ++ [("plot_univariate_categorical", st3)]) w3))) Hllm)
    as [cc Hcc].
  destruct (plot_categorical_returns env llm st3
              (set_trace (λ t, t ++ [("plot_univariate_categorical", st3)]) w3)
              path df c l _ cc Hrender Hfp3 Hdf Hcc3 Hv3 Hh3 Hcc)
    as (w4 & E4 & Hh4 & Hf4 & _).
  erewrite bind_inr; last first.
  { eapply node_plain; [exact E4 | done]. }
  cbn [files set_trace] in Hf4.
  pose proof (replies_length _ _ _ _ _ Hcn) as Hlcn. rewrite length_fmap in Hlcn.
  pose proof (replies_length _ _ _ _ _ Hcc) as Hlcc. rewrite length_fmap in Hlcc.
  (* plot_correlation_heatmap, then generate_caption_for_heatmap *)
  case_bool_decide as Hlen.
  - match goal with
    | |- context [(node "plot_correlation_heatmap" _ ?st ≫= _) ?w0] =>
        destruct (Hllm (length (llm_calls
                     (set_trace (λ t, t ++ [("plot_correlation_heatmap", st)]) w0)))
                    heatmap_prompt) as [ch Hch];
        destruct (plot_correlation_returns env llm st
                    (set_trace (λ t, t ++ [("plot_correlation_heatmap", st)]) w0)
                    path df n l _ ch Hrender Hfp3 Hdf Hnc3 Hlen Hv3 Hh4 Hch)
          as (w5 & E5 & Hh5 & Hf5 & _)
    end.
    erewrite bind_inr; last first.
    { eapply node_plain; [exact E5 | done]. }
    cbn [files set_trace] in Hf5.
    erewrite bind_inr; last first.
    { eapply node_plain; [apply generate_caption_no_context; exact Hctx3 | done]. }
    eexists _, _, cn, cc, ch. split; [reflexivity|].
    cbn [heap files set_trace].
    split_and!; [exact Hv3 | exact Hh5 | exact Hlcn | exact Hlcc |].
    by rewrite Hf5, Hf4, Hf3, Hf2.
  - erewrite bind_inr; last first.
    { eapply node_plain;
        [eapply plot_correlation_nothing; [exact Hfp3 | exact Hdf | exact Hnc3 | lia]
        | done]. }
    erewrite bind_inr; last first.
    { eapply node_plain; [apply generate_caption_no_context; exact Hctx3 | done]. }
    eexists _, _, cn, cc, "". split; [reflexivity|].
    cbn [heap files set_trace].
    split_and!; [exact Hv3 | by rewrite app_nil_r | exact Hlcn | exact Hlcc |].
    by rewrite (left_id_L ∅ (∪)), Hf4, Hf3, Hf2.
Qed.



(** ** What a run writes *)

Section only_plots.

Variable f0 d0 : gset string.
Variable store : string.
Variable env : Env.
Variable llm : LLM.

Lemma only_plots_stdout : ignores_stdout (only_plots_written f0 d0 store).
Proof. by intros f w. Qed.
Lemma only_plots_llm_calls : ignores_new_llm_calls (only_plots_written f0 d0 store).
Proof. by intros p w. Qed.
Lemma only_plots_heap : ignores_heap (only_plots_written f0 d0 store).
Proof. by intros f w. Qed.
Lemma only_plots_trace : ignores_trace (only_plots_written f0 d0 store).
Proof. by intros f w. Qed.
Lemma only_plots_index_builds : ignores_index_builds (only_plots_written f0 d0 store).
Proof. by intros f w. Qed.

Lemma only_plots_new_plot name w :
  only_plots_written f0 d0 store w →
  only_plots_written f0 d0 store (set_files (λ f, {[path_join plots_dir name]} ∪ f) w).
Proof.
  intros (Hf & Hnew & Hd & Hdirs). split_and!; cbn [files dirs set_files]; [|  |done..].
  - intros p Hp. apply elem_of_union_r. by apply Hf.
  - intros p [Hp%elem_of_singleton|Hp]%elem_of_union; [|by apply Hnew].
    right. by exists name.
Qed.

Lemma only_plots_new_dir p w :
  p = plots_dir ∨ p = store →
  only_plots_written f0 d0 store w →
  only_plots_written f0 d0 store (set_dirs (λ d, {[p]} ∪ d) w).
Proof.
  intros Hp (Hf & Hnew & Hd & Hdirs). split_and!; cbn [files dirs set_dirs]; [done..| |].
  - intros q Hq. apply elem_of_union_r. by apply Hd.
  - intros q [Hq%elem_of_singleton|Hq]%elem_of_union; [|by apply Hdirs].
    subst q. right. exact Hp.
Qed.

Lemma only_plots_savefig name :
  stable (only_plots_written f0 d0 store) (fig_savefig env (path_join plots_dir name)).
Proof.
  unfold fig_savefig. apply stable_bind; [apply silent_stable, silent_check|].
  intros _ w Hw. by apply only_plots_new_plot.
Qed.

Lemma only_plots_makedirs :
  stable (only_plots_written f0 d0 store) (os_makedirs env plots_dir).
Proof.
  unfold os_makedirs. apply stable_bind; [apply silent_stable, silent_check|].
  intros _ w Hw. apply only_plots_new_dir; [by left | done].
Qed.

Lemma only_plots_generate_caption st :
  stable (only_plots_written f0 d0 store) (_generate_caption env llm st).
Proof.
  apply stable_generate_caption;
    [apply only_plots_stdout | apply only_plots_llm_calls | apply only_plots_heap].
Qed.

Ltac only_plots_step :=
  lazymatch goal with
  | |- stable _ (os_makedirs _ _) => apply only_plots_makedirs
  | |- stable _ (fig_savefig _ _) => apply only_plots_savefig
  | |- stable _ (_generate_caption _ _ _) => apply only_plots_generate_caption
  | |- stable _ (mbind _ (caption_of _)) =>
      first [ apply stable_record
            | apply stable_record_then; [|apply silent_stable, silent_ret] ];
      intros; by apply only_plots_heap
  | |- _ => stable_step
  end.

Lemma only_plots_plot_numerical st :
  stable (only_plots_written f0 d0 store) (_plot_univariate_numerical env llm st).
Proof.
  unfold _plot_univariate_numerical. repeat only_plots_step.
  apply stable_for_each. intros col.
  unfold plot_numerical_column. repeat only_plots_step.
Qed.

Lemma only_plots_plot_categorical st :
  stable (only_plots_written f0 d0 store) (_plot_univariate_categorical env llm st).
Proof.
  unfold _plot_univariate_categorical. repeat only_plots_step.
  apply stable_for_each. intros col.
  unfold plot_categorical_column. repeat only_plots_step.
Qed.

Lemma only_plots_plot_correlation st :
  stable (only_plots_written f0 d0 store) (_plot_correlation_heatmap env llm st).
Proof. unfold _plot_correlation_heatmap. repeat only_plots_step. Qed.

Lemma only_plots_workflow_nodes name f st :
  find_node name (nodes (_build_graph env llm)) = Some f →
  stable (only_plots_written f0 d0 store) (f st).
Proof.
  cbn [_build_graph nodes add_node new_graph set_entry_point add_edge app find_node].
  repeat (case_bool_decide;
          [intros [= <-];
           first [ apply stable_profile
                 | apply stable_insights;
                   [apply only_plots_stdout | apply only_plots_llm_calls]
                 | apply only_plots_plot_numerical | apply only_plots_plot_categorical
                 | apply only_plots_plot_correlation | apply only_plots_generate_caption ]
          |]).
  done.
Qed.

Lemma only_plots_get_retriever self :
  chroma_db_path self = store →
  stable (only_plots_written f0 d0 store) (get_retriever env self).
Proof.
  intros Hstore. unfold get_retriever. repeat only_plots_step.
  unfold _build_vector_db, Chroma_from_documents.
  repeat first
    [ apply only_plots_stdout
    | lazymatch goal with
      | |- stable _ (print _) => apply stable_print, only_plots_stdout
      | |- stable _ (note_build _) => apply stable_note_build, only_plots_index_builds
      | |- stable _ (add_dir _) =>
          intros w Hw; apply only_plots_new_dir; [by right | done]
      | |- stable _ (if ?b then _ else _) => destruct b
      | |- _ => stable_step
      end ].
Qed.

End only_plots.

Lemma only_plots_run env llm path tc f0 d0 :
  stable (only_plots_written f0 d0 "chroma_db") (run env (agent_of env llm) path tc).
Proof.
  unfold run. stable_auto.
  - apply stable_alloc, only_plots_heap.
  - by apply only_plots_get_retriever.
  - apply stable_invoke; [apply only_plots_trace | |].
    + intros. apply stable_apply_update, only_plots_heap.
    + apply only_plots_workflow_nodes.
Qed.


(** ** A run without a chat model *)

Lemma node_raises name f st w w' e :
  f st (set_trace (λ t, t ++ [(name, st)]) w) = (w', inl e) →
  node name f st w = (w', inl e).
Proof.
  intros Hf. unfold node.
  erewrite bind_inr by reflexivity.
  by erewrite bind_inl by exact Hf.
Qed.

Lemma insights_refused env llm st r w e :
  retriever st = Some r →
  retriever_answers env →
  (∀ i prompt, llm_invoke env llm i prompt = inl e) →
  ∃ w', _get_contextual_insights env llm st w = (w', inl (CustomException e))
        ∧ files w' = files w ∧ trace w' = trace w
        ∧ length (llm_calls w') = S (length (llm_calls w)).
Proof.
  intros Hr Hretr Hllm. unfold _get_contextual_insights. rewrite Hr.
  erewrite bind_inr by reflexivity.
  destruct (Hretr r (insights_query env (default [] (numerical_cols st))
                       (default [] (categorical_cols st)))) as [docs Hdocs].
  unfold try_except, lift, mbind, M_bind, llm_content, print. rewrite Hdocs. simpl.
  rewrite Hllm. eexists. split; [reflexivity|]. simpl.
  split_and!; [reflexivity..|]. rewrite length_app. simpl. lia.
Qed.


